(** * Partner dashboard (dash.py): a shallow embedding and its properties

    The script loads a spreadsheet of partners into a pandas DataFrame,
    derives two rates and a contact age per row, filters the rows through
    the sidebar selections and then renders four sections (ranking, channel
    summary, churn risk, ideal profile).

    Modelling choices, all taken from the source:
    - a DataFrame is an ordered list of column names together with an
      ordered list of rows, each row mapping a column name to a cell;
    - a cell is one of the scalar kinds pandas stores (text, int64,
      float64, bool, timestamp, NaT); float64 is IEEE-754 binary64, taken
      from the Standard Library's [SpecFloat] (53 bits of precision);
    - Python exceptions are an error monad ([result]);
    - the dtype of a column is read off its cells: int64 or float64 when
      they are all numbers, bool when they are all booleans, datetime64
      when they are all timestamps, object otherwise;
    - library kernels whose code is not part of this repository and whose
      exact output the script does not fix (the date parser, the clock,
      Python's division on an object column, the mean and quantile
      kernels, the lookup of a missing default in a multiselect, the tie
      order of the default quicksort of [sort_values]) are parameters or
      relations. *)

From Stdlib Require Import ZArith SpecFloat.
From stdpp Require Import base gmap strings list.

(** ** float64 *)

Module F64.

Definition prec : Z := 53%Z.
Definition emax : Z := 1024%Z.

Definition t := spec_float.

Definition NaN : t := S754_nan.
Definition zero : t := S754_zero false.
Definition pinf : t := S754_infinity false.

(** int64 -> float64 conversion (round to nearest even). *)
Definition of_Z (z : Z) : t := binary_normalize prec emax z 0%Z false.

Definition div (x y : t) : t := SFdiv prec emax x y.
Definition add (x y : t) : t := SFadd prec emax x y.
Definition ltb (x y : t) : bool := SFltb x y.
Definition eqb (x y : t) : bool := SFeqb x y.

Definition is_nan (x : t) : bool :=
  match x with S754_nan => true | _ => false end.

Definition is_inf (x : t) : bool :=
  match x with S754_infinity _ => true | _ => false end.

(** The literal [0.2] of the source, the double nearest to 1/5. *)
Definition lit_0_2 : t := S754_finite false 7205759403792794 (-55)%Z.

End F64.

#[export] Instance spec_float_eq_dec : EqDecision spec_float.
Proof. solve_decision. Defined.

(** ** Cells, rows and frames *)

Inductive Cell : Type :=
  | Str (s : string)      (* object dtype: text *)
  | Int (z : Z)           (* int64 *)
  | Flt (x : F64.t)       (* float64; NaN is the missing value *)
  | Bool (b : bool)
  | Time (t : Z)          (* datetime64[ns]: nanoseconds since the epoch *)
  | NaT.                  (* missing timestamp *)

#[export] Instance Cell_eq_dec : EqDecision Cell.
Proof. solve_decision. Defined.

Definition NaN : Cell := Flt F64.NaN.

(** [pd.isna] on a scalar. *)
Definition isna (c : Cell) : bool :=
  match c with
  | Flt x => F64.is_nan x
  | NaT => true
  | _ => false
  end.

Abbreviation Row := (gmap string Cell).

Record DataFrame : Type := mkDF {
  columns : list string;
  rows : list Row
}.

(** [pd.DataFrame()] *)
Definition empty_frame : DataFrame := mkDF [] [].

(** [df.empty]: some axis has length 0. *)
Definition is_empty (df : DataFrame) : bool :=
  match columns df, rows df with
  | [], _ | _, [] => true
  | _, _ => false
  end.

(** [col in df.columns] *)
Definition has_column (df : DataFrame) (col : string) : bool :=
  bool_decide (col ∈ columns df).

(** The cell of a row in a column; a row of a frame holds every column of
    the frame, a hole reads as missing. *)
Definition cell_at (col : string) (r : Row) : Cell :=
  default NaN (r !! col).

(** ** Exceptions *)

Inductive Exc : Type :=
  | KeyError (k : string)
  | TypeError
  | ValueError
  | IndexError
  | NameError
  | IOError
  | OverflowError
  | StreamlitAPIException.

Inductive result (A : Type) : Type :=
  | Ok (a : A)
  | Raise (e : Exc).
Arguments Ok {A} a.
Arguments Raise {A} e.

Definition bind {A B : Type} (m : result A) (f : A → result B) : result B :=
  match m with
  | Ok a => f a
  | Raise e => Raise e
  end.

Notation "'let*' x ':=' m 'in' k" := (bind m (λ x, k))
  (at level 10, x name, m at level 100, k at level 200).

(** [df[col]] *)
Definition getcol (df : DataFrame) (col : string) : result (list Cell) :=
  if has_column df col then Ok (cell_at col <$> rows df)
  else Raise (KeyError col).

(** [df[col] = vals], [vals] aligned with the rows of [df]. *)
Definition setcol (df : DataFrame) (col : string) (vals : list Cell) : DataFrame :=
  {| columns := if has_column df col then columns df else columns df ++ [col];
     rows := zip_with (λ r v, <[col := v]> r) (rows df) vals |}.

(** Messages the script shows; only their kind is kept. *)
Inductive Event : Type :=
  | ErroCarregar (e : Exc)         (* st.error("Erro ao carregar dados: ...") *)
  | CanalIndisponivel              (* st.warning("Dados sobre canais ...") *)
  | MelhorCanal (canal taxa : Cell)
  | DadosIncompletos               (* st.error("Dados incompletos ...") *)
  | TotalEmRisco (n : nat)
  | NenhumRisco
  | PerfilInsuficiente.            (* st.warning("Não há dados suficientes ...") *)

(** ** Column names of the source *)

Definition c_fechadas : string := "Quantidade de indicações que foram fechadas".
Definition c_indicacoes : string := "Quantidade de indicações de proprietários".
Definition c_qualificadas : string := "Quantidade de indicações que foram qualificadas".
Definition c_data : string := "Data de último contato".
Definition c_taxa_conv : string := "Taxa Conversão".
Definition c_taxa_qual : string := "Taxa Qualificação".
Definition c_dias : string := "Dias sem contato".
Definition c_cidade : string := "Cidade".
Definition c_canal : string := "Canal de aquisição".
Definition c_tipo : string := "Tipo de parceiro".
Definition c_status : string := "Status da parceria".
Definition c_nps : string := "NPS da última interação".
Definition c_nome : string := "Nome do Parceiro".
Definition c_risco : string := "Risco Churn".
Definition c_taxa_media : string := "Taxa Média de Conversão".
Definition c_qtd : string := "Quantidade de Parceiros".

(** ** load_data *)

(** Cells of an int64 or float64 column. *)
Definition numeric (c : Cell) : bool :=
  match c with
  | Int _ | Flt _ => true
  | _ => false
  end.

Definition booleano (c : Cell) : bool :=
  match c with
  | Bool _ => true
  | _ => false
  end.

(** The column has a numeric dtype: int64 or float64 (numbers, NaN for an
    empty cell), or bool. Every other mix of cells is an object column. *)
Definition coluna_numerica (s : list Cell) : bool :=
  forallb numeric s || forallb booleano s.

(** Numeric view of a cell of a numeric column in arithmetic; [True] is 1
    and [False] is 0. *)
Definition as_float (c : Cell) : result F64.t :=
  match c with
  | Int z => Ok (F64.of_Z z)
  | Flt x => Ok x
  | Bool b => Ok (F64.of_Z (if b then 1 else 0))
  | _ => Raise TypeError
  end.

(** [a / b] on two cells of numeric columns: true division in float64. *)
Definition truediv (a b : Cell) : result Cell :=
  let* x := as_float a in let* y := as_float b in Ok (Flt (F64.div x y)).

(** [s1 / s2] on two aligned series of numeric dtype. *)
Fixpoint series_div (s1 s2 : list Cell) : result (list Cell) :=
  match s1, s2 with
  | a :: s1', b :: s2' =>
      let* q := truediv a b in let* qs := series_div s1' s2' in Ok (q :: qs)
  | _, _ => Ok []
  end.

(** [.fillna(0)]: only missing cells are replaced. *)
Definition fillna0 (c : Cell) : Cell :=
  if isna c then Flt F64.zero else c.

(** The columns [load_data] reads. *)
Definition colunas_fonte : list string :=
  [c_fechadas; c_indicacoes; c_qualificadas; c_data].

(** The three counter columns have a numeric dtype. *)
Definition contadores_numericos (df : DataFrame) : bool :=
  forallb (λ col, coluna_numerica (cell_at col <$> rows df))
          [c_fechadas; c_indicacoes; c_qualificadas].

Definition NS_PER_DAY : Z := 86400000000000%Z.

Section Load.

(** [s1 / s2] when one of the two series has object dtype: pandas applies
    Python's [/] to the pairs of objects (and, after a TypeError, once
    more to the pairs without a missing member). What that gives, an
    exception or one float per position (NaN where the quotient is
    missing), is not fixed here. *)
Variable truediv_objeto : list Cell → list Cell → result (nat → F64.t).

(** The date parser of [pd.to_datetime] on a cell of the column [s] that
    is neither a timestamp nor missing. pandas infers one format for the
    whole column (from its first text date), so what a cell gives depends
    on its column: a timestamp, a missing timestamp ([None], as for an
    empty text), or an exception. *)
Variable parse_datetime : list Cell → Cell → result (option Z).

(** [pd.to_datetime("today")], in nanoseconds. *)
Variable today : Z.

(** [s1 / s2] *)
Definition truediv_series (s1 s2 : list Cell) : result (list Cell) :=
  if coluna_numerica s1 && coluna_numerica s2 then series_div s1 s2
  else
    let* f := truediv_objeto s1 s2 in
    Ok ((λ i, Flt (f i)) <$> seq 0 (length s1)).

(** The rate column of lines 16-17 and 19-20: [(df[num] / df[den]).fillna(0)]. *)
Definition taxa (df : DataFrame) (num den : string) : result (list Cell) :=
  let* n := getcol df num in let* d := getcol df den in
  let* q := truediv_series n d in Ok (fillna0 <$> q).

(** One cell [c] of the column [s] under [pd.to_datetime]. *)
Definition to_datetime_cell (s : list Cell) (c : Cell) : result Cell :=
  match c with
  | Time t => Ok (Time t)
  | _ =>
      if isna c then Ok NaT
      else
        let* p := parse_datetime s c in
        Ok (match p with Some t => Time t | None => NaT end)
  end.

(** The cells [cs] of the column [s], in order: the first cell that does
    not convert raises for the whole series. *)
Fixpoint to_datetime_in (s cs : list Cell) : result (list Cell) :=
  match cs with
  | [] => Ok []
  | c :: cs' =>
      let* d := to_datetime_cell s c in
      let* ds := to_datetime_in s cs' in Ok (d :: ds)
  end.

(** [pd.to_datetime(series)] with the default [errors="raise"]. *)
Definition to_datetime (s : list Cell) : result (list Cell) :=
  to_datetime_in s s.

(** [today - ts] fits in the 64 bits of a timedelta. *)
Definition em_alcance (t : Z) : bool :=
  (- 2 ^ 63 <? today - t)%Z && (today - t <? 2 ^ 63)%Z.

Definition subtrai_ok (dts : list Cell) : bool :=
  forallb (λ c, match c with Time t => em_alcance t | _ => true end) dts.

(** One cell of [(today - series).dt.days]: whole days, rounded down. The
    column is int64 when no date is missing and float64 (with NaN for
    the missing ones) when some date is: [faltas] says which. *)
Definition dias_sem_contato (faltas : bool) (c : Cell) : Cell :=
  match c with
  | Time t =>
      let d := ((today - t) / NS_PER_DAY)%Z in
      if faltas then Flt (F64.of_Z d) else Int d
  | _ => NaN
  end.

(** [(pd.to_datetime("today") - series).dt.days]; the subtraction raises
    when a difference does not fit. *)
Definition dias_col (dts : list Cell) : result (list Cell) :=
  if subtrai_ok dts then Ok (dias_sem_contato (existsb isna dts) <$> dts)
  else Raise OverflowError.

(** The row lines 16-23 make of a row [r]: its two rates [tc] and [tq],
    its converted date [d] and its days without contact [dd]. *)
Definition derived_row (r : Row) (tc tq d dd : Cell) : Row :=
  <[c_dias := dd]>
    (<[c_data := d]> (<[c_taxa_qual := tq]> (<[c_taxa_conv := tc]> r))).


(** The body of the [try] block, lines 13-25. *)
Definition load_body (excel : result DataFrame) : result DataFrame :=
  let* df := excel in
  let* tc := taxa df c_fechadas c_indicacoes in
  let df := setcol df c_taxa_conv tc in
  let* tq := taxa df c_qualificadas c_indicacoes in
  let df := setcol df c_taxa_qual tq in
  let* datas := getcol df c_data in
  let* dts := to_datetime datas in
  let df := setcol df c_data dts in
  let* dts' := getcol df c_data in
  let* dias := dias_col dts' in
  let df := setcol df c_dias dias in
  Ok df.

(** [load_data()]: [excel] is what [pd.read_excel("Base.xlsx")] gives. Any
    exception of the body is caught, reported and replaced by an empty
    frame. *)
Definition load_data (excel : result DataFrame) : DataFrame * list Event :=
  match load_body excel with
  | Ok df => (df, [])
  | Raise e => (empty_frame, [ErroCarregar e])
  end.

End Load.

(** *** Sample spreadsheets *)

Definition parceiro (nome : string) (indicacoes fechadas qualificadas : Z)
    (data : Cell) : Row :=
  <[c_nome := Str nome]>
    (<[c_indicacoes := Int indicacoes]>
       (<[c_fechadas := Int fechadas]>
          (<[c_qualificadas := Int qualificadas]>
             (<[c_data := data]> ∅)))).

Definition colunas_base : list string :=
  [c_nome; c_indicacoes; c_fechadas; c_qualificadas; c_data].

(** The text dates the sample parser knows: one day in the ISO spelling
    ([true]) and the day after in the month/day/year spelling ([false]). *)
Definition data_conhecida (c : Cell) : option (bool * Z) :=
  match c with
  | Str "2024-01-01" => Some (true, 1704067200000000000%Z)
  | Str "01/02/2024" => Some (false, 1704153600000000000%Z)
  | _ => None
  end.

Definition texto (c : Cell) : bool :=
  match c with
  | Str _ => true
  | _ => false
  end.

(** A sample date parser: the format is the one of the first text of the
    column, and a text in another spelling raises. *)
Definition parse_amostra (s : list Cell) (c : Cell) : result (option Z) :=
  match List.find texto s ≫= data_conhecida, data_conhecida c with
  | Some (f0, _), Some (f, t) =>
      if bool_decide (f = f0) then Ok (Some t) else Raise ValueError
  | _, _ => Raise ValueError
  end.

(** A sample kernel for object columns: it always raises. *)
Definition div_amostra (s1 s2 : list Cell) : result (nat → F64.t) :=
  Raise TypeError.

(** 2024-01-03 12:00 *)
Definition hoje_amostra : Z := 1704283200000000000%Z.

(** No referral received, five closed, three qualified. *)
Definition base_sem_indicacoes : DataFrame :=
  mkDF colunas_base [parceiro "Imob A" 0 5 3 NaT].


(** Two partners whose dates are both dates, in two spellings. *)
Definition base_data_mista : DataFrame :=
  mkDF colunas_base
       [parceiro "Imob A" 10 5 6 (Str "2024-01-01");
        parceiro "Imob B" 4 1 2 (Str "01/02/2024")].

(** Three partners, the second one without a date. *)
Definition base_data_vazia : DataFrame :=
  mkDF colunas_base
       [parceiro "Imob A" 10 5 6 (Str "2024-01-01");
        parceiro "Imob B" 0 0 0 NaT;
        parceiro "Imob C" 5 1 1 (Str "2024-01-01")].

(** Three partners, each with a date. *)
Definition base_datas : DataFrame :=
  mkDF colunas_base
       [parceiro "Imob A" 10 5 6 (Str "2024-01-01");
        parceiro "Imob B" 0 0 0 (Str "2024-01-01");
        parceiro "Imob C" 5 1 1 (Str "2024-01-01")].

(** Counters typed as booleans. *)
Definition base_booleana : DataFrame :=
  mkDF colunas_base
       [<[c_fechadas := Bool true]>
          (<[c_qualificadas := Bool false]> (parceiro "Imob A" 2 0 0 NaT))].

(** ** Filters (lines 40-73) *)

(** The [filtros] dict: column name -> selected values, in insertion order. *)
Definition FilterSpec : Type := list (string * list Cell).

(** [series.isin(valores)] on one cell. The selectable values are the
    column's own [unique()] values, so a selected value and a cell of the
    column have the same representation; missing matches missing. *)
Definition isin (valores : list Cell) (c : Cell) : bool :=
  bool_decide (c ∈ valores).

(** [df[mask]]: the rows whose mask entry is true, same columns. *)
Definition select (p : Row → bool) (df : DataFrame) : DataFrame :=
  mkDF (columns df) (List.filter p (rows df)).

(** One iteration of the loop: [if valores and col in filtro.columns]. *)
Definition filtro_step (filtro : DataFrame) (f : string * list Cell) : DataFrame :=
  match snd f with
  | [] => filtro
  | _ :: _ =>
      if has_column filtro (fst f)
      then select (λ r, isin (snd f) (cell_at (fst f) r)) filtro
      else filtro
  end.

(** Lines 70-73: [filtro = df.copy()] followed by the loop. *)
Definition aplicar_filtros (df : DataFrame) (filtros : FilterSpec) : DataFrame :=
  fold_left filtro_step filtros df.

(** Whether a row passes every filter that the loop applies to a frame
    with columns [cols]: entries with no selected value and entries for a
    column the frame lacks are skipped. *)
Definition passa (cols : list string) (filtros : FilterSpec) (r : Row) : bool :=
  forallb (λ f, match snd f with
                | [] => true
                | _ :: _ =>
                    if bool_decide (fst f ∈ cols)
                    then isin (snd f) (cell_at (fst f) r)
                    else true
                end) filtros.

(** The columns the sidebar offers a filter for (lines 41, 48, 55, 62). *)
Definition filterable : list string := [c_cidade; c_canal; c_tipo; c_status].

(** *** Sample loaded rows *)

(** [a / b] in float64. *)
Definition razao (a b : Z) : F64.t := F64.div (F64.of_Z a) (F64.of_Z b).

Definition linha (nome : Cell) (cidade canal status : Cell) (nps : Z)
    (dias : Cell) (conv : F64.t) : Row :=
  <[c_nome := nome]>
    (<[c_cidade := cidade]>
       (<[c_canal := canal]>
          (<[c_status := status]>
             (<[c_nps := Int nps]>
                (<[c_dias := dias]>
                   (<[c_taxa_conv := Flt conv]> ∅)))))).

Definition colunas_painel : list string :=
  [c_nome; c_cidade; c_canal; c_status; c_nps; c_dias; c_taxa_conv].

Definition painel_pequeno : DataFrame :=
  mkDF colunas_painel
       [linha (Str "Imob A") (Str "Florianópolis") (Str "Indicação") (Str "Ativo")
              80 (Int 3) (razao 1 2);
        linha (Str "Imob B") (Str "Bombinhas") (Str "Evento") (Str "Ativo")
              70 (Int 10) (razao 1 2)].

(** The record of the specification's example: inactive, satisfaction 90,
    one day without contact, conversion rate 0.9. *)
Definition parceiro_inativo : Row :=
  linha (Str "Imob C") (Str "Bombinhas") (Str "Evento") (Str "Inativo")
        90 (Int 1) (razao 9 10).

(** ** Ordering of cells *)

(** Numeric value of a cell in comparisons and aggregations. *)
Definition num_value (c : Cell) : option F64.t :=
  match c with
  | Int z => Some (F64.of_Z z)
  | Flt x => Some x
  | Bool b => Some (F64.of_Z (if b then 1 else 0))
  | _ => None
  end.

(** [a < b] between two cells of one column. *)
Definition cell_ltb (a b : Cell) : bool :=
  match a, b with
  | Str s, Str u => String.ltb s u
  | Time s, Time u => (s <? u)%Z
  | Int x, Int y => (x <? y)%Z
  | _, _ =>
      match num_value a, num_value b with
      | Some x, Some y => F64.ltb x y
      | _, _ => false
      end
  end.

Inductive Kind : Type := KText | KNum | KTime.

#[export] Instance Kind_eq_dec : EqDecision Kind.
Proof. solve_decision. Defined.

Definition kind (c : Cell) : Kind :=
  match c with
  | Str _ => KText
  | Int _ | Flt _ | Bool _ => KNum
  | Time _ | NaT => KTime
  end.

(** A column can be ordered when its non-missing cells are of one kind;
    comparing text with a number raises in Python. *)
Definition sortable (keys : list Cell) : bool :=
  match List.filter (λ c, negb (isna c)) keys with
  | [] => true
  | k :: ks => forallb (λ c, bool_decide (kind c = kind k)) ks
  end.

(** ** sort_values(col, ascending=False) and head(n) *)

(** Positions of the keys that satisfy [p], in increasing order. *)
Definition positions (p : Cell → bool) (keys : list Cell) : list nat :=
  List.filter (λ i, match keys !! i with Some c => p c | None => false end)
              (seq 0 (length keys)).

(** Adjacent keys never increase. *)
Fixpoint sorted_desc (ks : list Cell) : bool :=
  match ks with
  | a :: (b :: _) as t => negb (cell_ltb a b) && sorted_desc t
  | _ => true
  end.

(** What pandas' [nargsort(keys, kind="quicksort", ascending=False,
    na_position="last")] guarantees about the indexer it returns: the
    positions of the non-missing keys, rearranged so that the keys never
    increase, followed by the positions of the missing keys in their
    original order. The default kind is not a stable sort: which of two
    equal keys comes first is left to the sorting kernel. *)
Definition nargsort_desc (keys : list Cell) (indexer : list nat) : Prop :=
  ∃ p : list nat,
    indexer = p ++ positions isna keys
    ∧ p ≡ₚ positions (λ c, negb (isna c)) keys
    ∧ sorted_desc (omap (λ i, keys !! i) p) = true.

(** [df.take(indexer)] *)
Definition take_rows (df : DataFrame) (indexer : list nat) : DataFrame :=
  mkDF (columns df) (omap (λ i, rows df !! i) indexer).

(** The keys of a frame for a sort on [col]. *)
Definition sort_keys (df : DataFrame) (col : string) : list Cell :=
  cell_at col <$> rows df.

(** [df.sort_values(col, ascending=False)] *)
Inductive sort_values_desc (df : DataFrame) (col : string) : result DataFrame → Prop :=
  | sort_values_ok indexer :
      has_column df col = true →
      sortable (sort_keys df col) = true →
      nargsort_desc (sort_keys df col) indexer →
      sort_values_desc df col (Ok (take_rows df indexer))
  | sort_values_no_column :
      has_column df col = false →
      sort_values_desc df col (Raise (KeyError col))
  | sort_values_mixed :
      has_column df col = true →
      sortable (sort_keys df col) = false →
      sort_values_desc df col (Raise TypeError).

(** [df.head(n)]: the first [n] rows, all of them when there are fewer. *)
Definition head (n : nat) (df : DataFrame) : DataFrame :=
  mkDF (columns df) (take n (rows df)).

(** [df.sort_values(col, ascending=False).head(n)] *)
Definition top_n (df : DataFrame) (col : string) (n : nat) (out : result DataFrame) : Prop :=
  ∃ s, sort_values_desc df col s ∧ out = (let* sorted := s in Ok (head n sorted)).

(** Line 97. *)
Definition top_parceiros (filtro : DataFrame) : result DataFrame → Prop :=
  top_n filtro c_taxa_conv 10.

(** The key at a position. *)
Definition key_at (keys : list Cell) (i : nat) : Cell :=
  default NaN (keys !! i).

(** The indexer a stable kernel ([kind="stable"]) returns: insertion of each
    position, from the last to the first, before the first position with a
    smaller key. It is one of the indexers [nargsort_desc] allows. *)
Fixpoint insert_desc (keys : list Cell) (i : nat) (p : list nat) : list nat :=
  match p with
  | [] => [i]
  | j :: p' =>
      if cell_ltb (key_at keys i) (key_at keys j)
      then j :: insert_desc keys i p'
      else i :: p
  end.

Definition stable_argsort_desc (keys : list Cell) : list nat :=
  foldr (insert_desc keys) [] (positions (λ c, negb (isna c)) keys)
  ++ positions isna keys.

(** Two positions tie when their keys are present and neither is smaller. *)
Definition tie (keys : list Cell) (i j : nat) : Prop :=
  ∃ x y, keys !! i = Some x ∧ keys !! j = Some y
         ∧ isna x = false ∧ isna y = false
         ∧ cell_ltb x y = false ∧ cell_ltb y x = false.

(** An indexer is stable when tied positions keep their original order:
    whatever comes later in the indexer and ties with an earlier entry was
    at a larger position in the input. *)
Fixpoint stable_indexer (keys : list Cell) (indexer : list nat) : Prop :=
  match indexer with
  | [] => True
  | i :: rest =>
      Forall (λ j, tie keys i j → (i < j)%nat) rest ∧ stable_indexer keys rest
  end.

(** A check of [nargsort_desc] on a given indexer. *)
Definition nargsort_desc_check (keys : list Cell) (indexer : list nat) : bool :=
  let k := length (positions (λ c, negb (isna c)) keys) in
  bool_decide (take k indexer ≡ₚ positions (λ c, negb (isna c)) keys)
  && bool_decide (drop k indexer = positions isna keys)
  && sorted_desc (omap (λ i, keys !! i) (take k indexer)).

(** Eighteen partners with the same conversion rate. *)
Definition painel_empatado : DataFrame :=
  mkDF colunas_painel
       ((λ nome, linha (Str nome) (Str "Bombinhas") (Str "Evento") (Str "Ativo")
                       80 (Int 3) (razao 1 2))
          <$> ["P00"; "P01"; "P02"; "P03"; "P04"; "P05"; "P06"; "P07"; "P08";
               "P09"; "P10"; "P11"; "P12"; "P13"; "P14"; "P15"; "P16"; "P17"]).

(** Twenty-four partners whose conversion rates are 1/2, 1/4 and 3/4 in
    turn: eight partners on each rate. *)
Definition painel_empates : DataFrame :=
  mkDF colunas_painel
       ((λ p : string * F64.t,
           linha (Str p.1) (Str "Bombinhas") (Str "Evento") (Str "Ativo")
                 80 (Int 3) p.2)
          <$> [("P00", razao 1 2);
           ("P01", razao 1 4);
           ("P02", razao 3 4);
           ("P03", razao 1 2);
           ("P04", razao 1 4);
           ("P05", razao 3 4);
           ("P06", razao 1 2);
           ("P07", razao 1 4);
           ("P08", razao 3 4);
           ("P09", razao 1 2);
           ("P10", razao 1 4);
           ("P11", razao 3 4);
           ("P12", razao 1 2);
           ("P13", razao 1 4);
           ("P14", razao 3 4);
           ("P15", razao 1 2);
           ("P16", razao 1 4);
           ("P17", razao 3 4);
           ("P18", razao 1 2);
           ("P19", razao 1 4);
           ("P20", razao 3 4);
           ("P21", razao 1 2);
           ("P22", razao 1 4);
           ("P23", razao 3 4)]).

(** An indexer for [painel_empates] that is descending in the rate and
    exchanges tied rows. *)
Definition indexer_trocado : list nat :=
  [23; 11; 2; 20; 5; 17; 8; 14; 21; 18; 15; 0; 9; 6; 3; 12;
   1; 13; 10; 16; 7; 19; 4; 22]%nat.

(** ** Channel summary (lines 118-144) *)

(** Insertion of a group key in ascending key order. *)
Fixpoint insert_key (k : Cell) (l : list Cell) : list Cell :=
  match l with
  | [] => [k]
  | h :: t => if cell_ltb k h then k :: l else h :: insert_key k t
  end.

(** The group keys of [groupby(col)] (default [sort=True, dropna=True]):
    the distinct non-missing values of the column, in ascending order. *)
Definition group_keys (df : DataFrame) (col : string) : list Cell :=
  foldr insert_key []
        (remove_dups (List.filter (λ c, negb (isna c)) (cell_at col <$> rows df))).

(** The rows of one group. *)
Definition membros (df : DataFrame) (col : string) (k : Cell) : list Row :=
  List.filter (λ r, bool_decide (cell_at col r = k)) (rows df).

(** The non-missing numeric values of a series; text or timestamps raise. *)
Fixpoint num_values (cs : list Cell) : result (list F64.t) :=
  match cs with
  | [] => Ok []
  | c :: cs' =>
      if isna c then num_values cs'
      else match num_value c with
           | Some x => let* xs := num_values cs' in Ok (x :: xs)
           | None => Raise TypeError
           end
  end.

(** A mean kernel for the examples: the sum from left to right, divided by
    the number of values. *)
Definition media_simples (xs : list F64.t) : F64.t :=
  F64.div (foldl F64.add F64.zero xs) (F64.of_Z (Z.of_nat (length xs))).

(** A quantile kernel for the examples: the largest value. *)
Definition quantil_topo (xs : list F64.t) : F64.t :=
  foldr (λ x acc, if F64.ltb acc x then x else acc) (default F64.NaN (List.head xs)) xs.

(** ["count"]: the number of non-missing cells of a series. *)
Definition count_notna (cs : list Cell) : nat :=
  length (List.filter (λ c, negb (isna c)) cs).

Section Aggregates.

(** The mean kernel on a non-empty list of non-missing values. *)
Variable agg_mean : list F64.t → F64.t.

(** ["mean"] of a series: missing cells are skipped, no value left gives
    a missing mean. *)
Definition mean (cs : list Cell) : result Cell :=
  let* xs := num_values cs in
  Ok (match xs with [] => NaN | _ :: _ => Flt (agg_mean xs) end).

(** One row of the summary: the group key (made a column by
    [reset_index]), the mean of "Taxa Conversão" and the count of
    "Nome do Parceiro", under their new names. *)
Definition summary_row (filtro : DataFrame) (k : Cell) : result Row :=
  let g := membros filtro c_canal k in
  let* m := mean (cell_at c_taxa_conv <$> g) in
  let n := count_notna (cell_at c_nome <$> g) in
  Ok (<[c_canal := k]> (<[c_taxa_media := m]> (<[c_qtd := Int (Z.of_nat n)]> ∅))).

Fixpoint summary_rows (filtro : DataFrame) (ks : list Cell) : result (list Row) :=
  match ks with
  | [] => Ok []
  | k :: ks' =>
      let* r := summary_row filtro k in
      let* rs := summary_rows filtro ks' in
      Ok (r :: rs)
  end.

(** [filtro.groupby(c_canal).agg({...}).rename(columns={...})], with the
    group key shown as the first column. *)
Definition group_summary (filtro : DataFrame) : result DataFrame :=
  if negb (has_column filtro c_canal) then Raise (KeyError c_canal)
  else if negb (has_column filtro c_taxa_conv) then Raise (KeyError c_taxa_conv)
  else if negb (has_column filtro c_nome) then Raise (KeyError c_nome)
  else
    let* rs := summary_rows filtro (group_keys filtro c_canal) in
    Ok (mkDF [c_canal; c_taxa_media; c_qtd] rs).

(** Lines 119-125: the summary ordered by its mean, descending. *)
Definition canal_conv_of (filtro : DataFrame) (out : result DataFrame) : Prop :=
  match group_summary filtro with
  | Ok g => sort_values_desc g c_taxa_media out
  | Raise e => out = Raise e
  end.

(** The "Quantidade de Parceiros" entry of a summary row. *)
Definition qtd_of (r : Row) : Z :=
  match cell_at c_qtd r with
  | Int n => n
  | _ => 0%Z
  end.

(** The sum of the "Quantidade de Parceiros" column of a summary. *)
Definition soma_qtd (g : DataFrame) : Z :=
  foldr Z.add 0%Z (qtd_of <$> rows g).

(** The number of rows whose channel and partner name are both present. *)
Definition com_canal_e_nome (filtro : DataFrame) : nat :=
  length (List.filter (λ r, negb (isna (cell_at c_canal r))
                            && negb (isna (cell_at c_nome r))) (rows filtro)).

(** The number of rows whose channel is present. *)
Definition com_canal (filtro : DataFrame) : nat :=
  length (List.filter (λ r, negb (isna (cell_at c_canal r))) (rows filtro)).

(** [canal_conv.iloc[0]] *)
Definition iloc0 (df : DataFrame) : result Row :=
  match rows df with
  | r :: _ => Ok r
  | [] => Raise IndexError
  end.

(** What section 2 leaves behind: the summary and the best channel, or
    nothing when the channel column does not exist. *)
Record Canais : Type := mkCanais {
  canal_conv : DataFrame;
  melhor_canal : Row
}.

(** Lines 118-144. *)
Definition secao_canais (filtro : DataFrame)
    (out : result (option Canais * list Event)) : Prop :=
  if has_column filtro c_canal then
    ∃ cc, canal_conv_of filtro cc
      ∧ out = (let* conv := cc in
               let* melhor := iloc0 conv in
               Ok (Some (mkCanais conv melhor),
                   [MelhorCanal (cell_at c_canal melhor) (cell_at c_taxa_media melhor)]))
  else out = Ok (None, [CanalIndisponivel]).

End Aggregates.

(** ** Churn risk (lines 156-191) *)

Section Risk.

Definition risco_colunas : list string := [c_status; c_nps; c_dias; c_taxa_conv].

(** [a < b] between a cell and a numeric literal; a missing cell compares
    false, text and timestamps raise. *)
Definition num_lt (a b : Cell) : result bool :=
  match a, b with
  | Int x, Int y => Ok (x <? y)%Z
  | _, _ =>
      match num_value a, num_value b with
      | Some x, Some y => Ok (F64.ltb x y)
      | _, _ => Raise TypeError
      end
  end.

(** [a > b] *)
Definition num_gt (a b : Cell) : result bool := num_lt b a.

(** [filtro[c_status] == "Inativo"]: equality never raises. *)
Definition is_inativo (c : Cell) : bool :=
  bool_decide (c = Str "Inativo").

(** The four clauses of lines 158-161 on one row, joined by [|]. *)
Definition risco_churn_row (r : Row) : result bool :=
  let inativo := is_inativo (cell_at c_status r) in
  let* nps_baixo := num_lt (cell_at c_nps r) (Int 30) in
  let* sem_contato := num_gt (cell_at c_dias r) (Int 60) in
  let* conv_baixa := num_lt (cell_at c_taxa_conv r) (Flt F64.lit_0_2) in
  Ok (inativo || nps_baixo || sem_contato || conv_baixa).

Fixpoint risco_churn_col (rs : list Row) : result (list Cell) :=
  match rs with
  | [] => Ok []
  | r :: rs' =>
      let* b := risco_churn_row r in
      let* bs := risco_churn_col rs' in
      Ok (Bool b :: bs)
  end.

(** Lines 156-162 and 190-191: [None] is the refusal
    ("Dados incompletos para análise de risco de churn"), [Some filtro']
    the frame with its new "Risco Churn" column. *)
Definition classificar (filtro : DataFrame) : result (option DataFrame) :=
  if forallb (has_column filtro) risco_colunas then
    let* flags := risco_churn_col (rows filtro) in
    Ok (Some (setcol filtro c_risco flags))
  else Ok None.

(** Line 164: the flagged rows, most days without contact first. *)
Definition risco_churn_of (filtro' : DataFrame) : result DataFrame → Prop :=
  sort_values_desc (select (λ r, bool_decide (cell_at c_risco r = Bool true)) filtro') c_dias.

(** [df[cols]]: the listed columns, every one of which must exist. *)
Definition project (df : DataFrame) (cols : list string) : result DataFrame :=
  match List.find (λ c, negb (has_column df c)) cols with
  | Some c => Raise (KeyError c)
  | None =>
      Ok (mkDF cols ((λ r : Row, filter (λ kv, kv.1 ∈ cols) r) <$> rows df))
  end.

(** The columns of the table of partners at risk (lines 186-187). *)
Definition tabela_risco_colunas : list string :=
  [c_nome; c_cidade; c_status; c_dias; c_nps; c_taxa_conv].

(** Lines 156-191 as a whole: the frame [filtro] is bound to afterwards
    and what the section shows. The chart is not modelled. *)
Definition secao_risco (filtro : DataFrame)
    (out : result (DataFrame * list Event)) : Prop :=
  match classificar filtro with
  | Raise e => out = Raise e
  | Ok None => out = Ok (filtro, [DadosIncompletos])
  | Ok (Some filtro') =>
      ∃ s, risco_churn_of filtro' s
        ∧ out = (let* risco := s in
                 if is_empty risco then Ok (filtro', [NenhumRisco])
                 else
                   let* tabela := project risco tabela_risco_colunas in
                   Ok (filtro', [TotalEmRisco (length (rows risco))]))
  end.

End Risk.

(** ** Ideal profile (lines 199-216) *)

Section Profile.

(** The quantile kernel: [series.quantile(0.75)] on the non-missing
    values of a series that has some. *)
Variable quantile75 : list F64.t → F64.t.

Record Perfil : Type := mkPerfil {
  p_taxa : F64.t;              (* quantile shown under "Taxa de Conversão" *)
  p_nps : option F64.t;        (* None is "N/D" *)
  p_frequencia : string;
  p_canal : Cell               (* "Canal de Aquisição" *)
}.

Definition quantile_col (df : DataFrame) (col : string) : result F64.t :=
  let* cs := getcol df col in
  let* xs := num_values cs in
  Ok (match xs with [] => F64.NaN | _ :: _ => quantile75 xs end).

(** Lines 199-216. [melhor] is the variable [melhor_canal] as section 2
    left it ([None]: never assigned); it is read, not computed again. *)
Definition perfil_ideal (filtro : DataFrame) (melhor : option Row)
    : result (option Perfil * list Event) :=
  if is_empty filtro then Ok (None, [PerfilInsuficiente])
  else
    let* taxa75 := quantile_col filtro c_taxa_conv in
    let* nps75 :=
      (if has_column filtro c_nps
       then let* q := quantile_col filtro c_nps in Ok (Some q)
       else Ok None) in
    let* canal :=
      (if has_column filtro c_canal
       then match melhor with
            | Some m => Ok (cell_at c_canal m)
            | None => Raise NameError
            end
       else Ok (Str "N/D")) in
    Ok (Some (mkPerfil taxa75 nps75 "Ativos nos últimos 30 dias" canal), []).

(** Sections 2 to 4 in the order of the script: the channel summary, the
    risk section (which may add a column to [filtro]) and the profile,
    which reads [melhor_canal] as section 2 left it. *)
Definition secoes_2_a_4 (agg_mean : list F64.t → F64.t) (filtro : DataFrame)
    (out : result (option Canais * option Perfil)) : Prop :=
  ∃ r2, secao_canais agg_mean filtro r2
    ∧ match r2 with
      | Raise e => out = Raise e
      | Ok (canais, _) =>
          ∃ r3, secao_risco filtro r3
            ∧ match r3 with
              | Raise e => out = Raise e
              | Ok (filtro', _) =>
                  out = (let* p := perfil_ideal filtro' (melhor_canal <$> canais) in
                         Ok (canais, fst p))
              end
      end.

End Profile.

(** Two channels, the second one with the better mean. *)
Definition painel_canais : DataFrame :=
  mkDF colunas_painel
       [linha (Str "Imob A") (Str "Florianópolis") (Str "Evento") (Str "Ativo")
              80 (Int 3) (razao 1 4);
        linha (Str "Imob B") (Str "Bombinhas") (Str "Indicação") (Str "Ativo")
              70 (Int 10) (razao 1 2);
        linha (Str "Imob C") (Str "Bombinhas") (Str "Indicação") (Str "Inativo")
              20 (Int 90) (razao 3 4)].

(** The two groups of [painel_canais]: channel, mean rate, partners. *)
Definition grupo_evento : Row :=
  <[c_canal := Str "Evento"]>
    (<[c_taxa_media := Flt (razao 1 4)]> (<[c_qtd := Int 1]> ∅)).

Definition grupo_indicacao : Row :=
  <[c_canal := Str "Indicação"]>
    (<[c_taxa_media := Flt (razao 5 8)]> (<[c_qtd := Int 2]> ∅)).

(** The summary of [painel_canais] before it is ordered: the groups in
    key order. *)
Definition resumo_canais : DataFrame :=
  mkDF [c_canal; c_taxa_media; c_qtd] [grupo_evento; grupo_indicacao].

(** [painel_canais] with its flags, and the profile the sample kernels
    give for it. *)
Definition painel_canais_risco : DataFrame :=
  setcol painel_canais c_risco [Bool false; Bool false; Bool true].

Definition perfil_amostra : Perfil :=
  mkPerfil (razao 3 4) (Some (F64.of_Z 80)) "Ativos nos últimos 30 dias"
           (Str "Indicação").

(** Two partners in one channel, the second one without a name. *)
Definition painel_sem_nome : DataFrame :=
  mkDF colunas_painel
       [linha (Str "Imob A") (Str "Florianópolis") (Str "Evento") (Str "Ativo")
              80 (Int 3) (razao 1 4);
        linha NaN (Str "Bombinhas") (Str "Evento") (Str "Ativo")
              70 (Int 10) (razao 1 2)].

(** ** The objects behind the names [df] and [filtro]

    [df] and [filtro] are names bound to DataFrame objects. The heap holds
    the objects; [df.copy()] and [filtro[mask]] make new objects, the
    assignment of a column writes into the object [filtro] is bound to. *)

Record Mem : Type := mkMem {
  heap : list DataFrame;
  df_ref : nat;
  filtro_ref : nat
}.

Definition deref (h : list DataFrame) (l : nat) : DataFrame :=
  default empty_frame (h !! l).

Definition filtro_of (m : Mem) : DataFrame := deref (heap m) (filtro_ref m).

(** Line 70: [filtro = df.copy()]. *)
Definition copiar (h : list DataFrame) (l : nat) : Mem :=
  mkMem (h ++ [deref h l]) l (length h).

(** Lines 72-73: [filtro = filtro[filtro[col].isin(valores)]] binds [filtro]
    to a new object. *)
Definition filtrar_step (m : Mem) (f : string * list Cell) : Mem :=
  match snd f with
  | [] => m
  | _ :: _ =>
      if has_column (filtro_of m) (fst f)
      then mkMem (heap m ++ [select (λ r, isin (snd f) (cell_at (fst f) r)) (filtro_of m)])
                 (df_ref m) (length (heap m))
      else m
  end.

(** Lines 70-73. *)
Definition filtrar (h : list DataFrame) (l : nat) (filtros : FilterSpec) : Mem :=
  fold_left filtrar_step filtros (copiar h l).

(** Lines 156-162 on the heap: [filtro["Risco Churn"] = ...] updates the
    object in place; the boolean tells whether the section refused. *)
Definition classificar_mem (m : Mem) : result (Mem * bool) :=
  let* o := classificar (filtro_of m) in
  Ok (match o with
      | Some f' => (mkMem (<[filtro_ref m := f']> (heap m)) (df_ref m) (filtro_ref m), false)
      | None => (m, true)
      end).

(** ** The sidebar defaults (lines 42-67) *)

(** [series.unique()]: the distinct values, in order of first appearance. *)
Definition unique (cs : list Cell) : list Cell :=
  reverse (remove_dups (reverse cs)).

(** What each multiselect returns when the user touches nothing: its
    [default], every value of the column. *)
Definition selecao_padrao (df : DataFrame) (col : string) : list Cell :=
  unique (cell_at col <$> rows df).

Section Sidebar.

(** Whether the widget finds, among the options, the missing value of its
    default list when the column is not a float64 column: the widget
    compares Python objects, and what that gives for a missing value
    depends on how the column stores it; it is not fixed here. *)
Variable falta_encontrada : list Cell → bool.

(** [st.sidebar.multiselect(label, options=opts, default=opts)] with
    [opts = df[col].unique()]: every default value is looked up among
    the options, and the widget raises when one is not found. A value
    that is not missing is found, it equals itself; the NaN of a float64
    column is not (NaN differs from NaN, and the two lists hold
    different objects). What the widget returns is the selection of the
    user, [selecao]. *)
Definition multiselect (opts selecao : list Cell) : result (list Cell) :=
  if existsb isna opts && (forallb numeric opts || negb (falta_encontrada opts))
  then Raise StreamlitAPIException
  else Ok selecao.

(** Lines 40-67: one entry per filterable column that exists, in the
    order of the script, holding what its multiselect returns; [widget]
    is the selection of the user in each of them. *)
Fixpoint montar (df : DataFrame) (widget : string → list Cell)
    (cols : list string) : result FilterSpec :=
  match cols with
  | [] => Ok []
  | col :: cols' =>
      if has_column df col then
        let* v := multiselect (unique (cell_at col <$> rows df)) (widget col) in
        let* fs := montar df widget cols' in
        Ok ((col, v) :: fs)
      else montar df widget cols'
  end.

Definition montar_filtros (df : DataFrame) (widget : string → list Cell)
    : result FilterSpec :=
  montar df widget filterable.

End Sidebar.

(** A sample kernel: the missing value of an object column is found. *)
Definition falta_amostra (opts : list Cell) : bool := true.

(** A sheet whose column "Cidade" is empty in every row. *)
Definition painel_cidade_vazia : DataFrame :=
  mkDF colunas_painel
       [linha (Str "Imob A") NaN (Str "Indicação") (Str "Ativo")
              80 (Int 3) (razao 1 2);
        linha (Str "Imob B") NaN (Str "Evento") (Str "Ativo")
              70 (Int 10) (razao 1 2)].

(** ** More sample frames *)

(** One partner, without a channel. *)
Definition painel_sem_canal : DataFrame :=
  mkDF colunas_painel
       [linha (Str "Imob A") (Str "Bombinhas") NaN (Str "Ativo")
              80 (Int 3) (razao 1 4)].

(** [painel_canais] read from a sheet without the column "Cidade". *)
Definition painel_sem_cidade : DataFrame :=
  mkDF [c_nome; c_canal; c_status; c_nps; c_dias; c_taxa_conv]
       (delete c_cidade <$> rows painel_canais).

(** A partner whose satisfaction was typed as text. *)
Definition parceiro_nps_texto : Row :=
  <[c_nps := Str "alto"]>
    (linha (Str "Imob D") (Str "Bombinhas") (Str "Evento") (Str "Ativo")
           0 (Int 3) (razao 1 2)).

(** An active partner with a good rate whose satisfaction and days without
    contact are missing. *)
Definition parceiro_sem_medidas : Row :=
  <[c_nps := NaN]>
    (linha (Str "Imob E") (Str "Bombinhas") (Str "Evento") (Str "Ativo")
           0 NaN (razao 1 2)).

(** The flag of a row. *)
Definition em_risco (r : Row) : bool :=
  bool_decide (cell_at c_risco r = Bool true).

(** A cell that a numeric comparison accepts. *)
Definition comparavel (c : Cell) : bool :=
  match num_value c with
  | Some _ => true
  | None => false
  end.

(** The three numeric clauses of the rule on the value of a cell: the
    order of the integers between an int64 cell and an integer literal,
    the IEEE order of float64 otherwise (a boolean counts as 0 or 1); a
    missing cell (NaN) is below and above nothing, and so is a cell that
    is no number. *)
Definition abaixo_de (c : Cell) (k : Z) : bool :=
  match c with
  | Int n => (n <? k)%Z
  | Flt x => F64.ltb x (F64.of_Z k)
  | Bool b => F64.ltb (F64.of_Z (if b then 1 else 0)) (F64.of_Z k)
  | _ => false
  end.

Definition acima_de (c : Cell) (k : Z) : bool :=
  match c with
  | Int n => (k <? n)%Z
  | Flt x => F64.ltb (F64.of_Z k) x
  | Bool b => F64.ltb (F64.of_Z k) (F64.of_Z (if b then 1 else 0))
  | _ => false
  end.

Definition taxa_baixa (c : Cell) : bool :=
  match c with
  | Int n => F64.ltb (F64.of_Z n) F64.lit_0_2
  | Flt x => F64.ltb x F64.lit_0_2
  | Bool b => F64.ltb (F64.of_Z (if b then 1 else 0)) F64.lit_0_2
  | _ => false
  end.

(** Four active partners: one that only has a low satisfaction, one that
    only has gone long without contact, one that only has a low conversion
    rate, and one that meets no criterion. *)
Definition parceiro_nps_baixo : Row :=
  linha (Str "Imob F") (Str "Bombinhas") (Str "Evento") (Str "Ativo")
        20 (Int 1) (razao 9 10).

Definition parceiro_sem_contato : Row :=
  linha (Str "Imob G") (Str "Bombinhas") (Str "Evento") (Str "Ativo")
        90 (Int 61) (razao 9 10).

Definition parceiro_conv_baixa : Row :=
  linha (Str "Imob H") (Str "Bombinhas") (Str "Evento") (Str "Ativo")
        90 (Int 1) (razao 1 10).

Definition parceiro_saudavel : Row :=
  linha (Str "Imob I") (Str "Bombinhas") (Str "Evento") (Str "Ativo")
        30 (Int 60) (razao 1 5).

(** The rule is true of a row (the value written into its flag). *)
Definition sinalizado (r : Row) : bool :=
  match risco_churn_row r with
  | Ok b => b
  | Raise _ => false
  end.

(** The partners of a frame of which the rule is true. *)
Definition total_em_risco (filtro : DataFrame) : nat :=
  length (List.filter sinalizado (rows filtro)).

(** A sheet that also has the status and the satisfaction of each partner;
    the satisfaction of the second one is missing. *)
Definition base_completa : DataFrame :=
  mkDF (colunas_base ++ [c_status; c_nps])
       [<[c_status := Str "Ativo"]>
          (<[c_nps := Int 80]> (parceiro "Imob A" 10 5 6 (Str "2024-01-01")));
        <[c_status := Str "Inativo"]>
          (<[c_nps := NaN]> (parceiro "Imob B" 0 0 0 NaT))].

(** A sheet reduced to the partner name and the conversion rate: no
    channel, no status, no satisfaction. *)
Definition painel_minimo : DataFrame :=
  mkDF [c_nome; c_taxa_conv]
       [<[c_nome := Str "Imob A"]> (<[c_taxa_conv := Flt (razao 1 2)]> ∅)].

(** ** The four metrics (lines 85-88) *)

Section Metrics.

Variable agg_mean : list F64.t → F64.t.

Record Metricas : Type := mkMetricas {
  m_total : nat;           (* "Total de Parceiros": filtro.shape[0] *)
  m_conv : Cell;           (* mean of "Taxa Conversão" *)
  m_qual : Cell;           (* mean of "Taxa Qualificação" *)
  m_nps : option Cell      (* mean of the satisfaction; None is "N/D" *)
}.

Definition metricas (filtro : DataFrame) : result Metricas :=
  let* tc := getcol filtro c_taxa_conv in
  let* mc := mean agg_mean tc in
  let* tq := getcol filtro c_taxa_qual in
  let* mq := mean agg_mean tq in
  let* mn :=
    (if has_column filtro c_nps
     then let* n := getcol filtro c_nps in
          let* m := mean agg_mean n in Ok (Some m)
     else Ok None) in
  Ok (mkMetricas (length (rows filtro)) mc mq mn).

End Metrics.

(** * Properties *)

(** ** The error monad *)

Lemma bind_Ok {A B : Type} (m : result A) (f : A → result B) (b : B) :
  bind m f = Ok b ↔ ∃ a, m = Ok a ∧ f a = Ok b.
Proof.
  destruct m as [a|e]; simpl; split.
  - eauto.
  - intros (a' & [= <-] & H). exact H.
  - discriminate.
  - intros (a' & [=] & _).
Qed.

(** ** Columns of a frame *)

Lemma length_getcol df col cs :
  getcol df col = Ok cs → length cs = length (rows df).
Proof.
  unfold getcol. destruct (has_column df col); [|discriminate].
  intros [= <-]. apply length_fmap.
Qed.


Lemma has_column_setcol df col vals c :
  has_column (setcol df col vals) c = has_column df c || bool_decide (c = col).
Proof.
  unfold has_column at 1; simpl. fold (has_column df col).
  destruct (has_column df col) eqn:Hc; unfold has_column in *.
  - apply bool_decide_eq_true in Hc.
    destruct (bool_decide (c = col)) eqn:E.
    + apply bool_decide_eq_true in E; subst.
      rewrite orb_true_r. by apply bool_decide_eq_true.
    + by rewrite orb_false_r.
  - rewrite <- bool_decide_or. apply bool_decide_ext.
    rewrite elem_of_app, list_elem_of_singleton. done.
Qed.

Lemma rows_setcol_lookup df col vals i r :
  length vals = length (rows df) →
  rows df !! i = Some r →
  ∃ v, vals !! i = Some v ∧ rows (setcol df col vals) !! i = Some (<[col := v]> r).
Proof.
  intros Hlen Hr. simpl.
  destruct (lookup_lt_is_Some_2 vals i) as [v Hv].
  { rewrite Hlen. by eapply lookup_lt_Some. }
  exists v. split; [done|].
  rewrite lookup_zip_with, Hr. simpl. by rewrite Hv.
Qed.

Lemma length_rows_setcol df col vals :
  length vals = length (rows df) →
  length (rows (setcol df col vals)) = length (rows df).
Proof. intros H. simpl. rewrite length_zip_with. lia. Qed.

Lemma cell_at_insert_ne col c v (r : Row) :
  col ≠ c → cell_at c (<[col := v]> r) = cell_at c r.
Proof. intros H. unfold cell_at. by rewrite lookup_insert_ne. Qed.

Lemma cell_at_insert_eq col v (r : Row) :
  cell_at col (<[col := v]> r) = v.
Proof. unfold cell_at. by rewrite lookup_insert_eq. Qed.

Lemma cells_setcol_ne df col vals c :
  col ≠ c → length vals = length (rows df) →
  cell_at c <$> rows (setcol df col vals) = cell_at c <$> rows df.
Proof.
  intros Hne Hlen. apply list_eq. intros i.
  rewrite !list_lookup_fmap.
  destruct (rows df !! i) as [r|] eqn:Hr.
  - destruct (rows_setcol_lookup df col vals i r Hlen Hr) as (v & _ & ->).
    simpl. by rewrite cell_at_insert_ne.
  - rewrite lookup_ge_None_2; [done|].
    rewrite length_rows_setcol by done. by apply lookup_ge_None.
Qed.


(** ** load_data *)

Lemma series_div_lookup s1 : ∀ s2 q,
  series_div s1 s2 = Ok q →
  length q = min (length s1) (length s2)
  ∧ ∀ i a b, s1 !! i = Some a → s2 !! i = Some b →
      ∃ v, truediv a b = Ok v ∧ q !! i = Some v.
Proof.
  induction s1 as [|a s1 IH]; intros [|b s2] q H; simpl in H;
    try (injection H as <-; split; [done|]; intros i ???; by rewrite ?lookup_nil).
  apply bind_Ok in H as (v & Hv & H). apply bind_Ok in H as (qs & Hqs & H).
  injection H as <-.
  destruct (IH _ _ Hqs) as [Hlen Hi]. split; [simpl; lia|].
  intros [|i] x y; simpl.
  - intros [= <-] [= <-]. eauto.
  - apply Hi.
Qed.



Section LoadFacts.

Variable truediv_objeto : list Cell → list Cell → result (nat → F64.t).
Variable parse_datetime : list Cell → Cell → result (option Z).
Variable today : Z.

(** Whatever the dtypes are, a quotient that is computed is a float in
    every position. *)
Lemma truediv_series_lookup s1 s2 q :
  truediv_series truediv_objeto s1 s2 = Ok q →
  length s2 = length s1 →
  length q = length s1
  ∧ ∀ i, (i < length s1)%nat → ∃ x, q !! i = Some (Flt x).
Proof.
  unfold truediv_series. intros H Hlen.
  destruct (coluna_numerica s1 && coluna_numerica s2).
  - destruct (series_div_lookup _ _ _ H) as [Hl Hi].
    split; [lia|]. intros i Hlt.
    destruct (lookup_lt_is_Some_2 s1 i Hlt) as [a Ha].
    destruct (lookup_lt_is_Some_2 s2 i) as [b Hb]; [lia|].
    destruct (Hi i a b Ha Hb) as (v & Hv & Hq).
    unfold truediv in Hv.
    apply bind_Ok in Hv as (x & _ & Hv). apply bind_Ok in Hv as (y & _ & Hv).
    injection Hv as <-. eauto.
  - apply bind_Ok in H as (f & _ & H). injection H as <-.
    split; [by rewrite length_fmap, length_seq|].
    intros i Hlt. exists (f i).
    rewrite list_lookup_fmap, lookup_seq_lt by done. done.
Qed.

(** On two columns of numeric dtype the quotient is the float64 quotient
    of the two cells, position by position. *)
Lemma truediv_series_numeric s1 s2 q :
  truediv_series truediv_objeto s1 s2 = Ok q →
  coluna_numerica s1 = true → coluna_numerica s2 = true →
  ∀ i a b, s1 !! i = Some a → s2 !! i = Some b →
    ∃ x y, as_float a = Ok x ∧ as_float b = Ok y
           ∧ q !! i = Some (Flt (F64.div x y)).
Proof.
  unfold truediv_series. intros H H1 H2. rewrite H1, H2 in H. cbn [andb] in H.
  destruct (series_div_lookup _ _ _ H) as [_ Hi].
  intros i a b Ha Hb. destruct (Hi i a b Ha Hb) as (v & Hv & Hq).
  unfold truediv in Hv.
  apply bind_Ok in Hv as (x & Hx & Hv). apply bind_Ok in Hv as (y & Hy & Hv).
  injection Hv as <-. eauto.
Qed.


Lemma taxa_lookup df num den tc :
  taxa truediv_objeto df num den = Ok tc →
  length tc = length (rows df)
  ∧ ∀ i r, rows df !! i = Some r →
      ∃ x, tc !! i = Some (fillna0 (Flt x)).
Proof.
  unfold taxa. intros H.
  apply bind_Ok in H as (n & Ha & H). apply bind_Ok in H as (d & Ha1 & H).
  apply bind_Ok in H as (q & Ha2 & H). injection H as <-.
  pose proof (length_getcol _ _ _ Ha) as L1.
  pose proof (length_getcol _ _ _ Ha1) as L2.
  destruct (truediv_series_lookup _ _ _ Ha2) as [Hlen Hi]; [lia|].
  split; [rewrite length_fmap; lia|].
  intros i r Hr.
  destruct (Hi i) as [x Hx].
  { rewrite L1. by eapply lookup_lt_Some. }
  exists x. by rewrite list_lookup_fmap, Hx.
Qed.

Lemma taxa_numeric df num den tc :
  taxa truediv_objeto df num den = Ok tc →
  coluna_numerica (cell_at num <$> rows df) = true →
  coluna_numerica (cell_at den <$> rows df) = true →
  ∀ i r, rows df !! i = Some r →
    ∃ x y, as_float (cell_at num r) = Ok x ∧ as_float (cell_at den r) = Ok y
           ∧ tc !! i = Some (fillna0 (Flt (F64.div x y))).
Proof.
  unfold taxa, getcol. intros H H1 H2.
  destruct (has_column df num); [|discriminate].
  destruct (has_column df den); [|discriminate]. cbn [bind] in H.
  apply bind_Ok in H as (q & Hq & H). injection H as <-.
  intros i r Hr.
  destruct (truediv_series_numeric _ _ _ Hq H1 H2 i (cell_at num r) (cell_at den r))
    as (x & y & Hx & Hy & Hi).
  { by rewrite list_lookup_fmap, Hr. }
  { by rewrite list_lookup_fmap, Hr. }
  exists x, y. repeat split; try done.
  by rewrite list_lookup_fmap, Hi.
Qed.


Lemma to_datetime_in_lookup s cs : ∀ ds,
  to_datetime_in parse_datetime s cs = Ok ds →
  length ds = length cs
  ∧ ∀ i c, cs !! i = Some c →
      ∃ d, to_datetime_cell parse_datetime s c = Ok d ∧ ds !! i = Some d.
Proof.
  induction cs as [|c cs IH]; intros ds H; simpl in H.
  - injection H as <-. split; [done|]. intros i c. by rewrite lookup_nil.
  - apply bind_Ok in H as (d & Hd & H). apply bind_Ok in H as (ds' & Hds & H).
    injection H as <-.
    destruct (IH _ Hds) as [Hlen Hi]. split; [simpl; lia|].
    intros [|i] c'; simpl.
    + intros [= <-]. eauto.
    + apply Hi.
Qed.

Lemma to_datetime_lookup s ds :
  to_datetime parse_datetime s = Ok ds →
  length ds = length s
  ∧ ∀ i c, s !! i = Some c →
      ∃ d, to_datetime_cell parse_datetime s c = Ok d ∧ ds !! i = Some d.
Proof. apply to_datetime_in_lookup. Qed.



(** A converted cell is a timestamp or missing. *)
Lemma to_datetime_cell_Ok s c d :
  to_datetime_cell parse_datetime s c = Ok d → (∃ t, d = Time t) ∨ d = NaT.
Proof.
  unfold to_datetime_cell. intros H.
  assert ((if isna c then Ok NaT
           else let* p := parse_datetime s c in
                Ok (match p with Some t => Time t | None => NaT end)) = Ok d
          → (∃ t, d = Time t) ∨ d = NaT) as Hgen.
  { destruct (isna c); [intros [= <-]; by right|].
    intros Hp. apply bind_Ok in Hp as (p & _ & Hp). injection Hp as <-.
    destruct p; eauto. }
  destruct c; try (by apply Hgen). injection H as <-. eauto.
Qed.


Lemma dias_col_lookup dts dias :
  dias_col today dts = Ok dias →
  subtrai_ok today dts = true
  ∧ dias = dias_sem_contato today (existsb isna dts) <$> dts.
Proof.
  unfold dias_col. destruct (subtrai_ok today dts); [|discriminate].
  by intros [= <-].
Qed.

(** What a load that does not raise gives to every row; [datas] is the
    date column of the sheet. *)
Lemma load_body_rows df out :
  load_body truediv_objeto parse_datetime today (Ok df) = Ok out →
  length (rows out) = length (rows df)
  ∧ ∀ i r, rows df !! i = Some r →
      ∃ xc xq d,
        to_datetime_cell parse_datetime (cell_at c_data <$> rows df)
                         (cell_at c_data r) = Ok d
        ∧ match d with Time t => em_alcance today t = true | _ => True end
        ∧ rows out !! i
          = Some (derived_row r (fillna0 (Flt xc)) (fillna0 (Flt xq)) d
                    (dias_sem_contato today
                       (existsb isna (cell_at c_data <$> rows out)) d))
        ∧ (contadores_numericos df = true →
           ∃ x y z,
             as_float (cell_at c_fechadas r) = Ok x
             ∧ as_float (cell_at c_indicacoes r) = Ok y
             ∧ as_float (cell_at c_qualificadas r) = Ok z
             ∧ fillna0 (Flt xc) = fillna0 (Flt (F64.div x y))
             ∧ fillna0 (Flt xq) = fillna0 (Flt (F64.div z y))).
Proof.
  unfold load_body. cbn [bind]. intros H.
  apply bind_Ok in H as (a & Ha & H). apply bind_Ok in H as (a0 & Ha0 & H).
  apply bind_Ok in H as (a1 & Ha1 & H). apply bind_Ok in H as (a2 & Ha2 & H).
  apply bind_Ok in H as (a3 & Ha3 & H). apply bind_Ok in H as (a4 & Ha4 & H).
  injection H as <-.
  destruct (taxa_lookup _ _ _ _ Ha) as [L1 T1].
  set (df1 := setcol df c_taxa_conv a) in *.
  destruct (taxa_lookup _ _ _ _ Ha0) as [L2 T2].
  assert (length (rows df1) = length (rows df)) as R1
    by by apply length_rows_setcol.
  set (df2 := setcol df1 c_taxa_qual a0) in *.
  assert (length (rows df2) = length (rows df)) as R2.
  { unfold df2. rewrite length_rows_setcol; lia. }
  pose proof (length_getcol _ _ _ Ha1) as L3.
  destruct (to_datetime_lookup _ _ Ha2) as [L4 T4].
  set (df3 := setcol df2 c_data a2) in *.
  assert (length (rows df3) = length (rows df)) as R3.
  { unfold df3. rewrite length_rows_setcol; lia. }
  pose proof (length_getcol _ _ _ Ha3) as L5.
  destruct (dias_col_lookup _ _ Ha4) as [Hsub ->].
  assert (length (dias_sem_contato today (existsb isna a3) <$> a3)
          = length (rows df3)) as L6 by (rewrite length_fmap; lia).
  unfold getcol in Ha1. destruct (has_column df2 c_data); [|discriminate].
  injection Ha1 as <-.
  assert (cell_at c_data <$> rows df2 = cell_at c_data <$> rows df) as Hdatas.
  { unfold df2. rewrite cells_setcol_ne by (done || lia).
    unfold df1. by rewrite cells_setcol_ne by (done || lia). }
  assert (a3 = cell_at c_data <$> rows df3) as Ea3.
  { unfold getcol in Ha3. destruct (has_column df3 c_data); [|discriminate].
    by injection Ha3. }
  assert (cell_at c_data
            <$> rows (setcol df3 c_dias
                        (dias_sem_contato today (existsb isna a3) <$> a3))
          = a3) as Hfinal.
  { rewrite cells_setcol_ne by (done || lia). by rewrite Ea3. }
  split. { rewrite length_rows_setcol; lia. }
  intros i r Hr.
  destruct (T1 i r Hr) as (xc & Hc).
  destruct (rows_setcol_lookup df c_taxa_conv a i r L1 Hr) as (v1 & Hv1 & Hr1).
  fold df1 in Hr1. rewrite Hc in Hv1. injection Hv1 as <-.
  destruct (T2 i _ Hr1) as (xq & Hq).
  destruct (rows_setcol_lookup df1 c_taxa_qual a0 i _ L2 Hr1) as (v2 & Hv2 & Hr2).
  fold df2 in Hr2. rewrite Hq in Hv2. injection Hv2 as <-.
  destruct (T4 i (cell_at c_data r)) as (d & Hd0 & Hd').
  { change ((cell_at c_data <$> rows df2) !! i = Some (cell_at c_data r)).
    rewrite list_lookup_fmap, Hr2. simpl.
    by rewrite !cell_at_insert_ne by done. }
  assert (to_datetime_cell parse_datetime (cell_at c_data <$> rows df)
            (cell_at c_data r) = Ok d) as Hd.
  { rewrite <- Hdatas. exact Hd0. }
  destruct (rows_setcol_lookup df2 c_data a2 i _ (eq_trans L4 L3) Hr2)
    as (v3 & Hv3 & Hr3).
  fold df3 in Hr3. rewrite Hd' in Hv3. injection Hv3 as <-.
  destruct (rows_setcol_lookup df3 c_dias _ i _ L6 Hr3) as (v4 & Hv4 & Hr4).
  assert (a3 !! i = Some d) as Ha3i.
  { rewrite Ea3, list_lookup_fmap, Hr3. simpl. by rewrite cell_at_insert_eq. }
  rewrite list_lookup_fmap, Ha3i in Hv4. simpl in Hv4. injection Hv4 as <-.
  exists xc, xq, d. split; [exact Hd|]. split; [|split].
  - destruct d as [| | | |t|]; try done.
    unfold subtrai_ok in Hsub.
    apply (proj1 (forallb_forall _ _) Hsub (Time t)).
    apply list_elem_of_In. by eapply list_elem_of_lookup_2.
  - rewrite Hfinal. exact Hr4.
  - intros Hnum. unfold contadores_numericos in Hnum. cbn [forallb] in Hnum.
    apply andb_true_iff in Hnum as [Nf Hnum].
    apply andb_true_iff in Hnum as [Ni Hnum].
    apply andb_true_iff in Hnum as [Nq _].
    destruct (taxa_numeric _ _ _ _ Ha Nf Ni i r Hr) as (x & y & Hx & Hy & Hc').
    destruct (taxa_numeric _ _ _ _ Ha0) with (i := i)
      (r := <[c_taxa_conv := fillna0 (Flt xc)]> r) as (z & y' & Hz & Hy' & Hq').
    { unfold df1. by rewrite cells_setcol_ne by (done || lia). }
    { unfold df1. by rewrite cells_setcol_ne by (done || lia). }
    { exact Hr1. }
    rewrite cell_at_insert_ne in Hz by done.
    rewrite cell_at_insert_ne in Hy' by done.
    assert (y' = y) as -> by congruence.
    exists x, y, z. repeat split; try done; congruence.
Qed.

Lemma elem_of_rows_setcol df col vals r' :
  r' ∈ rows (setcol df col vals) →
  ∃ r v, r ∈ rows df ∧ r' = <[col := v]> r.
Proof.
  simpl. intros (r & v & -> & Hr & _)%elem_of_zip_with. eauto.
Qed.



End LoadFacts.

Lemma forallb_elem_of {A : Type} (f : A → bool) (l : list A) x :
  forallb f l = true → x ∈ l → f x = true.
Proof.
  intros H Hx. apply list_elem_of_In in Hx.
  by apply (proj1 (forallb_forall f l) H).
Qed.

(** The literal 0.2 is the quotient 1/5 in float64. *)
Example lit_0_2_is_one_fifth : F64.lit_0_2 = razao 1 5.
Proof. vm_compute. reflexivity. Qed.

(** Zero closed referrals over zero received ones: the quotient is NaN and
    [fillna(0)] turns it into 0.0. *)
Lemma taxa_zero_por_zero :
  fillna0 (Flt (F64.div (F64.of_Z 0) (F64.of_Z 0))) = Flt F64.zero.
Proof. vm_compute. reflexivity. Qed.

(** For a row whose three counters are the integer 0, a load that goes
    through stores 0.0 in both rate columns. *)
Lemma load_data_zero_counters div parse today df out i r :
  load_body div parse today (Ok df) = Ok out →
  contadores_numericos df = true →
  rows df !! i = Some r →
  cell_at c_indicacoes r = Int 0 →
  cell_at c_fechadas r = Int 0 →
  cell_at c_qualificadas r = Int 0 →
  ∃ r', rows out !! i = Some r'
        ∧ cell_at c_taxa_conv r' = Flt F64.zero
        ∧ cell_at c_taxa_qual r' = Flt F64.zero.
Proof.
  intros Hload Hnum Hr Hi Hf Hq.
  destruct (load_body_rows _ _ _ _ _ Hload) as [_ Hrows].
  destruct (Hrows i r Hr) as (xc & xq & d & _ & _ & Hout & Hrates).
  destruct (Hrates Hnum) as (x & y & z & Hx & Hy & Hz & Ec & Eq).
  rewrite Hf in Hx. rewrite Hi in Hy. rewrite Hq in Hz.
  injection Hx as <-. injection Hy as <-. injection Hz as <-.
  eexists. split; [exact Hout|]. unfold derived_row.
  split.
  - rewrite !cell_at_insert_ne by done. rewrite cell_at_insert_eq. by rewrite Ec.
  - rewrite !cell_at_insert_ne by done. rewrite cell_at_insert_eq. by rewrite Eq.
Qed.

(** C1 (code defect). A partner with no referral received but five closed
    and three qualified ones: both quotients are +inf, which [fillna(0)]
    leaves alone, so the loaded row carries an infinite conversion rate and
    an infinite qualification rate instead of 0.0. *)
Theorem load_data_zero_denominator_infinite div parse today :
  (λ r, (cell_at c_taxa_conv r, cell_at c_taxa_qual r))
    <$> rows (load_data div parse today (Ok base_sem_indicacoes)).1
  = [(Flt F64.pinf, Flt F64.pinf)].
Proof. vm_compute. reflexivity. Qed.


(** Two dates that are both dates, in two spellings: the parser reads the
    column in the format of its first date, the second record raises and
    the whole load is lost. *)
Example load_data_mixed_formats_abort :
  load_data div_amostra parse_amostra hoje_amostra (Ok base_data_mista)
  = (empty_frame, [ErroCarregar ValueError]).
Proof. vm_compute. reflexivity. Qed.



(** Received 10, 0, 5 and closed 5, 0, 1 give the rates 0.5, 0.0, 0.2. *)
Example taxas_base_data_vazia :
  cell_at c_taxa_conv
    <$> rows (load_data div_amostra parse_amostra hoje_amostra
                (Ok base_data_vazia)).1
  = [Flt (razao 1 2); Flt F64.zero; Flt F64.lit_0_2].
Proof. vm_compute. reflexivity. Qed.

(** The days without contact of the three sample partners, the second one
    having no date: the column is float64, two days, missing, two days. *)
Example dias_base_data_vazia :
  cell_at c_dias
    <$> rows (load_data div_amostra parse_amostra hoje_amostra
                (Ok base_data_vazia)).1
  = [Flt (F64.of_Z 2); NaN; Flt (F64.of_Z 2)].
Proof. vm_compute. reflexivity. Qed.

(** With a date for every partner the column is int64. *)
Example dias_base_datas :
  cell_at c_dias
    <$> rows (load_data div_amostra parse_amostra hoje_amostra (Ok base_datas)).1
  = [Int 2; Int 2; Int 2].
Proof. vm_compute. reflexivity. Qed.

(** Counters typed as booleans are numbers: [True / 2] is 0.5 and
    [False / 2] is 0.0. *)
Example taxas_base_booleana :
  (λ r, (cell_at c_taxa_conv r, cell_at c_taxa_qual r))
    <$> rows (load_data div_amostra parse_amostra hoje_amostra
                (Ok base_booleana)).1
  = [(Flt (razao 1 2), Flt F64.zero)].
Proof. vm_compute. reflexivity. Qed.

(** ** Filters *)

Lemma filter_filter {A : Type} (p q : A → bool) (l : list A) :
  List.filter p (List.filter q l) = List.filter (λ x, q x && p x) l.
Proof.
  induction l as [|x l IH]; simpl; [done|].
  destruct (q x) eqn:Hq; simpl; [destruct (p x)|]; by rewrite IH.
Qed.

Lemma filter_ext_bool {A : Type} (p q : A → bool) (l : list A) :
  (∀ x, p x = q x) → List.filter p l = List.filter q l.
Proof. intros H. induction l as [|x l IH]; simpl; [done|]. by rewrite H, IH. Qed.

Lemma filter_true {A : Type} (l : list A) : List.filter (λ _, true) l = l.
Proof. induction l as [|x l IH]; simpl; [done|]. by rewrite IH. Qed.

Lemma select_select p q df :
  select p (select q df) = select (λ r, q r && p r) df.
Proof. unfold select. simpl. by rewrite filter_filter. Qed.

Lemma select_true df : select (λ _, true) df = df.
Proof. destruct df. unfold select. simpl. by rewrite filter_true. Qed.

(** One step of the loop keeps the rows that pass its entry. *)
Lemma filtro_step_select filtro f :
  filtro_step filtro f = select (passa (columns filtro) [f]) filtro.
Proof.
  unfold filtro_step, passa, has_column. simpl.
  destruct (snd f) as [|v vs].
  - by rewrite select_true.
  - destruct (bool_decide (fst f ∈ columns filtro)).
    + unfold select. f_equal. apply filter_ext_bool. intros r.
      by rewrite andb_true_r.
    + by rewrite select_true.
Qed.

(** The loop as a whole: the columns stay, the rows that pass every
    applied entry stay, in their order. *)
Lemma aplicar_filtros_select filtros : ∀ df,
  aplicar_filtros df filtros = select (passa (columns df) filtros) df.
Proof.
  unfold aplicar_filtros.
  induction filtros as [|f fs IH]; intros df; simpl.
  - by rewrite select_true.
  - rewrite IH, filtro_step_select, select_select. simpl.
    unfold select. f_equal. apply filter_ext_bool. intros r.
    by rewrite andb_true_r.
Qed.

Lemma columns_aplicar_filtros df filtros :
  columns (aplicar_filtros df filtros) = columns df.
Proof. by rewrite aplicar_filtros_select. Qed.

Lemma passa_app cols f1 f2 r :
  passa cols (f1 ++ f2) r = passa cols f1 r && passa cols f2 r.
Proof. unfold passa. apply forallb_app. Qed.

(** C8. Filtering twice with the same selections gives what filtering once
    gives. *)
Theorem aplicar_filtros_idempotent df filtros :
  aplicar_filtros (aplicar_filtros df filtros) filtros
  = aplicar_filtros df filtros.
Proof.
  rewrite !aplicar_filtros_select. rewrite select_select. simpl.
  unfold select. f_equal. apply filter_ext_bool. intros r.
  by destruct (passa (columns df) filtros r).
Qed.

(** C3, as the code has it: the column "Cidade" exists and is constrained
    with no accepted value, and both partners are still shown; the result
    is the one of the empty FilterSpec. *)
Lemma empty_selection_shows_all :
  has_column painel_pequeno c_cidade = true
  ∧ length (rows (aplicar_filtros painel_pequeno [(c_cidade, [])])) = 2%nat
  ∧ aplicar_filtros painel_pequeno [(c_cidade, [])]
    = aplicar_filtros painel_pequeno [].
Proof. repeat split. Qed.

(** C3, amended. A column constrained with an empty set of accepted
    values is not filtered: wherever the entry stands in the FilterSpec,
    the result is the one of the FilterSpec without it. *)
Theorem empty_selection_is_no_constraint df col f1 f2 :
  aplicar_filtros df (f1 ++ (col, []) :: f2) = aplicar_filtros df (f1 ++ f2).
Proof.
  rewrite !aplicar_filtros_select. unfold select. f_equal.
  apply filter_ext_bool. intros r.
  rewrite !passa_app. f_equal.
Qed.

(** ** Churn risk *)

Lemma risco_churn_col_lookup rs : ∀ flags,
  risco_churn_col rs = Ok flags →
  length flags = length rs
  ∧ ∀ i r, rs !! i = Some r →
      ∃ b, risco_churn_row r = Ok b ∧ flags !! i = Some (Bool b).
Proof.
  induction rs as [|r rs IH]; intros flags H; simpl in H.
  - injection H as <-. split; [done|]. intros i r. by rewrite lookup_nil.
  - apply bind_Ok in H as (b & Hb & H). apply bind_Ok in H as (bs & Hbs & H).
    injection H as <-. destruct (IH _ Hbs) as [Hlen Hi].
    split; [simpl; lia|]. intros [|i] r'; simpl.
    + intros [= <-]. eauto.
    + apply Hi.
Qed.

Lemma num_lt_abaixo c k :
  comparavel c = true → num_lt c (Int k) = Ok (abaixo_de c k).
Proof. by destruct c. Qed.

Lemma num_gt_acima c k :
  comparavel c = true → num_gt c (Int k) = Ok (acima_de c k).
Proof. by destruct c. Qed.

Lemma num_lt_taxa_baixa c :
  comparavel c = true → num_lt c (Flt F64.lit_0_2) = Ok (taxa_baixa c).
Proof. by destruct c. Qed.

Lemma num_lt_Ok_comparavel a b x : num_lt a b = Ok x → comparavel a = true.
Proof.
  unfold num_lt, comparavel.
  destruct a, b; simpl; try done;
    repeat match goal with
           | |- context [match ?o with Some _ => _ | None => _ end] => destruct o
           end; done.
Qed.

(** C4. On a row on which the rule evaluates (its satisfaction, days
    without contact and conversion rate are numbers or missing; on any
    other row it raises and gives no flag), the flag is true exactly when
    at least one of the four criteria holds of the values of the row:
    status equal to "Inativo", satisfaction below 30, more than 60 days
    without contact, conversion rate below 0.2. Any one of them is
    enough. *)
Theorem risco_churn_row_or r :
  (comparavel (cell_at c_nps r) = true
   ∧ comparavel (cell_at c_dias r) = true
   ∧ comparavel (cell_at c_taxa_conv r) = true
   ↔ ∃ b, risco_churn_row r = Ok b)
  ∧ ∀ b, risco_churn_row r = Ok b →
      (b = true ↔ cell_at c_status r = Str "Inativo"
                  ∨ abaixo_de (cell_at c_nps r) 30 = true
                  ∨ acima_de (cell_at c_dias r) 60 = true
                  ∨ taxa_baixa (cell_at c_taxa_conv r) = true).
Proof.
  assert (∀ b, risco_churn_row r = Ok b →
            comparavel (cell_at c_nps r) = true
            ∧ comparavel (cell_at c_dias r) = true
            ∧ comparavel (cell_at c_taxa_conv r) = true) as Hcomp.
  { intros b H. unfold risco_churn_row in H.
    apply bind_Ok in H as (x & Hx & H). apply bind_Ok in H as (y & Hy & H).
    apply bind_Ok in H as (z & Hz & _).
    split; [by eapply num_lt_Ok_comparavel|].
    split; [|by eapply num_lt_Ok_comparavel].
    unfold num_gt, num_lt, comparavel in *.
    destruct (cell_at c_dias r); simpl in *; done. }
  split.
  - split; [|intros [b Hb]; by eapply Hcomp].
    intros (Hn & Hd & Ht). unfold risco_churn_row.
    rewrite (num_lt_abaixo _ _ Hn), (num_gt_acima _ _ Hd), (num_lt_taxa_baixa _ Ht).
    cbn [bind]. eauto.
  - intros b Hb. destruct (Hcomp b Hb) as (Hn & Hd & Ht).
    unfold risco_churn_row in Hb.
    rewrite (num_lt_abaixo _ _ Hn), (num_gt_acima _ _ Hd), (num_lt_taxa_baixa _ Ht)
      in Hb.
    cbn [bind] in Hb. injection Hb as <-.
    unfold is_inativo. rewrite !orb_true_iff, bool_decide_eq_true. tauto.
Qed.

Lemma risco_churn_row_or_witness :
  risco_churn_row parceiro_inativo = Ok true
  ∧ risco_churn_row parceiro_nps_baixo = Ok true
  ∧ risco_churn_row parceiro_sem_contato = Ok true
  ∧ risco_churn_row parceiro_conv_baixa = Ok true
  ∧ risco_churn_row parceiro_saudavel = Ok false.
Proof.
  assert (∀ r b,
            comparavel (cell_at c_nps r) = true
            ∧ comparavel (cell_at c_dias r) = true
            ∧ comparavel (cell_at c_taxa_conv r) = true →
            (is_inativo (cell_at c_status r)
             || abaixo_de (cell_at c_nps r) 30
             || acima_de (cell_at c_dias r) 60
             || taxa_baixa (cell_at c_taxa_conv r)) = b →
            risco_churn_row r = Ok b) as Hrow.
  { intros r b Hc Hb. destruct (risco_churn_row_or r) as [[Hex _] Hiff].
    destruct (Hex Hc) as [b' Hb']. rewrite Hb'. f_equal.
    specialize (Hiff b' Hb'). apply eq_true_iff_eq. rewrite Hiff, <- Hb.
    unfold is_inativo. rewrite !orb_true_iff, bool_decide_eq_true. tauto. }
  repeat split; apply Hrow; (repeat split); vm_compute; reflexivity.
Defined.

(** The flag column of a frame with the example record holds [True]. *)
Example classificar_parceiro_inativo :
  classificar (mkDF colunas_painel [parceiro_inativo])
  = Ok (Some (mkDF (colunas_painel ++ [c_risco])
                   [<[c_risco := Bool true]> parceiro_inativo])).
Proof. vm_compute. reflexivity. Qed.

(** C5. When one of the four columns of the rule is absent from the frame,
    the section refuses: its only outcome is the message "Dados
    incompletos", with the frame as it was (no flag column, whatever the
    rows are). When the four columns are present it does not refuse. *)
Theorem secao_risco_schema filtro :
  (∀ col, col ∈ risco_colunas → has_column filtro col = false →
     classificar filtro = Ok None
     ∧ ∀ out, secao_risco filtro out ↔ out = Ok (filtro, [DadosIncompletos]))
  ∧ (forallb (has_column filtro) risco_colunas = true →
     classificar filtro ≠ Ok None
     ∧ ∀ f' evs, secao_risco filtro (Ok (f', evs)) → DadosIncompletos ∉ evs).
Proof.
  split.
  - intros col Hcol Hno.
    assert (classificar filtro = Ok None) as Hc.
    { unfold classificar.
      destruct (forallb (has_column filtro) risco_colunas) eqn:Hall; [|done].
      rewrite (forallb_elem_of _ _ _ Hall Hcol) in Hno. discriminate. }
    split; [done|]. intros out. unfold secao_risco. by rewrite Hc.
  - intros Hall.
    assert (classificar filtro ≠ Ok None) as Hc.
    { unfold classificar. rewrite Hall.
      destruct (risco_churn_col (rows filtro)); simpl; discriminate. }
    split; [done|]. intros f' evs. unfold secao_risco.
    destruct (classificar filtro) as [[f''|]|e]; [|done|discriminate].
    intros (s & _ & Hout). destruct s as [risco|e]; [|discriminate].
    simpl in Hout. destruct (is_empty risco).
    + injection Hout as -> ->. by intros [=]%list_elem_of_singleton.
    + destruct (project risco tabela_risco_colunas); [|discriminate].
      simpl in Hout. injection Hout as -> ->.
      by intros [=]%list_elem_of_singleton.
Qed.

(** A frame without the satisfaction column, with no row at all. *)
Lemma secao_risco_schema_witness :
  (classificar (mkDF [c_status; c_dias; c_taxa_conv] []) = Ok None
   ∧ secao_risco (mkDF [c_status; c_dias; c_taxa_conv] [])
       (Ok (mkDF [c_status; c_dias; c_taxa_conv] [], [DadosIncompletos])))
  ∧ classificar painel_pequeno ≠ Ok None.
Proof.
  split.
  - destruct (secao_risco_schema (mkDF [c_status; c_dias; c_taxa_conv] []))
      as [A _].
    destruct (A c_nps) as [Hc Hs].
    + apply list_elem_of_In. right. left. reflexivity.
    + vm_compute. reflexivity.
    + split; [exact Hc|]. by apply Hs.
  - destruct (secao_risco_schema painel_pequeno) as [_ B].
    apply B. vm_compute. reflexivity.
Defined.

(** ** The objects [df] and [filtro] *)

Lemma deref_app_l h h' l :
  (l < length h)%nat → deref (h ++ h') l = deref h l.
Proof. intros H. unfold deref. by rewrite lookup_app_l. Qed.

Lemma deref_app_new h d : deref (h ++ [d]) (length h) = d.
Proof.
  unfold deref. rewrite lookup_app_r by lia.
  by rewrite Nat.sub_diag.
Qed.

(** One step of the loop on the heap: the objects that existed are still
    there, untouched, and [filtro] is bound to a newer object that holds
    what the step computes. *)
Lemma filtrar_step_inv h m f :
  h `prefix_of` heap m →
  (length h ≤ filtro_ref m < length (heap m))%nat →
  h `prefix_of` heap (filtrar_step m f)
  ∧ (length h ≤ filtro_ref (filtrar_step m f) < length (heap (filtrar_step m f)))%nat
  ∧ df_ref (filtrar_step m f) = df_ref m
  ∧ filtro_of (filtrar_step m f) = filtro_step (filtro_of m) f.
Proof.
  intros Hpre Href. unfold filtrar_step, filtro_step.
  destruct (snd f) as [|v vs]; [done|].
  destruct (has_column (filtro_of m) (fst f)); [|done].
  simpl. repeat split.
  - by apply prefix_app_r.
  - apply prefix_length in Hpre. lia.
  - rewrite length_app. simpl. lia.
  - unfold filtro_of at 1. simpl. by rewrite deref_app_new.
Qed.

Lemma filtrar_fold_inv h filtros : ∀ m,
  h `prefix_of` heap m →
  (length h ≤ filtro_ref m < length (heap m))%nat →
  h `prefix_of` heap (fold_left filtrar_step filtros m)
  ∧ (length h ≤ filtro_ref (fold_left filtrar_step filtros m)
     < length (heap (fold_left filtrar_step filtros m)))%nat
  ∧ df_ref (fold_left filtrar_step filtros m) = df_ref m
  ∧ filtro_of (fold_left filtrar_step filtros m)
    = fold_left filtro_step filtros (filtro_of m).
Proof.
  induction filtros as [|f fs IH]; intros m Hpre Href; simpl; [done|].
  destruct (filtrar_step_inv h m f Hpre Href) as (P & R & D & F).
  destruct (IH _ P R) as (P' & R' & D' & F').
  split; [done|]. split; [done|]. split; [congruence|].
  by rewrite F', F.
Qed.

(** Lines 70-73 on the heap compute [aplicar_filtros] into a new object. *)
Lemma filtrar_spec h l D filtros :
  h !! l = Some D →
  h `prefix_of` heap (filtrar h l filtros)
  ∧ (length h ≤ filtro_ref (filtrar h l filtros)
     < length (heap (filtrar h l filtros)))%nat
  ∧ df_ref (filtrar h l filtros) = l
  ∧ filtro_of (filtrar h l filtros) = aplicar_filtros D filtros.
Proof.
  intros Hl. unfold filtrar.
  destruct (filtrar_fold_inv h filtros (copiar h l)) as (P & R & Dr & F).
  - simpl. by apply prefix_app_r.
  - simpl. rewrite length_app. simpl. lia.
  - split; [done|]. split; [done|]. split; [done|].
    rewrite F. unfold filtro_of, copiar. simpl.
    rewrite deref_app_new. unfold deref. by rewrite Hl.
Qed.

(** C9. Start from any heap in which [df] is bound to the loaded frame [D];
    run lines 70-73 and then the risk section. Afterwards the object [df]
    is bound to is [D] itself, so it has no new column; every object that
    existed is untouched; and the frame behind [filtro] has the rows of
    the filtered view, in order, each with every field other than
    "Risco Churn" as it was, and the same columns apart from
    "Risco Churn". *)
Theorem classificar_frame h l D filtros m' recusou :
  h !! l = Some D →
  classificar_mem (filtrar h l filtros) = Ok (m', recusou) →
  heap m' !! df_ref m' = Some D
  ∧ h `prefix_of` heap m'
  ∧ length (rows (filtro_of m')) = length (rows (aplicar_filtros D filtros))
  ∧ (∀ i r, rows (aplicar_filtros D filtros) !! i = Some r →
       ∃ r', rows (filtro_of m') !! i = Some r'
             ∧ ∀ col, col ≠ c_risco → r' !! col = r !! col)
  ∧ (∀ col, col ≠ c_risco →
       has_column (filtro_of m') col = has_column (aplicar_filtros D filtros) col).
Proof.
  intros Hl Hrun.
  destruct (filtrar_spec h l D filtros Hl) as (P & R & Dr & F).
  set (m := filtrar h l filtros) in *.
  pose proof (lookup_lt_Some _ _ _ Hl) as Hlt.
  unfold classificar_mem in Hrun.
  apply bind_Ok in Hrun as (o & Ho & Hrun). injection Hrun as Hm.
  rewrite F in Ho. unfold classificar in Ho.
  destruct (forallb _ risco_colunas); cycle 1.
  - injection Ho as <-. injection Hm as <- <-.
    rewrite Dr, F. repeat split; try done.
    + by apply (prefix_lookup_Some h).
    + eauto.
  - apply bind_Ok in Ho as (flags & Hflags & Ho). injection Ho as <-.
    injection Hm as <- <-. simpl.
    destruct (risco_churn_col_lookup _ _ Hflags) as [Hlen _].
    assert (filtro_of
              (mkMem (<[filtro_ref m := setcol (aplicar_filtros D filtros) c_risco flags]>
                        (heap m)) (df_ref m) (filtro_ref m))
            = setcol (aplicar_filtros D filtros) c_risco flags) as Hf.
    { unfold filtro_of, deref. simpl.
      rewrite list_lookup_insert_eq by lia. done. }
    rewrite Hf. repeat split.
    + rewrite Dr. rewrite list_lookup_insert_ne by lia.
      by apply (prefix_lookup_Some h).
    + destruct P as [k Hk]. rewrite Hk.
      rewrite insert_app_r_alt by lia. by apply prefix_app_r.
    + by apply length_rows_setcol.
    + intros i r Hr.
      destruct (rows_setcol_lookup _ c_risco flags i r Hlen Hr) as (v & _ & Hr').
      exists (<[c_risco := v]> r). split; [done|].
      intros col Hne. by rewrite lookup_insert_ne.
    + intros col Hne. rewrite has_column_setcol.
      rewrite bool_decide_eq_false_2 by done. apply orb_false_r.
Qed.

Lemma classificar_frame_witness :
  ∃ m',
    classificar_mem (filtrar [painel_pequeno] 0 [(c_cidade, [Str "Bombinhas"])])
    = Ok (m', false)
    ∧ heap m' !! df_ref m' = Some painel_pequeno
    ∧ length (rows (filtro_of m'))
      = length (rows (aplicar_filtros painel_pequeno [(c_cidade, [Str "Bombinhas"])])).
Proof.
  destruct (classificar_mem (filtrar [painel_pequeno] 0 [(c_cidade, [Str "Bombinhas"])]))
    as [[m' recusou]|e] eqn:Hrun.
  - assert (recusou = false) as ->.
    { apply (f_equal (λ r, match r with Ok (_, b) => b | Raise _ => false end)) in Hrun.
      rewrite <- Hrun. vm_compute. reflexivity. }
    exists m'. split; [reflexivity|].
    destruct (classificar_frame [painel_pequeno] 0 painel_pequeno
                [(c_cidade, [Str "Bombinhas"])] m' false eq_refl Hrun)
      as (Hdf & _ & Hlen & _).
    split; [exact Hdf|exact Hlen].
  - apply (f_equal (λ r, match r with Ok _ => true | Raise _ => false end)) in Hrun.
    vm_compute in Hrun. discriminate.
Defined.

(** In the sample run the filtered view has the new column and the loaded
    frame does not. *)
Example classificar_frame_columns :
  (λ r, (has_column (filtro_of r.1) c_risco,
         has_column (deref (heap r.1) (df_ref r.1)) c_risco,
         length (rows (filtro_of r.1))))
    <$> (match classificar_mem
                 (filtrar [painel_pequeno] 0 [(c_cidade, [Str "Bombinhas"])]) with
         | Ok r => Some r
         | Raise _ => None
         end)
  = Some (true, false, 1%nat).
Proof. vm_compute. reflexivity. Qed.

(** ** Ordering of cells *)

Lemma SFltb_asym x y : SFltb x y = true → SFltb y x = false.
Proof.
  unfold SFltb.
  destruct x as [sx|sx| |sx mx ex], y as [sy|sy| |sy my ey]; simpl;
    try discriminate; try done;
    try (destruct sx; try discriminate; done);
    try (destruct sy; try discriminate; done);
    try (destruct sx, sy; try discriminate; done).
  destruct sx, sy; try discriminate; try done;
    rewrite (Z.compare_antisym ex ey);
    destruct (ex ?= ey)%Z; simpl; try discriminate; try done;
    change (Pos.compare_cont Eq mx my) with (Pos.compare mx my);
    change (Pos.compare_cont Eq my mx) with (Pos.compare my mx);
    rewrite (Pos.compare_antisym mx my);
    destruct (mx ?= my)%positive; simpl; try discriminate; done.
Qed.

Lemma string_ltb_asym s u : String.ltb s u = true → String.ltb u s = false.
Proof.
  unfold String.ltb. rewrite (String.compare_antisym s u).
  by destruct (String.compare u s).
Qed.

Lemma num_ltb_asym a b :
  match num_value a, num_value b with
  | Some x, Some y => F64.ltb x y
  | _, _ => false
  end = true →
  match num_value b, num_value a with
  | Some x, Some y => F64.ltb x y
  | _, _ => false
  end = false.
Proof.
  destruct (num_value a), (num_value b); try done. apply SFltb_asym.
Qed.

Lemma cell_ltb_asym a b : cell_ltb a b = true → cell_ltb b a = false.
Proof.
  destruct a, b; unfold cell_ltb; try apply num_ltb_asym; try done.
  - apply string_ltb_asym.
  - intros H. apply Z.ltb_lt in H. apply Z.ltb_ge. lia.
  - intros H. apply Z.ltb_lt in H. apply Z.ltb_ge. lia.
Qed.

(** ** The indexer of a descending sort *)

Lemma sorted_desc_cons a l :
  sorted_desc (a :: l) = true
  ↔ match l with [] => True | b :: _ => cell_ltb a b = false end
    ∧ sorted_desc l = true.
Proof.
  destruct l as [|b l]; simpl; [tauto|].
  rewrite andb_true_iff, negb_true_iff. tauto.
Qed.

Section Insertion.

Variable keys : list Cell.

Lemma insert_desc_perm i p : insert_desc keys i p ≡ₚ i :: p.
Proof.
  induction p as [|j p IH]; simpl; [done|].
  destruct (cell_ltb _ _); [|done].
  rewrite IH. apply perm_swap.
Qed.

Lemma foldr_insert_desc_perm l : foldr (insert_desc keys) [] l ≡ₚ l.
Proof.
  induction l as [|i l IH]; simpl; [done|].
  by rewrite insert_desc_perm, IH.
Qed.

Lemma insert_desc_sorted i p :
  sorted_desc (key_at keys <$> p) = true →
  sorted_desc (key_at keys <$> insert_desc keys i p) = true.
Proof.
  induction p as [|j p IH]; [done|].
  intros Hs. cbn [insert_desc].
  destruct (cell_ltb (key_at keys i) (key_at keys j)) eqn:Hij.
  - rewrite fmap_cons in Hs |- *. apply sorted_desc_cons in Hs as [Hhd Hs].
    apply sorted_desc_cons. split; [|by apply IH].
    destruct p as [|j' p]; cbn [insert_desc fmap list_fmap].
    + by apply cell_ltb_asym.
    + destruct (cell_ltb (key_at keys i) (key_at keys j')); simpl.
      * exact Hhd.
      * by apply cell_ltb_asym.
  - rewrite !fmap_cons. apply sorted_desc_cons. split; [done|exact Hs].
Qed.

Lemma foldr_insert_desc_sorted l :
  sorted_desc (key_at keys <$> foldr (insert_desc keys) [] l) = true.
Proof.
  induction l as [|i l IH]; simpl; [done|]. by apply insert_desc_sorted.
Qed.

Lemma omap_lookup_key p :
  Forall (λ i, (i < length keys)%nat) p →
  omap (λ i, keys !! i) p = key_at keys <$> p.
Proof.
  induction 1 as [|i p Hi _ IH]; [done|].
  destruct (lookup_lt_is_Some_2 keys i Hi) as [c Hc].
  change (omap (λ i, keys !! i) (i :: p))
    with (match keys !! i with
          | Some y => y :: omap (λ i, keys !! i) p
          | None => omap (λ i, keys !! i) p
          end).
  rewrite Hc, IH, fmap_cons. unfold key_at at 2. by rewrite Hc.
Qed.

Lemma positions_lt q : Forall (λ i, (i < length keys)%nat) (positions q keys).
Proof.
  apply Forall_forall. intros i Hi. unfold positions in Hi.
  apply list_elem_of_In, filter_In in Hi as [Hi _].
  apply in_seq in Hi. lia.
Qed.

Lemma positions_key q i :
  i ∈ positions q keys → ∃ c, keys !! i = Some c ∧ q c = true.
Proof.
  unfold positions. intros Hi.
  apply list_elem_of_In, filter_In in Hi as [_ Hi].
  destruct (keys !! i) as [c|]; [eauto|discriminate].
Qed.

(** The stable indexer is one of the indexers the sort may return. *)
Lemma stable_argsort_desc_ok : nargsort_desc keys (stable_argsort_desc keys).
Proof.
  exists (foldr (insert_desc keys) [] (positions (λ c, negb (isna c)) keys)).
  split; [done|]. split; [apply foldr_insert_desc_perm|].
  rewrite omap_lookup_key; [apply foldr_insert_desc_sorted|].
  rewrite foldr_insert_desc_perm. apply positions_lt.
Qed.

Lemma nargsort_desc_check_ok indexer :
  nargsort_desc_check keys indexer = true → nargsort_desc keys indexer.
Proof.
  unfold nargsort_desc_check.
  intros [[H1 H2]%andb_true_iff H3]%andb_true_iff.
  apply bool_decide_eq_true in H1, H2.
  eexists. split; [|split; [exact H1|exact H3]].
  by rewrite <- H2, take_drop.
Qed.

End Insertion.

(** ** sort_values and head *)

Lemma filter_partition_perm {A : Type} (f g : A → bool) (l : list A) :
  (∀ x, x ∈ l → g x = negb (f x)) →
  List.filter f l ++ List.filter g l ≡ₚ l.
Proof.
  induction l as [|a l IH]; intros H; simpl; [done|].
  rewrite (H a) by left. destruct (f a); simpl.
  - f_equiv. apply IH. intros; apply H; by right.
  - rewrite <- Permutation_middle. f_equiv. apply IH. intros; apply H; by right.
Qed.

Lemma positions_partition keys :
  positions (λ c, negb (isna c)) keys ++ positions isna keys
  ≡ₚ seq 0 (length keys).
Proof.
  unfold positions. apply filter_partition_perm.
  intros i Hi. apply list_elem_of_In, in_seq in Hi.
  destruct (lookup_lt_is_Some_2 keys i) as [c ->]; [lia|].
  by rewrite negb_involutive.
Qed.

Lemma nargsort_desc_perm keys indexer :
  nargsort_desc keys indexer → indexer ≡ₚ seq 0 (length keys).
Proof.
  intros (p & -> & Hp & _). rewrite Hp. apply positions_partition.
Qed.

Lemma omap_lookup_seq_app {A : Type} (l : list A) : ∀ pre,
  omap (λ i, (pre ++ l) !! i) (seq (length pre) (length l)) = l.
Proof.
  induction l as [|x l IH]; intros pre; [done|].
  cbn [length seq].
  change (omap ?f (?i :: ?r))
    with (match f i with Some y => y :: omap f r | None => omap f r end).
  cbv beta. rewrite list_lookup_middle by done. f_equal.
  specialize (IH (pre ++ [x])).
  rewrite length_app, Nat.add_1_r, <- app_assoc in IH. exact IH.
Qed.

Lemma omap_lookup_seq {A : Type} (l : list A) :
  omap (λ i, l !! i) (seq 0 (length l)) = l.
Proof. apply (omap_lookup_seq_app l []). Qed.

Lemma fmap_omap_lookup {A B : Type} (f : A → B) (l : list A) (ix : list nat) :
  f <$> omap (λ i, l !! i) ix = omap (λ i, (f <$> l) !! i) ix.
Proof.
  induction ix as [|i ix IH]; [done|].
  change (omap ?g (i :: ix))
    with (match g i with Some y => y :: omap g ix | None => omap g ix end).
  cbv beta. rewrite list_lookup_fmap.
  destruct (l !! i) as [a|]; cbn [fmap option_fmap option_map];
    [rewrite fmap_cons|]; by rewrite IH.
Qed.

Lemma length_sort_keys df col : length (sort_keys df col) = length (rows df).
Proof. apply length_fmap. Qed.

(** The rows of the sorted frame are the rows of the frame, rearranged. *)
Lemma take_rows_perm df col indexer :
  nargsort_desc (sort_keys df col) indexer →
  rows (take_rows df indexer) ≡ₚ rows df.
Proof.
  intros H%nargsort_desc_perm. simpl. rewrite H, length_sort_keys.
  by rewrite omap_lookup_seq.
Qed.

Lemma sort_keys_take_rows df col indexer :
  sort_keys (take_rows df indexer) col
  = omap (λ i, sort_keys df col !! i) indexer.
Proof. unfold sort_keys. simpl. apply fmap_omap_lookup. Qed.

Lemma forallb_omap_positions keys q p :
  (∀ i, i ∈ p → i ∈ positions q keys) →
  forallb q (omap (λ i, keys !! i) p) = true.
Proof.
  induction p as [|i p IH]; intros H; [done|].
  change (omap ?g (i :: p))
    with (match g i with Some y => y :: omap g p | None => omap g p end).
  cbv beta.
  destruct (positions_key keys q i) as (c & -> & Hc); [apply H; left|].
  simpl. rewrite Hc. apply IH. intros; apply H; by right.
Qed.

(** What every result of [sort_values(col, ascending=False)] looks like:
    the same columns, the same rows in another order, the present keys
    first and never increasing, the missing keys last. *)
Lemma sort_values_desc_Ok df col sorted :
  sort_values_desc df col (Ok sorted) →
  columns sorted = columns df
  ∧ rows sorted ≡ₚ rows df
  ∧ ∃ ks ns,
      sort_keys sorted col = ks ++ ns
      ∧ forallb (λ c, negb (isna c)) ks = true
      ∧ sorted_desc ks = true
      ∧ forallb isna ns = true.
Proof.
  inversion 1 as [indexer Hcol Hsortable Hix| |]; subst.
  split; [done|]. split; [by eapply take_rows_perm|].
  destruct Hix as (p & -> & Hp & Hs).
  exists (omap (λ i, sort_keys df col !! i) p),
         (omap (λ i, sort_keys df col !! i) (positions isna (sort_keys df col))).
  split; [by rewrite sort_keys_take_rows, omap_app|].
  split; [|split; [done|]].
  - apply forallb_omap_positions. intros i Hi. by rewrite <- Hp.
  - by apply forallb_omap_positions.
Qed.

(** A frame with the column, of one kind, can always be sorted. *)
Lemma sort_values_desc_total df col :
  has_column df col = true →
  sortable (sort_keys df col) = true →
  ∃ sorted, sort_values_desc df col (Ok sorted).
Proof.
  intros Hcol Hs. eexists. apply sort_values_ok; [done..|].
  apply stable_argsort_desc_ok.
Qed.

Lemma head_all n df : (length (rows df) ≤ n)%nat → head n df = df.
Proof. intros H. destruct df as [cs rs]. unfold head. simpl in *. by rewrite take_ge. Qed.

(** C6, amended. [df.sort_values(col, ascending=False).head(n)]: for every
    frame, key column and [n], (1) the partner ranking is this operation
    with the conversion rate and [n = 10]; (2) a result exists as soon as
    the column exists and holds cells of one kind; (3) every result is
    the first [n] rows of the frame sorted by the key, descending with the
    missing keys last: it has [min n size] rows, and the whole sorted frame
    when [n] is not smaller than the size. Which of two rows with equal
    keys comes first is not part of the statement. *)
Theorem top_n_sorted_truncated df col n :
  top_parceiros df = top_n df c_taxa_conv 10
  ∧ (has_column df col = true → sortable (sort_keys df col) = true →
     ∃ out, top_n df col n (Ok out))
  ∧ (∀ out, top_n df col n (Ok out) →
       ∃ sorted ks ns,
         sort_values_desc df col (Ok sorted)
         ∧ columns sorted = columns df
         ∧ rows sorted ≡ₚ rows df
         ∧ sort_keys sorted col = ks ++ ns
         ∧ forallb (λ c, negb (isna c)) ks = true
         ∧ sorted_desc ks = true
         ∧ forallb isna ns = true
         ∧ out = head n sorted
         ∧ length (rows out) = Nat.min n (length (rows df))
         ∧ ((length (rows df) ≤ n)%nat → out = sorted)).
Proof.
  split; [done|]. split.
  - intros Hcol Hs. destruct (sort_values_desc_total df col Hcol Hs) as [s Hsort].
    exists (head n s), (Ok s). by split.
  - intros out (s & Hsort & Hout). destruct s as [sorted|e]; [|discriminate].
    simpl in Hout. injection Hout as ->.
    destruct (sort_values_desc_Ok _ _ _ Hsort) as (Hc & Hp & ks & ns & Hk & H1 & H2 & H3).
    exists sorted, ks, ns. repeat split; try done.
    + simpl. rewrite length_take. by rewrite Hp.
    + intros Hn. apply head_all. by rewrite Hp.
Qed.

Lemma top_n_sorted_truncated_witness :
  ∃ out,
    top_parceiros painel_empatado (Ok out)
    ∧ length (rows out) = Nat.min 10 (length (rows painel_empatado)).
Proof.
  destruct (top_n_sorted_truncated painel_empatado c_taxa_conv 10)
    as (Htop & Hex & Hall).
  destruct Hex as [out Hout]; [vm_compute; reflexivity..|].
  exists out. rewrite Htop. split; [exact Hout|].
  destruct (Hall out Hout) as (? & ? & ? & _ & _ & _ & _ & _ & _ & _ & _ & Hlen & _).
  exact Hlen.
Defined.

(** *** Stability *)

Section Stability.

Variable keys : list Cell.

Lemma tie_not_ltb i j :
  tie keys i j →
  cell_ltb (key_at keys j) (key_at keys i) = false.
Proof. unfold key_at. intros (x & y & -> & -> & _ & _ & _ & H). exact H. Qed.

Lemma stable_insert_desc i p :
  Forall (λ j, (i < j)%nat) p →
  stable_indexer keys p →
  stable_indexer keys (insert_desc keys i p).
Proof.
  induction p as [|j p IH]; intros Hlt Hst.
  - simpl. by split.
  - cbn [insert_desc].
    apply Forall_cons in Hlt as [Hij Hlt]. destruct Hst as [Hj Hst].
    destruct (cell_ltb _ _) eqn:Hltb.
    + split; [|by apply IH].
      rewrite insert_desc_perm. apply Forall_cons. split; [|done].
      intros Ht%tie_not_ltb. congruence.
    + split; [|by split].
      apply Forall_cons. split; [done|].
      eapply Forall_impl; [exact Hlt|]. by intros.
Qed.

Lemma stable_foldr_insert_desc f n : ∀ a,
  stable_indexer keys (foldr (insert_desc keys) [] (List.filter f (seq a n)))
  ∧ Forall (λ j, (a ≤ j)%nat) (foldr (insert_desc keys) [] (List.filter f (seq a n))).
Proof.
  induction n as [|n IH]; intros a; [done|].
  cbn [seq List.filter]. destruct (IH (S a)) as [Hst Hle].
  destruct (f a); cbn [foldr].
  - split.
    + apply stable_insert_desc; [|done].
      eapply Forall_impl; [exact Hle|]. intros; simpl in *; lia.
    + rewrite insert_desc_perm. apply Forall_cons. split; [done|].
      eapply Forall_impl; [exact Hle|]. intros; simpl in *; lia.
  - split; [done|].
    eapply Forall_impl; [exact Hle|]. intros; simpl in *; lia.
Qed.

Lemma missing_no_tie t i :
  Forall (λ j, ∃ c, keys !! j = Some c ∧ isna c = true) t →
  Forall (λ j, tie keys i j → (i < j)%nat) t.
Proof.
  intros Ht. eapply Forall_impl; [exact Ht|].
  intros j Hj Htie. cbv beta in Hj.
  destruct Hj as (c & Hc & Hna), Htie as (x & y & _ & Hy & _ & Hny & _).
  congruence.
Qed.

Lemma stable_missing t :
  Forall (λ j, ∃ c, keys !! j = Some c ∧ isna c = true) t →
  stable_indexer keys t.
Proof.
  induction t as [|j t IH]; intros Ht; simpl; [done|].
  apply Forall_cons in Ht as [_ Ht].
  split; [by apply missing_no_tie|by apply IH].
Qed.

Lemma stable_app_missing q t :
  stable_indexer keys q →
  Forall (λ j, ∃ c, keys !! j = Some c ∧ isna c = true) t →
  stable_indexer keys (q ++ t).
Proof.
  intros Hq Ht. induction q as [|i q IH]; simpl.
  - by apply stable_missing.
  - destruct Hq as [Hi Hq]. split; [|by apply IH].
    apply Forall_app. split; [done|by apply missing_no_tie].
Qed.

(** The indexer of the stable kernel keeps tied rows in their order. *)
Lemma stable_argsort_desc_stable :
  stable_indexer keys (stable_argsort_desc keys).
Proof.
  unfold stable_argsort_desc. apply stable_app_missing.
  - apply stable_foldr_insert_desc.
  - apply Forall_forall. intros j Hj. by apply positions_key in Hj.
Qed.

End Stability.

(** On eighteen tied partners the stable kernel leaves the order alone. *)
Example stable_argsort_desc_empatado :
  stable_argsort_desc (sort_keys painel_empatado c_taxa_conv) = seq 0 18.
Proof. vm_compute. reflexivity. Qed.

(** C6, as the code has it. Eight of the twenty-four partners share the
    best conversion rate. A stable sort would rank them in their original
    order, P02, P05, ..., P23, followed by P00 and P03. The default sort
    promises no such order: one of the results it may give for the ranking
    starts with P23, P11, P02, P20: tied records do not keep their
    original relative order. *)
Lemma top_parceiros_not_stable :
  ∃ out,
    top_parceiros painel_empates (Ok out)
    ∧ out = head 10 (take_rows painel_empates indexer_trocado)
    ∧ cell_at c_nome <$> rows out
      = [Str "P23"; Str "P11"; Str "P02"; Str "P20"; Str "P05";
         Str "P17"; Str "P08"; Str "P14"; Str "P21"; Str "P18"]
    ∧ cell_at c_nome
        <$> rows (head 10 (take_rows painel_empates
                             (stable_argsort_desc
                                (sort_keys painel_empates c_taxa_conv))))
      = [Str "P02"; Str "P05"; Str "P08"; Str "P11"; Str "P14";
         Str "P17"; Str "P20"; Str "P23"; Str "P00"; Str "P03"]
    ∧ ¬ stable_indexer (sort_keys painel_empates c_taxa_conv) indexer_trocado.
Proof.
  eexists. split; [|split; [reflexivity|split; [|split]]].
  - exists (Ok (take_rows painel_empates indexer_trocado)). split; [|reflexivity].
    apply sort_values_ok; [vm_compute; reflexivity..|].
    apply nargsort_desc_check_ok. vm_compute. reflexivity.
  - vm_compute. reflexivity.
  - vm_compute. reflexivity.
  - intros [H _].
    apply Forall_cons in H as [H _].
    assert (23 < 11)%nat; [|lia]. apply H.
    exists (Flt (razao 3 4)), (Flt (razao 3 4)).
    repeat split; vm_compute; reflexivity.
Qed.

(** ** Channel summary *)

Lemma insert_key_perm k l : insert_key k l ≡ₚ k :: l.
Proof.
  induction l as [|h l IH]; simpl; [done|].
  destruct (cell_ltb k h); [done|]. rewrite IH. apply perm_swap.
Qed.

Lemma group_keys_perm df col :
  group_keys df col
  ≡ₚ remove_dups (List.filter (λ c, negb (isna c)) (cell_at col <$> rows df)).
Proof.
  unfold group_keys.
  induction (remove_dups _) as [|k l IH]; simpl; [done|].
  by rewrite insert_key_perm, IH.
Qed.

Lemma NoDup_group_keys df col : NoDup (group_keys df col).
Proof. rewrite group_keys_perm. apply NoDup_remove_dups. Qed.

(** The groups are the channel values that occur and are not missing. *)
Lemma elem_of_group_keys df col k :
  k ∈ group_keys df col
  ↔ isna k = false ∧ ∃ r, r ∈ rows df ∧ cell_at col r = k.
Proof.
  rewrite group_keys_perm, elem_of_remove_dups, list_elem_of_In, filter_In.
  rewrite <- list_elem_of_In, list_elem_of_fmap, negb_true_iff.
  split.
  - intros [(r & -> & Hr) Hna]. eauto.
  - intros [Hna (r & Hr & <-)]. eauto.
Qed.

Lemma summary_rows_lookup agg filtro ks : ∀ rs,
  summary_rows agg filtro ks = Ok rs →
  cell_at c_canal <$> rs = ks
  ∧ qtd_of <$> rs
    = (λ k, Z.of_nat (count_notna (cell_at c_nome <$> membros filtro c_canal k))) <$> ks.
Proof.
  induction ks as [|k ks IH]; intros rs H; simpl in H.
  - by injection H as <-.
  - apply bind_Ok in H as (r & Hr & H). apply bind_Ok in H as (rs' & Hrs & H).
    injection H as <-. destruct (IH _ Hrs) as [IH1 IH2].
    unfold summary_row in Hr. apply bind_Ok in Hr as (m & _ & Hr).
    injection Hr as <-. rewrite !fmap_cons, IH1, IH2. split.
    + by rewrite cell_at_insert_eq.
    + unfold qtd_of at 1. rewrite !cell_at_insert_ne by done.
      by rewrite cell_at_insert_eq.
Qed.

(** Counting, group by group, the rows with a name: every row with a
    present channel and a present name is counted in exactly one group. *)
Lemma sum_group_counts (ks : list Cell) (rs : list Row) :
  NoDup ks →
  (∀ k, k ∈ ks → isna k = false) →
  (∀ r, r ∈ rs → isna (cell_at c_canal r) = false → cell_at c_canal r ∈ ks) →
  foldr Z.add 0%Z
    ((λ k, Z.of_nat (count_notna
                       (cell_at c_nome
                          <$> List.filter (λ r, bool_decide (cell_at c_canal r = k)) rs)))
       <$> ks)
  = Z.of_nat (length (List.filter
                        (λ r, negb (isna (cell_at c_canal r))
                              && negb (isna (cell_at c_nome r))) rs)).
Proof.
  intros Hnd Hna Hin. induction rs as [|r rs IH].
  - clear. induction ks as [|k ks IHk]; [done|].
    rewrite fmap_cons. cbn [foldr]. rewrite IHk. reflexivity.
  - specialize (IH ltac:(intros; apply Hin; [by right|done])).
    cbn [List.filter].
    assert (∀ ks',
      NoDup ks' →
      foldr Z.add 0%Z
        ((λ k, Z.of_nat (count_notna
                 (cell_at c_nome
                    <$> (if bool_decide (cell_at c_canal r = k)
                         then r :: List.filter (λ r0, bool_decide (cell_at c_canal r0 = k)) rs
                         else List.filter (λ r0, bool_decide (cell_at c_canal r0 = k)) rs))))
           <$> ks')
      = ((if bool_decide (cell_at c_canal r ∈ ks') && negb (isna (cell_at c_nome r))
          then 1 else 0)
         + foldr Z.add 0%Z
             ((λ k, Z.of_nat (count_notna
                      (cell_at c_nome
                         <$> List.filter (λ r0, bool_decide (cell_at c_canal r0 = k)) rs)))
                <$> ks'))%Z) as Hsum.
    { induction ks' as [|k ks' IHk]; intros Hnd'; [done|].
      apply NoDup_cons in Hnd' as [Hk Hnd'].
      rewrite !fmap_cons. cbn [foldr]. rewrite (IHk Hnd'). clear IHk.
      destruct (bool_decide (cell_at c_canal r = k)) eqn:Hrk.
      - apply bool_decide_eq_true in Hrk. subst k.
        rewrite (bool_decide_eq_true_2 (_ ∈ _ :: _)) by left.
        rewrite (bool_decide_eq_false_2 (_ ∈ ks')) by done.
        rewrite fmap_cons. unfold count_notna. cbn [List.filter andb].
        destruct (negb (isna (cell_at c_nome r))); cbn [length]; lia.
      - apply bool_decide_eq_false in Hrk.
        rewrite (bool_decide_ext (cell_at c_canal r ∈ k :: ks') (cell_at c_canal r ∈ ks')).
        + lia.
        + rewrite elem_of_cons. split; [by intros [?|?]|by right]. }
    rewrite (Hsum ks Hnd), IH.
    destruct (isna (cell_at c_canal r)) eqn:Hc; cbn [negb andb].
    + rewrite bool_decide_eq_false_2; [simpl; lia|].
      intros Hk%Hna. congruence.
    + rewrite bool_decide_eq_true_2 by (apply Hin; [left|done]).
      cbn [andb]. destruct (negb (isna (cell_at c_nome r))); cbn [length]; lia.
Qed.

Lemma soma_qtd_perm g g' : rows g ≡ₚ rows g' → soma_qtd g = soma_qtd g'.
Proof.
  unfold soma_qtd. intros H.
  assert (qtd_of <$> rows g ≡ₚ qtd_of <$> rows g') as Hp by by rewrite H.
  induction Hp as [|x l l' _ IH|x y l|l l' l'' _ IH1 _ IH2]; simpl; lia.
Qed.

Lemma filter_length_le {A : Type} (f g : A → bool) (l : list A) :
  (∀ x, f x = true → g x = true) →
  (length (List.filter f l) ≤ length (List.filter g l))%nat.
Proof.
  intros H. induction l as [|x l IH]; simpl; [done|].
  destruct (f x) eqn:Hf.
  - rewrite (H x Hf). simpl. lia.
  - destruct (g x); simpl; lia.
Qed.

(** C10, amended. Whenever the summary is computed: a record whose channel
    is missing is in no group; the counts of the groups add up to the
    number of records whose channel and partner name are both present (the
    count is the count of the present names of a group), which is at most
    the number of records with a present channel and is that number when
    no name is missing; the ordered summary has the same sum. *)
Theorem group_summary_counts agg filtro g :
  group_summary agg filtro = Ok g →
  (∀ r k, r ∈ rows filtro → isna (cell_at c_canal r) = true →
          k ∈ group_keys filtro c_canal → r ∉ membros filtro c_canal k)
  ∧ soma_qtd g = Z.of_nat (com_canal_e_nome filtro)
  ∧ (com_canal_e_nome filtro ≤ com_canal filtro)%nat
  ∧ ((∀ r, r ∈ rows filtro → isna (cell_at c_nome r) = false) →
     soma_qtd g = Z.of_nat (com_canal filtro))
  ∧ (∀ out, canal_conv_of agg filtro (Ok out) →
            soma_qtd out = Z.of_nat (com_canal_e_nome filtro)).
Proof.
  intros Hg.
  assert (soma_qtd g = Z.of_nat (com_canal_e_nome filtro)) as Hsoma.
  { unfold group_summary in Hg.
    destruct (negb (has_column filtro c_canal)); [discriminate|].
    destruct (negb (has_column filtro c_taxa_conv)); [discriminate|].
    destruct (negb (has_column filtro c_nome)); [discriminate|].
    apply bind_Ok in Hg as (rs & Hrs & Hg). injection Hg as <-.
    destruct (summary_rows_lookup _ _ _ _ Hrs) as [_ Hq].
    unfold soma_qtd. simpl. rewrite Hq. unfold membros, com_canal_e_nome.
    apply sum_group_counts.
    - apply NoDup_group_keys.
    - by intros k [? _]%elem_of_group_keys.
    - intros r Hr Hna. apply elem_of_group_keys. eauto. }
  split; [|split; [done|split; [|split]]].
  - intros r k Hr Hna [Hk _]%elem_of_group_keys Hm.
    unfold membros in Hm. apply list_elem_of_In, filter_In in Hm as [_ Hm].
    apply bool_decide_eq_true in Hm. congruence.
  - unfold com_canal_e_nome, com_canal. apply filter_length_le.
    by intros r [? _]%andb_true_iff.
  - intros Hnomes. rewrite Hsoma. f_equal. unfold com_canal_e_nome, com_canal.
    f_equal. apply list_eq. intros i. f_equal. clear -Hnomes.
    induction (rows filtro) as [|r rs IH]; simpl; [done|].
    rewrite (Hnomes r) by left. rewrite andb_true_r.
    destruct (negb (isna (cell_at c_canal r))); [f_equal|];
      apply IH; intros; apply Hnomes; by right.
  - intros out Hout. unfold canal_conv_of in Hout. rewrite Hg in Hout.
    destruct (sort_values_desc_Ok _ _ _ Hout) as (_ & Hp & _).
    by rewrite (soma_qtd_perm out g Hp).
Qed.

(** The summary of the sample panel, before it is ordered. *)
Example group_summary_painel_canais :
  group_summary media_simples painel_canais = Ok resumo_canais.
Proof. vm_compute. reflexivity. Qed.

Lemma group_summary_counts_witness :
  soma_qtd resumo_canais = Z.of_nat (com_canal_e_nome painel_canais)
  ∧ (com_canal_e_nome painel_canais ≤ com_canal painel_canais)%nat.
Proof.
  destruct (group_summary_counts media_simples painel_canais resumo_canais
              group_summary_painel_canais) as (_ & Hsoma & Hle & _).
  split; [exact Hsoma|exact Hle].
Defined.

(** C10, as the code has it: two partners have a channel, one of them has
    no name; the counts of the groups add up to 1, not to 2. *)
Lemma group_counts_skip_missing_names :
  (let* g := group_summary media_simples painel_sem_nome in Ok (soma_qtd g))
  = Ok 1%Z
  ∧ com_canal painel_sem_nome = 2%nat.
Proof. split; vm_compute; reflexivity. Qed.

(** ** Best channel and profile *)

Lemma secao_risco_columns filtro f' evs col :
  secao_risco filtro (Ok (f', evs)) →
  has_column filtro col = true → has_column f' col = true.
Proof.
  unfold secao_risco, classificar.
  destruct (forallb (has_column filtro) risco_colunas).
  - destruct (risco_churn_col (rows filtro)) as [flags|e]; simpl; [|discriminate].
    intros (s & _ & Hout) Hcol. destruct s as [risco|e]; [|discriminate].
    simpl in Hout.
    assert (f' = setcol filtro c_risco flags) as ->.
    { destruct (is_empty risco); [by injection Hout as -> _|].
      destruct (project risco tabela_risco_colunas); [|discriminate].
      simpl in Hout. by injection Hout as -> _. }
    by rewrite has_column_setcol, Hcol.
  - simpl. by intros [= -> _].
Qed.

Lemma project_Ok df cols :
  forallb (has_column df) cols = true →
  ∃ t, project df cols = Ok t.
Proof.
  intros H. unfold project.
  destruct (List.find _ cols) as [c|] eqn:Hfind; [|eauto].
  apply find_some in Hfind as [Hin Hno].
  rewrite (proj1 (forallb_forall _ _) H c Hin) in Hno. discriminate.
Qed.

(** The risk section runs through when the rule evaluates, the columns of
    its table exist and the days without contact are numbers. *)
Lemma secao_risco_runs filtro f' :
  classificar filtro = Ok (Some f') →
  forallb (has_column f') tabela_risco_colunas = true →
  sortable (sort_keys (select (λ r, bool_decide (cell_at c_risco r = Bool true)) f')
                      c_dias) = true →
  ∃ evs, secao_risco filtro (Ok (f', evs)).
Proof.
  intros Hc Hcols Hs.
  destruct (sort_values_desc_total
              (select (λ r, bool_decide (cell_at c_risco r = Bool true)) f') c_dias)
    as [risco Hrisco]; [|done|].
  { apply (forallb_elem_of _ _ c_dias Hcols), list_elem_of_In.
    do 3 right. by left. }
  destruct (sort_values_desc_Ok _ _ _ Hrisco) as (Hcr & _).
  destruct (project_Ok risco tabela_risco_colunas) as [t Ht].
  { unfold has_column. rewrite Hcr. exact Hcols. }
  exists [if is_empty risco then NenhumRisco else TotalEmRisco (length (rows risco))].
  unfold secao_risco. rewrite Hc. exists (Ok risco). split; [done|].
  cbn [bind]. destruct (is_empty risco); [done|]. by rewrite Ht.
Qed.

(** With the channel column and no row at all, section 2 has one outcome:
    [canal_conv.iloc[0]] raises, and the script stops there. *)
Lemma secao_canais_empty agg_mean filtro out :
  rows filtro = [] →
  has_column filtro c_canal = true →
  has_column filtro c_taxa_conv = true →
  has_column filtro c_nome = true →
  secao_canais agg_mean filtro out → out = Raise IndexError.
Proof.
  intros Hrows Hc Ht Hn. unfold secao_canais. rewrite Hc.
  intros (cc & Hcc & ->). unfold canal_conv_of, group_summary in Hcc.
  rewrite Hc, Ht, Hn in Hcc. unfold group_keys in Hcc. rewrite Hrows in Hcc.
  simpl in Hcc. inversion Hcc as [indexer _ _ Hix| |]; subst; try done.
  assert (indexer = []) as ->; [|done].
  apply nargsort_desc_perm in Hix. simpl in Hix.
  by apply Permutation_nil_r in Hix.
Qed.

(** C7. Whenever sections 2 to 4 run through and show a profile for a
    frame with the channel column: the summary holds the groups of
    [group_summary] ordered by their mean, descending with the missing
    means last; the best channel is its first row; and the channel of the
    profile is the channel of that row, read from the variable that
    section 2 assigned. *)
Theorem melhor_canal_consistent quantile75 agg_mean filtro canais perfil :
  secoes_2_a_4 quantile75 agg_mean filtro (Ok (Some canais, Some perfil)) →
  (∃ g ks ns,
     group_summary agg_mean filtro = Ok g
     ∧ sort_values_desc g c_taxa_media (Ok (canal_conv canais))
     ∧ rows (canal_conv canais) ≡ₚ rows g
     ∧ sort_keys (canal_conv canais) c_taxa_media = ks ++ ns
     ∧ forallb (λ c, negb (isna c)) ks = true
     ∧ sorted_desc ks = true
     ∧ forallb isna ns = true)
  ∧ rows (canal_conv canais) !! 0%nat = Some (melhor_canal canais)
  ∧ p_canal perfil = cell_at c_canal (melhor_canal canais).
Proof.
  intros (r2 & H2 & H). destruct r2 as [[canais' evs2]|e]; [|discriminate].
  destruct H as (r3 & H3 & H). destruct r3 as [[filtro' evs3]|e]; [|discriminate].
  apply eq_sym, bind_Ok in H as (p & Hp & H). injection H as -> Hperfil.
  unfold secao_canais in H2.
  destruct (has_column filtro c_canal) eqn:Hcanal; [|discriminate].
  destruct H2 as (cc & Hcc & H2).
  apply eq_sym, bind_Ok in H2 as (conv & -> & H2).
  apply bind_Ok in H2 as (melhor & Hmelhor & H2). injection H2 as <- _.
  simpl in *.
  split; [|split].
  - unfold canal_conv_of in Hcc.
    destruct (group_summary agg_mean filtro) as [g|e]; [|discriminate].
    destruct (sort_values_desc_Ok _ _ _ Hcc)
      as (_ & Hperm & ks & ns & Hk & Hks & Hsorted & Hns).
    by exists g, ks, ns.
  - unfold iloc0 in Hmelhor. destruct (rows conv) as [|r rs]; [discriminate|].
    by injection Hmelhor as ->.
  - pose proof (secao_risco_columns _ _ _ _ H3 Hcanal) as Hcanal'.
    unfold perfil_ideal in Hp.
    destruct (is_empty filtro').
    { injection Hp as <-. discriminate. }
    apply bind_Ok in Hp as (taxa75 & _ & Hp).
    apply bind_Ok in Hp as (nps75 & _ & Hp).
    rewrite Hcanal' in Hp. simpl in Hp. injection Hp as <-.
    simpl in Hperfil. by injection Hperfil as <-.
Qed.

Example classificar_painel_canais :
  classificar painel_canais = Ok (Some painel_canais_risco).
Proof.
  unfold classificar.
  assert (forallb (has_column painel_canais) risco_colunas = true) as ->
    by (vm_compute; reflexivity).
  assert (risco_churn_col (rows painel_canais)
          = Ok [Bool false; Bool false; Bool true]) as ->
    by (vm_compute; reflexivity).
  reflexivity.
Qed.

Example perfil_painel_canais :
  perfil_ideal quantil_topo painel_canais_risco (Some grupo_indicacao)
  = Ok (Some perfil_amostra, []).
Proof. vm_compute. reflexivity. Qed.

Lemma melhor_canal_consistent_witness :
  ∃ canais perfil,
    secoes_2_a_4 quantil_topo media_simples painel_canais
      (Ok (Some canais, Some perfil))
    ∧ melhor_canal canais = grupo_indicacao
    ∧ p_canal perfil = cell_at c_canal (melhor_canal canais).
Proof.
  pose (canais := mkCanais (take_rows resumo_canais [1; 0]%nat) grupo_indicacao).
  assert (secoes_2_a_4 quantil_topo media_simples painel_canais
            (Ok (Some canais, Some perfil_amostra))) as Hrun.
  { exists (Ok (Some canais,
                [MelhorCanal (cell_at c_canal grupo_indicacao)
                             (cell_at c_taxa_media grupo_indicacao)])).
    split.
    - unfold secao_canais.
      assert (has_column painel_canais c_canal = true) as ->
        by (vm_compute; reflexivity).
      exists (Ok (take_rows resumo_canais [1; 0]%nat)). split; [|reflexivity].
      unfold canal_conv_of. rewrite group_summary_painel_canais.
      apply sort_values_ok; [vm_compute; reflexivity..|].
      apply nargsort_desc_check_ok. vm_compute. reflexivity.
    - destruct (secao_risco_runs painel_canais painel_canais_risco
                  classificar_painel_canais) as [evs Hrisco];
        [vm_compute; reflexivity..|].
      exists (Ok (painel_canais_risco, evs)). split; [exact Hrisco|].
      cbn [fmap option_fmap option_map melhor_canal canais].
      rewrite perfil_painel_canais. reflexivity. }
  exists canais, perfil_amostra. split; [exact Hrun|]. split; [reflexivity|].
  by destruct (melhor_canal_consistent _ _ _ _ _ Hrun) as (_ & _ & Hc).
Defined.

(** In the sample run the best channel is "Indicação". *)
Example melhor_canal_amostra :
  cell_at c_canal grupo_indicacao = Str "Indicação".
Proof. vm_compute. reflexivity. Qed.

(** * More properties of the script *)

(** ** The filter loop (lines 70-73) *)

Lemma filter_sublist {A : Type} (p : A → bool) (l : list A) :
  List.filter p l `sublist_of` l.
Proof.
  induction l as [|x l IH]; simpl; [done|].
  destruct (p x); [by apply sublist_skip|by apply sublist_cons].
Qed.

Lemma filter_all {A : Type} (p : A → bool) (l : list A) :
  (∀ x, x ∈ l → p x = true) → List.filter p l = l.
Proof.
  induction l as [|x l IH]; intros H; simpl; [done|].
  rewrite (H x) by left. f_equal. apply IH. intros; apply H; by right.
Qed.

Lemma filter_ext_in {A : Type} (p q : A → bool) (l : list A) :
  (∀ x, x ∈ l → p x = q x) → List.filter p l = List.filter q l.
Proof.
  induction l as [|x l IH]; intros H; simpl; [done|].
  rewrite (H x) by left. rewrite IH; [done|]. intros; apply H; by right.
Qed.

(** What one entry of the FilterSpec asks of a row. *)
Lemma passa_spec cols filtros r :
  passa cols filtros r = true
  ↔ ∀ col vals, (col, vals) ∈ filtros → vals ≠ [] → col ∈ cols →
                cell_at col r ∈ vals.
Proof.
  unfold passa. rewrite forallb_forall. split.
  - intros H col vals Hin Hne Hcol.
    specialize (H (col, vals) (proj1 (list_elem_of_In _ _) Hin)). simpl in H.
    destruct vals as [|v vs]; [done|].
    rewrite bool_decide_eq_true_2 in H by done.
    by apply bool_decide_eq_true in H.
  - intros H [col vals] Hin%list_elem_of_In. simpl.
    destruct vals as [|v vs]; [done|].
    destruct (bool_decide (col ∈ cols)) eqn:Hcol; [|done].
    apply bool_decide_eq_true in Hcol.
    apply bool_decide_eq_true. by apply (H col).
Qed.

(** X1. The filtered view has the columns of the frame, and its rows are
    rows of the frame in their original order: filtering only drops rows. *)
Theorem aplicar_filtros_sublist df filtros :
  columns (aplicar_filtros df filtros) = columns df
  ∧ rows (aplicar_filtros df filtros) `sublist_of` rows df
  ∧ (length (rows (aplicar_filtros df filtros)) ≤ length (rows df))%nat.
Proof.
  rewrite aplicar_filtros_select. simpl.
  split; [done|]. split; [apply filter_sublist|].
  apply sublist_length, filter_sublist.
Qed.

(** X2. The entries of the FilterSpec are joined by "and": a row is in the
    filtered view exactly when it is in the frame and, for every entry
    with some selected value on a column the frame has, its cell in that
    column is one of the selected values. *)
Theorem aplicar_filtros_elem_of df filtros r :
  r ∈ rows (aplicar_filtros df filtros)
  ↔ r ∈ rows df
    ∧ ∀ col vals, (col, vals) ∈ filtros → vals ≠ [] → col ∈ columns df →
                  cell_at col r ∈ vals.
Proof.
  rewrite aplicar_filtros_select. simpl.
  rewrite list_elem_of_In, filter_In, <- list_elem_of_In.
  by rewrite passa_spec.
Qed.

(** X3. The order of the entries of the FilterSpec does not matter. *)
Theorem aplicar_filtros_perm df filtros filtros' :
  filtros ≡ₚ filtros' →
  aplicar_filtros df filtros = aplicar_filtros df filtros'.
Proof.
  intros Hp. rewrite !aplicar_filtros_select. unfold select. f_equal.
  apply filter_ext_bool. intros r.
  apply eq_true_iff_eq. rewrite !passa_spec.
  split; intros H col vals Hin; apply H; [by rewrite Hp|by rewrite <- Hp].
Qed.

Lemma aplicar_filtros_perm_witness :
  aplicar_filtros painel_pequeno
    [(c_cidade, [Str "Bombinhas"]); (c_status, [Str "Ativo"])]
  = aplicar_filtros painel_pequeno
      [(c_status, [Str "Ativo"]); (c_cidade, [Str "Bombinhas"])].
Proof. apply aplicar_filtros_perm. apply perm_swap. Defined.

(** X4. Filtering a filtered view: two FilterSpecs applied one after the
    other give the same view in either order, the view of both at once. *)
Theorem aplicar_filtros_comm df f1 f2 :
  aplicar_filtros (aplicar_filtros df f1) f2
  = aplicar_filtros (aplicar_filtros df f2) f1
  ∧ aplicar_filtros (aplicar_filtros df f1) f2 = aplicar_filtros df (f1 ++ f2).
Proof.
  rewrite !aplicar_filtros_select, !select_select. simpl.
  split; unfold select; f_equal; apply filter_ext_bool; intros r.
  - apply andb_comm.
  - by rewrite passa_app.
Qed.

(** X5. An entry for a column the frame does not have is skipped: the
    result is the one of the FilterSpec without it, and nothing raises. *)
Theorem aplicar_filtros_absent_column df col vals f1 f2 :
  has_column df col = false →
  aplicar_filtros df (f1 ++ (col, vals) :: f2) = aplicar_filtros df (f1 ++ f2).
Proof.
  intros Hcol. rewrite !aplicar_filtros_select. unfold select. f_equal.
  apply filter_ext_bool. intros r. rewrite !passa_app. f_equal.
  unfold passa. simpl. unfold has_column in Hcol. rewrite Hcol.
  by destruct vals.
Qed.

Lemma aplicar_filtros_absent_column_witness :
  aplicar_filtros painel_pequeno [(c_tipo, [Str "Imobiliária"])]
  = aplicar_filtros painel_pequeno [].
Proof.
  apply (aplicar_filtros_absent_column painel_pequeno c_tipo
           [Str "Imobiliária"] [] []).
  vm_compute. reflexivity.
Defined.

(** ** The sidebar defaults (lines 40-67) *)

Lemma elem_of_unique cs c : c ∈ unique cs ↔ c ∈ cs.
Proof. unfold unique. by rewrite elem_of_reverse, elem_of_remove_dups, elem_of_reverse. Qed.

Lemma NoDup_unique cs : NoDup (unique cs).
Proof. unfold unique. rewrite reverse_Permutation. apply NoDup_remove_dups. Qed.

Lemma montar_Ok aceita df widget cols :
  (∀ col, col ∈ cols → has_column df col = true →
          forallb (λ r, negb (isna (cell_at col r))) (rows df) = true) →
  montar aceita df widget cols
  = Ok ((λ col, (col, widget col)) <$> List.filter (has_column df) cols).
Proof.
  induction cols as [|col cols IH]; intros H; [done|].
  cbn [montar List.filter].
  rewrite IH by (intros c Hc; apply H; by right).
  destruct (has_column df col) eqn:Hcol; [|done].
  unfold multiselect.
  assert (existsb isna (unique (cell_at col <$> rows df)) = false) as ->.
  { apply not_true_is_false. intros (c & Hc & Hna)%existsb_exists.
    apply list_elem_of_In, elem_of_unique, list_elem_of_fmap in Hc
      as (r & -> & Hr).
    pose proof (forallb_elem_of _ _ r (H col ltac:(left) Hcol) Hr) as Hr'.
    cbv beta in Hr'. by rewrite Hna in Hr'. }
  done.
Qed.

Lemma montar_Raise aceita df widget cols e :
  montar aceita df widget cols = Raise e → e = StreamlitAPIException.
Proof.
  induction cols as [|col cols IH]; cbn [montar]; [discriminate|].
  destruct (has_column df col); [|exact IH].
  unfold multiselect. destruct (_ && _); cbn [bind]; [by intros [= <-]|].
  destruct (montar aceita df widget cols); cbn [bind]; [discriminate|].
  intros [= <-]. by apply IH.
Qed.

Lemma montar_float_vazio aceita df widget cols col :
  col ∈ cols →
  has_column df col = true →
  forallb (λ r, numeric (cell_at col r)) (rows df) = true →
  existsb (λ r, isna (cell_at col r)) (rows df) = true →
  montar aceita df widget cols = Raise StreamlitAPIException.
Proof.
  intros Hin Hcol Hnum Hna.
  destruct (montar aceita df widget cols) as [fs|e] eqn:Hm;
    [|by rewrite (montar_Raise _ _ _ _ _ Hm)].
  exfalso. revert fs Hm.
  induction cols as [|c cols IH]; intros fs Hm; [by apply elem_of_nil in Hin|].
  cbn [montar] in Hm.
  apply elem_of_cons in Hin as [->|Hin].
  - rewrite Hcol in Hm. unfold multiselect in Hm.
    assert (existsb isna (unique (cell_at c <$> rows df)) = true) as E1.
    { apply existsb_exists in Hna as (r & Hr & Hna).
      apply existsb_exists. exists (cell_at c r). split; [|done].
      apply list_elem_of_In, elem_of_unique, list_elem_of_fmap.
      exists r. split; [done|]. by apply list_elem_of_In. }
    assert (forallb numeric (unique (cell_at c <$> rows df)) = true) as E2.
    { apply forallb_forall. intros x Hx.
      apply list_elem_of_In, elem_of_unique, list_elem_of_fmap in Hx
        as (r & -> & Hr).
      exact (forallb_elem_of _ _ r Hnum Hr). }
    rewrite E1, E2 in Hm. discriminate.
  - destruct (has_column df c); [|by eapply IH].
    apply bind_Ok in Hm as (v & _ & Hm). apply bind_Ok in Hm as (fs' & Hfs & _).
    by eapply IH.
Qed.

(** X6. The sidebar left as it is (every multiselect at its default, all
    the values of its column). (1) When no filterable column of the sheet
    has an empty cell, the filters are built and the filtered view is the
    frame itself: every partner is shown. (2) When a filterable column of
    the sheet is a float64 column with an empty cell (a column that is
    empty in every row is one), the script stops in the sidebar: the
    multiselect does not find its NaN default among its options and
    raises, whatever the selections are. *)
Theorem filtros_padrao_identity aceita df :
  ((∀ col, col ∈ filterable → has_column df col = true →
           forallb (λ r, negb (isna (cell_at col r))) (rows df) = true) →
   ∃ filtros,
     montar_filtros aceita df (selecao_padrao df) = Ok filtros
     ∧ aplicar_filtros df filtros = df)
  ∧ ∀ col widget,
      col ∈ filterable →
      has_column df col = true →
      forallb (λ r, numeric (cell_at col r)) (rows df) = true →
      existsb (λ r, isna (cell_at col r)) (rows df) = true →
      montar_filtros aceita df widget = Raise StreamlitAPIException.
Proof.
  split.
  - intros H. eexists. split; [by apply montar_Ok|].
    rewrite aplicar_filtros_select. destruct df as [cols rs]. unfold select. simpl.
    f_equal. apply filter_all. intros r Hr. apply passa_spec.
    intros col vals Hin _ _.
    apply list_elem_of_fmap in Hin as (col' & [= -> ->] & _).
    apply elem_of_unique, list_elem_of_fmap. simpl. eauto.
  - intros col widget Hin Hcol Hnum Hna. by eapply montar_float_vazio.
Qed.

Lemma filtros_padrao_identity_witness :
  (∃ filtros,
     montar_filtros falta_amostra painel_pequeno (selecao_padrao painel_pequeno)
     = Ok filtros
     ∧ aplicar_filtros painel_pequeno filtros = painel_pequeno)
  ∧ montar_filtros falta_amostra painel_cidade_vazia
      (selecao_padrao painel_cidade_vazia)
    = Raise StreamlitAPIException.
Proof.
  split.
  - apply (filtros_padrao_identity falta_amostra painel_pequeno).
    intros col Hin Hcol. unfold filterable in Hin.
    rewrite !elem_of_cons, elem_of_nil in Hin.
    destruct Hin as [->|[->|[->|[->|[]]]]];
      [vm_compute; reflexivity..|vm_compute in Hcol; discriminate
      |vm_compute; reflexivity].
  - apply (proj2 (filtros_padrao_identity falta_amostra painel_cidade_vazia)
             c_cidade); [by left|vm_compute; reflexivity..].
Defined.

(** ** [filtro = df.copy()] and the loop, on the heap *)

(** X7. Lines 70-73 never write into an object that exists: whatever the
    selections are, [filtro] ends up bound to an object other than the one
    of [df], every object that existed holds what it held, and the new
    object holds the filtered view. *)
Theorem filtrar_fresh h l D filtros :
  h !! l = Some D →
  filtro_ref (filtrar h l filtros) ≠ l
  ∧ df_ref (filtrar h l filtros) = l
  ∧ (∀ l' d, h !! l' = Some d → heap (filtrar h l filtros) !! l' = Some d)
  ∧ filtro_of (filtrar h l filtros) = aplicar_filtros D filtros.
Proof.
  intros Hl. destruct (filtrar_spec h l D filtros Hl) as (P & R & Dr & F).
  pose proof (lookup_lt_Some _ _ _ Hl).
  split; [lia|]. split; [done|]. split; [|done].
  intros l' d Hd. by apply (prefix_lookup_Some h).
Qed.

Lemma filtrar_fresh_witness :
  filtro_ref (filtrar [painel_pequeno] 0 []) ≠ 0%nat
  ∧ filtro_of (filtrar [painel_pequeno] 0 []) = aplicar_filtros painel_pequeno [].
Proof.
  destruct (filtrar_fresh [painel_pequeno] 0 painel_pequeno [] eq_refl)
    as (Hne & _ & _ & Hf).
  split; [exact Hne|exact Hf].
Defined.

(** ** More of load_data *)

Lemma load_data_Ok div parse today df out :
  load_data div parse today (Ok df) = (out, [])
  ↔ load_body div parse today (Ok df) = Ok out.
Proof.
  unfold load_data. destruct (load_body div parse today (Ok df)); split;
    intros H; try discriminate; by injection H as ->.
Qed.

Lemma load_body_columns div parse today df out :
  load_body div parse today (Ok df) = Ok out →
  forallb (has_column df) colunas_fonte = true
  ∧ ∀ col, has_column out col
           = has_column df col
             || bool_decide (col ∈ [c_taxa_conv; c_taxa_qual; c_dias]).
Proof.
  unfold load_body. cbn [bind]. intros H.
  apply bind_Ok in H as (tc & Htc & H). apply bind_Ok in H as (tq & Htq & H).
  apply bind_Ok in H as (datas & Hd & H). apply bind_Ok in H as (dts & Hdts & H).
  apply bind_Ok in H as (dts' & Hd' & H). apply bind_Ok in H as (dias & _ & H).
  injection H as <-.
  unfold taxa in Htc, Htq.
  apply bind_Ok in Htc as (? & Hf & Htc). apply bind_Ok in Htc as (? & Hi & _).
  apply bind_Ok in Htq as (? & Hq & _).
  unfold getcol in Hf, Hi, Hq, Hd.
  destruct (has_column df c_fechadas) eqn:Ef; [|discriminate].
  destruct (has_column df c_indicacoes) eqn:Ei; [|discriminate].
  destruct (has_column (setcol df c_taxa_conv tc) c_qualificadas) eqn:Eq;
    [|discriminate].
  destruct (has_column (setcol (setcol df c_taxa_conv tc) c_taxa_qual tq) c_data)
    eqn:Ed; [|discriminate].
  rewrite has_column_setcol in Eq. rewrite !has_column_setcol in Ed.
  rewrite (bool_decide_eq_false_2 (c_qualificadas = c_taxa_conv)) in Eq by done.
  rewrite (bool_decide_eq_false_2 (c_data = c_taxa_conv)) in Ed by done.
  rewrite (bool_decide_eq_false_2 (c_data = c_taxa_qual)) in Ed by done.
  rewrite orb_false_r in Eq. rewrite !orb_false_r in Ed.
  split.
  - unfold colunas_fonte. simpl. by rewrite Ef, Ei, Eq, Ed.
  - intros col. rewrite !has_column_setcol. apply eq_true_iff_eq.
    rewrite !orb_true_iff, !bool_decide_eq_true, !elem_of_cons, elem_of_nil.
    split.
    + intros [[[[?|?]|?]|?]|?]; subst; auto.
    + intros [?|[?|[?|[?|[]]]]]; auto.
Qed.



(** X9. A load that succeeds keeps the rows and their order, adds the
    columns "Taxa Conversão", "Taxa Qualificação" and "Dias sem contato" to
    the columns that were there, and leaves every other field of every
    row as read: only those three columns and the date column are
    written. *)
Theorem load_data_frame div parse today df out :
  load_data div parse today (Ok df) = (out, []) →
  length (rows out) = length (rows df)
  ∧ (∀ col, has_column out col
            = has_column df col
              || bool_decide (col ∈ [c_taxa_conv; c_taxa_qual; c_dias]))
  ∧ ∀ i r, rows df !! i = Some r →
      ∃ r', rows out !! i = Some r'
            ∧ ∀ col, col ∉ [c_taxa_conv; c_taxa_qual; c_data; c_dias] →
                     r' !! col = r !! col.
Proof.
  intros Hout%load_data_Ok.
  destruct (load_body_columns _ _ _ _ _ Hout) as [_ Hcols].
  destruct (load_body_rows _ _ _ _ _ Hout) as [Hlen Hrows].
  split; [done|]. split; [done|].
  intros i r Hr.
  destruct (Hrows i r Hr) as (xc & xq & d & _ & _ & Hr' & _).
  eexists. split; [exact Hr'|].
  intros col Hcol. unfold derived_row.
  rewrite !lookup_insert_ne; [done|..];
    intros <-; apply Hcol; rewrite !elem_of_cons; tauto.
Qed.

Lemma load_data_frame_witness :
  ∃ out,
    load_data div_amostra parse_amostra hoje_amostra (Ok base_data_vazia)
    = (out, [])
    ∧ length (rows out) = length (rows base_data_vazia)
    ∧ has_column out c_dias = true.
Proof.
  destruct (load_data div_amostra parse_amostra hoje_amostra (Ok base_data_vazia))
    as [out evs] eqn:Hload.
  assert (evs = []) as ->.
  { apply (f_equal snd) in Hload. simpl in Hload. rewrite <- Hload.
    vm_compute. reflexivity. }
  exists out. split; [reflexivity|].
  destruct (load_data_frame _ _ _ _ _ Hload) as (Hlen & Hcols & _).
  split; [exact Hlen|]. rewrite Hcols. apply orb_true_r.
Defined.

Lemma fillna0_Flt x : ∃ y, fillna0 (Flt x) = Flt y ∧ F64.is_nan y = false.
Proof.
  unfold fillna0. simpl. destruct (F64.is_nan x) eqn:E; eauto.
Qed.

Lemma load_body_elem_of div parse today df out r' :
  load_body div parse today (Ok df) = Ok out →
  r' ∈ rows out →
  ∃ r xc xq d,
    r ∈ rows df
    ∧ to_datetime_cell parse (cell_at c_data <$> rows df) (cell_at c_data r)
      = Ok d
    ∧ r' = derived_row r (fillna0 (Flt xc)) (fillna0 (Flt xq)) d
             (dias_sem_contato today
                (existsb isna (cell_at c_data <$> rows out)) d).
Proof.
  intros Hout (i & Hi)%list_elem_of_lookup.
  destruct (load_body_rows _ _ _ _ _ Hout) as [Hlen Hrows].
  destruct (lookup_lt_is_Some_2 (rows df) i) as [r Hr].
  { rewrite <- Hlen. by eapply lookup_lt_Some. }
  destruct (Hrows i r Hr) as (xc & xq & d & Hd & _ & Hr' & _).
  exists r, xc, xq, d. split; [by eapply list_elem_of_lookup_2|].
  split; [done|congruence].
Qed.

(** The derived cells of a row of a loaded frame. *)
Lemma load_body_derived_cells div parse today df out r' :
  load_body div parse today (Ok df) = Ok out →
  r' ∈ rows out →
  (∃ x, cell_at c_taxa_conv r' = Flt x ∧ F64.is_nan x = false)
  ∧ (∃ y, cell_at c_taxa_qual r' = Flt y ∧ F64.is_nan y = false)
  ∧ ((∃ t, cell_at c_data r' = Time t
           ∧ cell_at c_dias r'
             = if existsb isna (cell_at c_data <$> rows out)
               then Flt (F64.of_Z ((today - t) / NS_PER_DAY))
               else Int ((today - t) / NS_PER_DAY))
     ∨ (cell_at c_data r' = NaT ∧ cell_at c_dias r' = NaN)).
Proof.
  intros Hout Hr'.
  destruct (load_body_elem_of _ _ _ _ _ _ Hout Hr')
    as (r & xc & xq & d & _ & Hd & ->).
  unfold derived_row. split; [|split].
  - rewrite !cell_at_insert_ne by done. rewrite cell_at_insert_eq.
    apply fillna0_Flt.
  - rewrite !cell_at_insert_ne by done. rewrite cell_at_insert_eq.
    apply fillna0_Flt.
  - rewrite cell_at_insert_eq, cell_at_insert_ne by done.
    rewrite cell_at_insert_eq.
    destruct (to_datetime_cell_Ok _ _ _ _ Hd) as [[t ->]| ->]; [left|right]; eauto.
Qed.

(** X10. In a frame that was loaded, both rates of every row are float
    cells that are not missing, and the date is a timestamp or missing.
    The days without contact are the whole days between the date and now:
    integers when every row of the sheet has a date, and floats, with NaN
    for the rows without a date, as soon as one row has none. *)
Theorem load_data_derived_cells div parse today df out r' :
  load_data div parse today (Ok df) = (out, []) →
  r' ∈ rows out →
  (∃ x, cell_at c_taxa_conv r' = Flt x ∧ F64.is_nan x = false)
  ∧ (∃ y, cell_at c_taxa_qual r' = Flt y ∧ F64.is_nan y = false)
  ∧ ((∃ t, cell_at c_data r' = Time t
           ∧ cell_at c_dias r'
             = if existsb isna (cell_at c_data <$> rows out)
               then Flt (F64.of_Z ((today - t) / NS_PER_DAY))
               else Int ((today - t) / NS_PER_DAY))
     ∨ (cell_at c_data r' = NaT ∧ cell_at c_dias r' = NaN)).
Proof.
  intros Hout%load_data_Ok Hr'. by eapply load_body_derived_cells.
Qed.

Lemma load_amostra_Ok :
  ∃ out, load_data div_amostra parse_amostra hoje_amostra (Ok base_data_vazia)
         = (out, []).
Proof.
  destruct (load_data div_amostra parse_amostra hoje_amostra (Ok base_data_vazia))
    as [out evs] eqn:Hload.
  assert (evs = []) as ->; [|by exists out].
  apply (f_equal snd) in Hload. simpl in Hload. rewrite <- Hload.
  vm_compute. reflexivity.
Qed.

(** The date a loaded row carries is the converted date of the row read. *)
Lemma load_body_lookup_date div parse today df out i r :
  load_body div parse today (Ok df) = Ok out →
  rows df !! i = Some r →
  ∃ r' d, rows out !! i = Some r'
          ∧ to_datetime_cell parse (cell_at c_data <$> rows df)
                             (cell_at c_data r) = Ok d
          ∧ cell_at c_data r' = d.
Proof.
  intros Hout Hr. destruct (load_body_rows _ _ _ _ _ Hout) as [_ Hrows].
  destruct (Hrows i r Hr) as (xc & xq & d & Hd & _ & Hr' & _).
  eexists _, d. split; [exact Hr'|]. split; [done|].
  unfold derived_row. rewrite cell_at_insert_ne by done.
  by rewrite cell_at_insert_eq.
Qed.

Lemma load_data_derived_cells_witness :
  ∃ out r' x,
    load_data div_amostra parse_amostra hoje_amostra (Ok base_data_vazia)
    = (out, [])
    ∧ r' ∈ rows out
    ∧ cell_at c_taxa_conv r' = Flt x ∧ F64.is_nan x = false.
Proof.
  destruct load_amostra_Ok as [out Hload].
  destruct (load_body_lookup_date _ _ _ _ _ 1%nat (parceiro "Imob B" 0 0 0 NaT)
              (proj1 (load_data_Ok _ _ _ _ _) Hload) eq_refl)
    as (r' & d & Hr' & _).
  apply list_elem_of_lookup_2 in Hr'.
  destruct (load_data_derived_cells _ _ _ _ _ _ Hload Hr') as ([x [Hx Hn]] & _).
  exists out, r', x. split; [exact Hload|]. split; [exact Hr'|].
  split; [exact Hx|exact Hn].
Defined.

(** X11. The days without contact are whole days rounded down: for a date
    [t] and the number of days [d] stored for it (as an integer, or as a
    float when the column has a missing date), [d] days have passed and
    [d + 1] have not; [d] is negative exactly for a date in the future. *)
Theorem load_data_days_floor div parse today df out r' t :
  load_data div parse today (Ok df) = (out, []) →
  r' ∈ rows out →
  cell_at c_data r' = Time t →
  ∃ d, cell_at c_dias r'
       = (if existsb isna (cell_at c_data <$> rows out)
          then Flt (F64.of_Z d) else Int d)
       ∧ (d * NS_PER_DAY ≤ today - t < (d + 1) * NS_PER_DAY)%Z
       ∧ (d < 0 ↔ today < t)%Z.
Proof.
  intros Hout%load_data_Ok Hr' Ht.
  destruct (load_body_derived_cells _ _ _ _ _ _ Hout Hr') as (_ & _ & [H|[H _]]);
    [|congruence].
  destruct H as (t' & Ht' & Hd). assert (t' = t) as -> by congruence.
  eexists. split; [exact Hd|].
  assert (0 < NS_PER_DAY)%Z as Hpos by done.
  pose proof (Z.mul_div_le (today - t) NS_PER_DAY Hpos).
  pose proof (Z.mul_succ_div_gt (today - t) NS_PER_DAY Hpos).
  split; [lia|].
  split; intros Hlt.
  - destruct (Z.lt_ge_cases today t) as [|Hge]; [done|].
    assert (0 ≤ (today - t) / NS_PER_DAY)%Z by (apply Z.div_pos; lia). lia.
  - apply Z.div_lt_upper_bound; lia.
Qed.

Lemma load_datas_Ok :
  ∃ out, load_data div_amostra parse_amostra hoje_amostra (Ok base_datas)
         = (out, []).
Proof.
  destruct (load_data div_amostra parse_amostra hoje_amostra (Ok base_datas))
    as [out evs] eqn:Hload.
  assert (evs = []) as ->; [|by exists out].
  apply (f_equal snd) in Hload. simpl in Hload. rewrite <- Hload.
  vm_compute. reflexivity.
Qed.

Lemma load_data_days_floor_witness :
  ∃ out r' d,
    load_data div_amostra parse_amostra hoje_amostra (Ok base_datas) = (out, [])
    ∧ r' ∈ rows out
    ∧ cell_at c_dias r'
      = (if existsb isna (cell_at c_data <$> rows out)
         then Flt (F64.of_Z d) else Int d)
    ∧ (d * NS_PER_DAY ≤ hoje_amostra - 1704067200000000000
       < (d + 1) * NS_PER_DAY)%Z.
Proof.
  destruct load_datas_Ok as [out Hload].
  destruct (load_body_lookup_date _ _ _ _ _ 0%nat
              (parceiro "Imob A" 10 5 6 (Str "2024-01-01"))
              (proj1 (load_data_Ok _ _ _ _ _) Hload) eq_refl)
    as (r' & c & Hr' & Hc & Hdata).
  vm_compute in Hc. injection Hc as <-.
  apply list_elem_of_lookup_2 in Hr'.
  destruct (load_data_days_floor _ _ _ _ _ _ _ Hload Hr' Hdata) as (d & Hd & Hb & _).
  exists out, r', d. split; [exact Hload|]. split; [exact Hr'|].
  split; [exact Hd|exact Hb].
Defined.

(** ** More of the channel summary (lines 118-144) *)

Lemma length_summary_rows agg filtro ks rs :
  summary_rows agg filtro ks = Ok rs → length rs = length ks.
Proof.
  intros [H _]%summary_rows_lookup. by rewrite <- H, length_fmap.
Qed.

(** X12. The summary has one row for each distinct channel that occurs and
    is not missing, and no other row; ordering the summary keeps exactly
    these rows. *)
Theorem group_summary_one_row_per_channel agg filtro g :
  group_summary agg filtro = Ok g →
  cell_at c_canal <$> rows g = group_keys filtro c_canal
  ∧ NoDup (cell_at c_canal <$> rows g)
  ∧ (∀ k, k ∈ cell_at c_canal <$> rows g
          ↔ isna k = false ∧ ∃ r, r ∈ rows filtro ∧ cell_at c_canal r = k)
  ∧ ∀ out, canal_conv_of agg filtro (Ok out) →
           cell_at c_canal <$> rows out ≡ₚ group_keys filtro c_canal.
Proof.
  intros Hg.
  assert (cell_at c_canal <$> rows g = group_keys filtro c_canal) as Hk.
  { unfold group_summary in Hg.
    destruct (negb (has_column filtro c_canal)); [discriminate|].
    destruct (negb (has_column filtro c_taxa_conv)); [discriminate|].
    destruct (negb (has_column filtro c_nome)); [discriminate|].
    apply bind_Ok in Hg as (rs & Hrs & Hg). injection Hg as <-.
    by destruct (summary_rows_lookup _ _ _ _ Hrs). }
  split; [done|]. rewrite Hk. split; [apply NoDup_group_keys|].
  split; [apply elem_of_group_keys|].
  intros out Hout. unfold canal_conv_of in Hout. rewrite Hg in Hout.
  destruct (sort_values_desc_Ok _ _ _ Hout) as (_ & Hp & _).
  by rewrite Hp, Hk.
Qed.

Lemma group_summary_one_row_per_channel_witness :
  cell_at c_canal <$> rows resumo_canais = group_keys painel_canais c_canal
  ∧ NoDup (cell_at c_canal <$> rows resumo_canais).
Proof.
  destruct (group_summary_one_row_per_channel media_simples painel_canais
              resumo_canais group_summary_painel_canais) as (Hk & Hnd & _).
  split; [exact Hk|exact Hnd].
Defined.

Lemma filter_none {A : Type} (p : A → bool) (l : list A) :
  (∀ x, x ∈ l → p x = false) → List.filter p l = [].
Proof.
  induction l as [|x l IH]; intros H; simpl; [done|].
  rewrite (H x) by left. apply IH. intros; apply H; by right.
Qed.

(** X13. When the columns are there but no partner of the filtered view has
    a channel (in particular when the view has no row), section 2 has a
    single outcome: [canal_conv.iloc[0]] raises IndexError. *)
Theorem secao_canais_no_channel agg filtro :
  has_column filtro c_canal = true →
  has_column filtro c_taxa_conv = true →
  has_column filtro c_nome = true →
  forallb (λ r, isna (cell_at c_canal r)) (rows filtro) = true →
  secao_canais agg filtro (Raise IndexError)
  ∧ ∀ out, secao_canais agg filtro out → out = Raise IndexError.
Proof.
  intros Hc Ht Hn Hall.
  assert (group_summary agg filtro = Ok (mkDF [c_canal; c_taxa_media; c_qtd] []))
    as Hg.
  { unfold group_summary. rewrite Hc, Ht, Hn. simpl.
    unfold group_keys. rewrite filter_none; [done|].
    intros c (r & -> & Hr)%list_elem_of_fmap.
    by rewrite (forallb_elem_of _ _ _ Hall Hr). }
  unfold secao_canais, canal_conv_of. rewrite Hc, Hg. split.
  - destruct (sort_values_desc_total (mkDF [c_canal; c_taxa_media; c_qtd] [])
                c_taxa_media) as [s Hs]; [done..|].
    exists (Ok s). split; [done|].
    destruct (sort_values_desc_Ok _ _ _ Hs) as (_ & Hp & _). simpl in Hp.
    apply Permutation_nil_r in Hp. cbn [bind]. unfold iloc0. by rewrite Hp.
  - intros out (cc & Hcc & ->).
    inversion Hcc as [indexer _ _ Hix| |]; subst; try done.
    assert (indexer = []) as ->; [|done].
    apply nargsort_desc_perm in Hix. simpl in Hix.
    by apply Permutation_nil_r in Hix.
Qed.

Lemma secao_canais_no_channel_witness :
  secao_canais media_simples painel_sem_canal (Raise IndexError).
Proof.
  destruct (secao_canais_no_channel media_simples painel_sem_canal) as [H _];
    [vm_compute; reflexivity..|exact H].
Defined.

(** ** More of the risk section (lines 156-191) *)

Lemma num_lt_Raise a b e : num_lt a b = Raise e → e = TypeError.
Proof.
  unfold num_lt.
  destruct a, b; simpl; try discriminate; try (by intros [= <-]);
    repeat match goal with
           | |- context [num_value ?c] => destruct (num_value c)
           end; try discriminate; by intros [= <-].
Qed.

Lemma risco_churn_row_Raise r e : risco_churn_row r = Raise e → e = TypeError.
Proof.
  unfold risco_churn_row, num_gt.
  destruct (num_lt (cell_at c_nps r) (Int 30)) eqn:H1; cbn [bind];
    [|intros [= <-]; by eapply num_lt_Raise].
  destruct (num_lt (Int 60) (cell_at c_dias r)) eqn:H2; cbn [bind];
    [|intros [= <-]; by eapply num_lt_Raise].
  destruct (num_lt (cell_at c_taxa_conv r) (Flt F64.lit_0_2)) eqn:H3; cbn [bind];
    [discriminate|intros [= <-]; by eapply num_lt_Raise].
Qed.

Lemma risco_churn_col_Raise rs e : risco_churn_col rs = Raise e → e = TypeError.
Proof.
  induction rs as [|r rs IH]; simpl; [discriminate|].
  destruct (risco_churn_row r) eqn:Hr; simpl;
    [|intros [= <-]; by eapply risco_churn_row_Raise].
  destruct (risco_churn_col rs); simpl; [discriminate|].
  intros [= <-]. by apply IH.
Qed.

Lemma risco_churn_col_total rs :
  (∀ r, r ∈ rs → ∃ b, risco_churn_row r = Ok b) →
  ∃ flags, risco_churn_col rs = Ok flags.
Proof.
  induction rs as [|r rs IH]; intros H; simpl; [eauto|].
  destruct (H r) as [b ->]; [left|].
  destruct IH as [flags ->]; [intros; apply H; by right|].
  simpl. eauto.
Qed.

(** X14. When the rule runs, the frame gets the column "Risco Churn" (once)
    and keeps its rows; the flag written into each row is the value of the
    rule on that row, and the row is otherwise as it was. *)
Theorem classificar_flags filtro f' :
  classificar filtro = Ok (Some f') →
  columns f' = (if has_column filtro c_risco then columns filtro
                else columns filtro ++ [c_risco])
  ∧ length (rows f') = length (rows filtro)
  ∧ ∀ i r, rows filtro !! i = Some r →
      ∃ b, risco_churn_row r = Ok b
           ∧ rows f' !! i = Some (<[c_risco := Bool b]> r).
Proof.
  unfold classificar. destruct (forallb _ risco_colunas); [|discriminate].
  intros H. apply bind_Ok in H as (flags & Hflags & H). injection H as <-.
  destruct (risco_churn_col_lookup _ _ Hflags) as [Hlen Hrows].
  split; [done|]. split; [by apply length_rows_setcol|].
  intros i r Hr. destruct (Hrows i r Hr) as (b & Hb & Hf).
  exists b. split; [done|].
  destruct (rows_setcol_lookup filtro c_risco flags i r Hlen Hr) as (v & Hv & ->).
  congruence.
Qed.

Lemma classificar_flags_witness :
  length (rows painel_canais_risco) = length (rows painel_canais)
  ∧ ∃ b, risco_churn_row parceiro_inativo = Ok b.
Proof.
  destruct (classificar_flags painel_canais painel_canais_risco
              classificar_painel_canais) as (_ & Hlen & _).
  split; [exact Hlen|].
  exists true. vm_compute. reflexivity.
Defined.

(** X15. Missing measures trigger nothing: for a partner whose satisfaction
    and days without contact are both missing, the flag is decided by the
    status and the conversion rate alone. *)
Theorem risco_churn_missing r conv_baixa :
  cell_at c_nps r = NaN →
  cell_at c_dias r = NaN →
  num_lt (cell_at c_taxa_conv r) (Flt F64.lit_0_2) = Ok conv_baixa →
  risco_churn_row r = Ok (is_inativo (cell_at c_status r) || conv_baixa).
Proof.
  intros Hn Hd Hc. unfold risco_churn_row, num_gt. rewrite Hn, Hd, Hc.
  cbn. by rewrite !orb_false_r.
Qed.

Lemma risco_churn_missing_witness :
  risco_churn_row parceiro_sem_medidas = Ok false.
Proof.
  rewrite (risco_churn_missing parceiro_sem_medidas false);
    vm_compute; reflexivity.
Defined.

(** X16. Text in the satisfaction column is not a refusal: with the four
    columns present and one partner whose satisfaction is text, the rule
    raises TypeError and no flag is written. *)
Theorem classificar_text_nps filtro i r s :
  forallb (has_column filtro) risco_colunas = true →
  rows filtro !! i = Some r →
  cell_at c_nps r = Str s →
  classificar filtro = Raise TypeError.
Proof.
  intros Hcols Hr Hs. unfold classificar. rewrite Hcols.
  destruct (risco_churn_col (rows filtro)) as [flags|e] eqn:Hcol.
  - destruct (risco_churn_col_lookup _ _ Hcol) as [_ Hrows].
    destruct (Hrows i r Hr) as (b & Hb & _).
    unfold risco_churn_row in Hb. rewrite Hs in Hb. discriminate.
  - simpl. by rewrite (risco_churn_col_Raise _ _ Hcol).
Qed.

Lemma classificar_text_nps_witness :
  classificar (mkDF colunas_painel [parceiro_nps_texto]) = Raise TypeError.
Proof.
  apply (classificar_text_nps _ 0%nat parceiro_nps_texto "alto");
    [vm_compute; reflexivity|reflexivity|vm_compute; reflexivity].
Defined.

(** ** What the risk section reports (lines 156-191) *)

Lemma risco_churn_col_fmap rs : ∀ flags,
  risco_churn_col rs = Ok flags →
  zip_with (λ (r : Row) v, <[c_risco := v]> r) rs flags
  = (λ r : Row, <[c_risco := Bool (sinalizado r)]> r) <$> rs
  ∧ ∀ r, r ∈ rs → ∃ b, risco_churn_row r = Ok b.
Proof.
  induction rs as [|r rs IH]; intros flags H; simpl in H.
  - injection H as <-. split; [done|]. intros r Hr. by apply elem_of_nil in Hr.
  - apply bind_Ok in H as (b & Hb & H). apply bind_Ok in H as (bs & Hbs & H).
    injection H as <-. destruct (IH bs Hbs) as [Hz Hall].
    split.
    + assert (sinalizado r = b) as Hs by (unfold sinalizado; by rewrite Hb).
      rewrite fmap_cons, Hs, <- Hz. done.
    + intros r' [->|Hr']%elem_of_cons; [eauto|by apply Hall].
Qed.

Lemma rows_classificar filtro f' :
  classificar filtro = Ok (Some f') →
  forallb (has_column filtro) risco_colunas = true
  ∧ columns f' = (if has_column filtro c_risco then columns filtro
                  else columns filtro ++ [c_risco])
  ∧ rows f' = (λ r : Row, <[c_risco := Bool (sinalizado r)]> r) <$> rows filtro
  ∧ ∀ r, r ∈ rows filtro → ∃ b, risco_churn_row r = Ok b.
Proof.
  unfold classificar.
  destruct (forallb _ risco_colunas); [|discriminate].
  intros H. apply bind_Ok in H as (flags & Hflags & H). injection H as <-.
  destruct (risco_churn_col_fmap _ _ Hflags) as [Hz Hall].
  split; [done|]. split; [done|]. split; [exact Hz|exact Hall].
Qed.

Lemma filter_em_risco (rs : list Row) :
  List.filter em_risco ((λ r : Row, <[c_risco := Bool (sinalizado r)]> r) <$> rs)
  = (λ r : Row, <[c_risco := Bool true]> r) <$> List.filter sinalizado rs.
Proof.
  induction rs as [|r rs IH]; [done|].
  cbn [fmap list_fmap List.filter]. unfold em_risco at 1.
  rewrite cell_at_insert_eq.
  destruct (sinalizado r) eqn:Hs.
  - rewrite bool_decide_eq_true_2 by done.
    cbn [fmap list_fmap]. f_equal. exact IH.
  - rewrite bool_decide_eq_false_2 by discriminate. exact IH.
Qed.

Lemma comparavel_kind c : comparavel c = true → kind c = KNum.
Proof. by destruct c. Qed.

Lemma num_lt_comparavel a b x : num_lt a b = Ok x → comparavel b = true.
Proof.
  unfold num_lt, comparavel.
  destruct a, b; simpl; try done;
    repeat match goal with
           | |- context [match ?o with Some _ => _ | None => _ end] => destruct o
           end; done.
Qed.

Lemma risco_churn_row_dias r b :
  risco_churn_row r = Ok b → comparavel (cell_at c_dias r) = true.
Proof.
  unfold risco_churn_row, num_gt. intros H.
  apply bind_Ok in H as (x & _ & H). apply bind_Ok in H as (y & Hy & _).
  by eapply num_lt_comparavel.
Qed.

Lemma sortable_numeric keys :
  (∀ c, c ∈ keys → kind c = KNum) → sortable keys = true.
Proof.
  intros H. unfold sortable.
  destruct (List.filter _ keys) as [|k ks] eqn:Hf; [done|].
  assert (∀ c, c ∈ k :: ks → kind c = KNum) as Hk.
  { intros c Hc. apply H. rewrite <- Hf in Hc.
    apply list_elem_of_In, filter_In in Hc as [Hc _]. by apply list_elem_of_In. }
  apply forallb_forall. intros c Hc%list_elem_of_In.
  apply bool_decide_eq_true.
  rewrite (Hk c) by (by right). rewrite (Hk k) by (by left). done.
Qed.

Lemma sortable_risco filtro f' :
  classificar filtro = Ok (Some f') →
  sortable (sort_keys (select em_risco f') c_dias) = true.
Proof.
  intros (_ & _ & Hrows & Hall)%rows_classificar.
  apply sortable_numeric. intros c Hc. unfold sort_keys, select in Hc.
  cbn [rows] in Hc. rewrite Hrows, filter_em_risco in Hc.
  apply list_elem_of_fmap in Hc as (r' & -> & Hr').
  apply list_elem_of_fmap in Hr' as (r & -> & Hr).
  apply list_elem_of_In, filter_In in Hr as [Hr _]. apply list_elem_of_In in Hr.
  rewrite cell_at_insert_ne by done.
  destruct (Hall r Hr) as [b Hb].
  by eapply comparavel_kind, risco_churn_row_dias.
Qed.

Lemma length_select_risco filtro f' :
  classificar filtro = Ok (Some f') →
  length (rows (select em_risco f')) = total_em_risco filtro.
Proof.
  intros (_ & _ & Hrows & _)%rows_classificar.
  unfold select, total_em_risco. cbn [rows].
  by rewrite Hrows, filter_em_risco, length_fmap.
Qed.

Lemma is_empty_rows df :
  columns df ≠ [] → is_empty df = bool_decide (rows df = []).
Proof.
  unfold is_empty. destruct (columns df); [done|]. intros _.
  by destruct (rows df).
Qed.

Lemma columns_classificar filtro f' :
  classificar filtro = Ok (Some f') → columns f' ≠ [].
Proof.
  intros (_ & Hc & _)%rows_classificar. rewrite Hc.
  destruct (has_column filtro c_risco) eqn:E.
  - intros Hnil. unfold has_column in E. rewrite Hnil in E.
    apply bool_decide_eq_true in E. by apply elem_of_nil in E.
  - by destruct (columns filtro).
Qed.

Lemma has_column_classificar filtro f' c :
  classificar filtro = Ok (Some f') →
  has_column f' c = has_column filtro c || bool_decide (c = c_risco).
Proof.
  unfold classificar.
  destruct (forallb _ risco_colunas); [|discriminate].
  intros H. apply bind_Ok in H as (flags & _ & H). injection H as <-.
  apply has_column_setcol.
Qed.

(** What the section does once the rule has run: one outcome, whatever the
    sorting kernel does with ties. *)
Lemma secao_risco_outcome filtro f' out :
  classificar filtro = Ok (Some f') →
  secao_risco filtro out ↔
  out = (if (total_em_risco filtro =? 0)%nat then Ok (f', [NenhumRisco])
         else match List.find (λ c, negb (has_column f' c)) tabela_risco_colunas with
              | Some c => Raise (KeyError c)
              | None => Ok (f', [TotalEmRisco (total_em_risco filtro)])
              end).
Proof.
  intros Hc. unfold secao_risco. rewrite Hc.
  pose proof (sortable_risco _ _ Hc) as Hsort.
  pose proof (length_select_risco _ _ Hc) as Hlen.
  pose proof (columns_classificar _ _ Hc) as Hcols.
  assert (has_column (select em_risco f') c_dias = true) as Hdias.
  { unfold has_column, select. cbn [columns]. fold (has_column f' c_dias).
    rewrite (has_column_classificar _ _ _ Hc).
    apply rows_classificar in Hc as (Hall & _).
    rewrite (forallb_elem_of _ _ c_dias Hall); [done|].
    do 2 right. by left. }
  assert (∀ risco, risco_churn_of f' (Ok risco) →
            (let* risco := Ok risco in
             if is_empty risco then Ok (f', [NenhumRisco])
             else let* tabela := project risco tabela_risco_colunas in
                  Ok (f', [TotalEmRisco (length (rows risco))]))
            = (if (total_em_risco filtro =? 0)%nat then Ok (f', [NenhumRisco])
               else match List.find (λ c, negb (has_column f' c)) tabela_risco_colunas with
                    | Some c => Raise (KeyError c)
                    | None => Ok (f', [TotalEmRisco (total_em_risco filtro)])
                    end)) as Hval.
  { intros risco Hr. apply sort_values_desc_Ok in Hr as (Hcr & Hperm & _).
    cbn [bind]. rewrite is_empty_rows by (by rewrite Hcr).
    assert (length (rows risco) = total_em_risco filtro) as Hl.
    { rewrite <- Hlen. by apply Permutation_length. }
    rewrite Hl. destruct (total_em_risco filtro) as [|n] eqn:Hn.
    - destruct (rows risco); [|done]. by rewrite bool_decide_eq_true_2.
    - rewrite bool_decide_eq_false_2 by (by intros Hnil; rewrite Hnil in Hl).
      cbn [Nat.eqb]. unfold project, has_column. rewrite Hcr.
      by destruct (List.find _ tabela_risco_colunas). }
  split.
  - intros (s & Hs & ->). destruct s as [risco|e].
    + by apply Hval.
    + unfold risco_churn_of in Hs.
      inversion Hs as [|Hno|Hyes Hmixed]; subst.
      * fold em_risco in Hno. congruence.
      * fold em_risco in Hmixed. congruence.
  - intros ->.
    destruct (sort_values_desc_total (select em_risco f') c_dias Hdias Hsort)
      as [risco Hrisco].
    exists (Ok risco). split; [exact Hrisco|]. symmetry. by apply Hval.
Qed.

(** X17. When the rule runs and the sheet has the partner name and the
    city, the section has exactly one outcome: the flagged frame and one
    message, "no partner at risk" when the rule is true of no row, and
    otherwise the total, which is the number of rows of which the rule is
    true. *)
Theorem secao_risco_total filtro f' :
  classificar filtro = Ok (Some f') →
  has_column filtro c_nome = true →
  has_column filtro c_cidade = true →
  ∀ out, secao_risco filtro out ↔
         out = Ok (f', [if (total_em_risco filtro =? 0)%nat then NenhumRisco
                        else TotalEmRisco (total_em_risco filtro)]).
Proof.
  intros Hc Hn Hcid out. rewrite (secao_risco_outcome _ _ _ Hc).
  destruct (total_em_risco filtro =? 0)%nat; [done|].
  assert (forallb (has_column f') tabela_risco_colunas = true) as Hall.
  { pose proof Hc as (Hr & _)%rows_classificar.
    apply forallb_forall. intros c Hin%list_elem_of_In.
    rewrite (has_column_classificar _ _ _ Hc).
    apply orb_true_iff. left.
    unfold tabela_risco_colunas in Hin.
    rewrite !elem_of_cons, elem_of_nil in Hin.
    destruct Hin as [->| [->| [->| [->| [->| [->|[]]]]]]]; try done;
      apply (forallb_elem_of _ _ _ Hr); unfold risco_colunas;
      rewrite !elem_of_cons; tauto. }
  destruct (List.find _ tabela_risco_colunas) as [c|] eqn:Hf; [|done].
  apply find_some in Hf as [Hin Hno].
  rewrite (proj1 (forallb_forall _ _) Hall c Hin) in Hno. discriminate.
Qed.

Lemma secao_risco_total_witness :
  secao_risco painel_canais (Ok (painel_canais_risco, [TotalEmRisco 1])).
Proof.
  apply (secao_risco_total painel_canais painel_canais_risco
           classificar_painel_canais);
    [vm_compute; reflexivity..|].
  f_equal.
Defined.

(** X18. On a sheet without the column "Cidade" (and with the partner
    name), the section completes only when no partner is flagged: as soon
    as the rule is true of one row, selecting the table columns raises
    KeyError for "Cidade" and the section has no other outcome. *)
Theorem secao_risco_sem_cidade filtro f' :
  classificar filtro = Ok (Some f') →
  has_column filtro c_nome = true →
  has_column filtro c_cidade = false →
  ∀ out, secao_risco filtro out ↔
         out = (if (total_em_risco filtro =? 0)%nat then Ok (f', [NenhumRisco])
                else Raise (KeyError c_cidade)).
Proof.
  intros Hc Hn Hcid out. rewrite (secao_risco_outcome _ _ _ Hc).
  destruct (total_em_risco filtro =? 0)%nat; [done|].
  unfold tabela_risco_colunas. cbn [List.find].
  rewrite !(has_column_classificar _ _ _ Hc), Hn, Hcid. done.
Qed.

Lemma secao_risco_sem_cidade_witness :
  secao_risco painel_sem_cidade (Raise (KeyError c_cidade)).
Proof.
  destruct (classificar painel_sem_cidade) as [[f'|]|e] eqn:Hc.
  - apply (secao_risco_sem_cidade painel_sem_cidade f' Hc);
      vm_compute; reflexivity.
  - apply (f_equal (λ x, match x with Ok (Some _) => true | _ => false end)) in Hc.
    vm_compute in Hc. discriminate.
  - apply (f_equal (λ x, match x with Ok (Some _) => true | _ => false end)) in Hc.
    vm_compute in Hc. discriminate.
Defined.

(** ** When section 2 names a best channel (lines 118-144) *)

Lemma num_values_total cs :
  (∀ c, c ∈ cs → comparavel c = true) → ∃ xs, num_values cs = Ok xs.
Proof.
  induction cs as [|c cs IH]; intros H; simpl; [eauto|].
  destruct IH as [xs Hxs]; [intros; apply H; by right|].
  destruct (isna c); [eauto|].
  assert (comparavel c = true) as Hc by (apply H; by left).
  unfold comparavel in Hc.
  destruct (num_value c); [|discriminate]. rewrite Hxs. simpl. eauto.
Qed.

Lemma mean_total agg cs :
  (∀ c, c ∈ cs → comparavel c = true) →
  ∃ m, mean agg cs = Ok m ∧ kind m = KNum.
Proof.
  intros [xs Hxs]%num_values_total. unfold mean. rewrite Hxs. simpl.
  destruct xs; eauto.
Qed.

Lemma summary_rows_total agg filtro ks :
  (∀ r, r ∈ rows filtro → comparavel (cell_at c_taxa_conv r) = true) →
  ∃ rs, summary_rows agg filtro ks = Ok rs
        ∧ ∀ r, r ∈ rs → kind (cell_at c_taxa_media r) = KNum.
Proof.
  intros Hnum. induction ks as [|k ks (rs & Hrs & Hk)]; simpl.
  - exists []. split; [done|]. intros r Hr. by apply elem_of_nil in Hr.
  - destruct (mean_total agg (cell_at c_taxa_conv <$> membros filtro c_canal k))
      as (m & Hm & Hkm).
    { intros c (r & -> & Hr)%list_elem_of_fmap. apply Hnum.
      unfold membros in Hr.
      apply list_elem_of_In, filter_In in Hr as [Hr _]. by apply list_elem_of_In. }
    unfold summary_row. rewrite Hm, Hrs. cbn [bind].
    eexists. split; [reflexivity|].
    intros r [->|Hr]%elem_of_cons; [|by apply Hk].
    rewrite cell_at_insert_ne by done. by rewrite cell_at_insert_eq.
Qed.

(** X19. With the three columns of the summary present, conversion rates
    that are numbers and one row that has a channel, section 2 runs
    through, and every run names a best channel: a channel that is not
    missing and occurs in the view. *)
Theorem secao_canais_runs agg filtro :
  has_column filtro c_canal = true →
  has_column filtro c_taxa_conv = true →
  has_column filtro c_nome = true →
  forallb (λ r, comparavel (cell_at c_taxa_conv r)) (rows filtro) = true →
  existsb (λ r, negb (isna (cell_at c_canal r))) (rows filtro) = true →
  (∃ canais evs, secao_canais agg filtro (Ok (Some canais, evs)))
  ∧ ∀ out, secao_canais agg filtro out →
      ∃ canais,
        out = Ok (Some canais,
                  [MelhorCanal (cell_at c_canal (melhor_canal canais))
                               (cell_at c_taxa_media (melhor_canal canais))])
        ∧ isna (cell_at c_canal (melhor_canal canais)) = false
        ∧ ∃ r, r ∈ rows filtro
               ∧ cell_at c_canal r = cell_at c_canal (melhor_canal canais).
Proof.
  intros Hc Ht Hn Hnum Hex.
  destruct (summary_rows_total agg filtro (group_keys filtro c_canal))
    as (rs & Hrs & Hkind).
  { intros r Hr. exact (forallb_elem_of _ _ _ Hnum Hr). }
  assert (group_summary agg filtro = Ok (mkDF [c_canal; c_taxa_media; c_qtd] rs))
    as Hg.
  { unfold group_summary. rewrite Hc, Ht, Hn. cbn [negb]. by rewrite Hrs. }
  destruct (summary_rows_lookup _ _ _ _ Hrs) as [Hkeys _].
  assert (rs ≠ []) as Hne.
  { apply existsb_exists in Hex as (r & Hr%list_elem_of_In & Hna%negb_true_iff).
    assert (cell_at c_canal r ∈ group_keys filtro c_canal) as Hk
      by (apply elem_of_group_keys; eauto).
    intros ->. rewrite <- Hkeys in Hk. by apply elem_of_nil in Hk. }
  assert (∀ sorted, sort_values_desc (mkDF [c_canal; c_taxa_media; c_qtd] rs)
                      c_taxa_media (Ok sorted) →
            ∃ melhor, iloc0 sorted = Ok melhor
              ∧ isna (cell_at c_canal melhor) = false
              ∧ ∃ r, r ∈ rows filtro ∧ cell_at c_canal r = cell_at c_canal melhor)
    as Hbest.
  { intros sorted (_ & Hp & _)%sort_values_desc_Ok. cbn [rows] in Hp.
    unfold iloc0. destruct (rows sorted) as [|melhor rest] eqn:Hs.
    - by apply Permutation_nil_l in Hp.
    - exists melhor. split; [done|].
      assert (cell_at c_canal melhor ∈ group_keys filtro c_canal) as Hk.
      { rewrite <- Hkeys. apply list_elem_of_fmap. exists melhor. split; [done|].
        rewrite <- Hp. by left. }
      apply elem_of_group_keys in Hk as [Hna (r & Hr & Heq)]. eauto. }
  unfold secao_canais, canal_conv_of. rewrite Hc, Hg. split.
  - destruct (sort_values_desc_total (mkDF [c_canal; c_taxa_media; c_qtd] rs)
                c_taxa_media) as [sorted Hs]; [done| |].
    { apply sortable_numeric. intros c (r & -> & Hr)%list_elem_of_fmap.
      by apply Hkind. }
    destruct (Hbest sorted Hs) as (melhor & Hm & _).
    exists (mkCanais sorted melhor),
      [MelhorCanal (cell_at c_canal melhor) (cell_at c_taxa_media melhor)].
    exists (Ok sorted). split; [exact Hs|]. cbn [bind]. by rewrite Hm.
  - intros out (cc & Hcc & ->). destruct cc as [sorted|e].
    + destruct (Hbest sorted Hcc) as (melhor & Hm & Hna & Hr).
      exists (mkCanais sorted melhor). cbn [bind]. rewrite Hm. cbn [bind].
      split; [done|]. split; [exact Hna|exact Hr].
    + exfalso. inversion Hcc as [|Hno|Hyes Hmixed]; subst.
      * done.
      * rewrite sortable_numeric in Hmixed; [done|].
        intros c (r & -> & Hr)%list_elem_of_fmap. by apply Hkind.
Qed.

Lemma secao_canais_runs_witness :
  ∃ canais evs, secao_canais media_simples painel_canais (Ok (Some canais, evs)).
Proof.
  destruct (secao_canais_runs media_simples painel_canais) as [H _];
    [vm_compute; reflexivity..|exact H].
Defined.

(** ** From the load to the sections *)

Lemma derived_row_taxa r tc tq d dd :
  cell_at c_taxa_conv (derived_row r tc tq d dd) = tc.
Proof.
  unfold derived_row. rewrite !cell_at_insert_ne by done.
  apply cell_at_insert_eq.
Qed.

Lemma derived_row_dias r tc tq d dd :
  cell_at c_dias (derived_row r tc tq d dd) = dd.
Proof. unfold derived_row. apply cell_at_insert_eq. Qed.

Lemma derived_row_other r tc tq d dd col :
  col ∉ [c_taxa_conv; c_taxa_qual; c_data; c_dias] →
  cell_at col (derived_row r tc tq d dd) = cell_at col r.
Proof.
  intros Hcol. unfold derived_row.
  rewrite !cell_at_insert_ne; [done|intros <-; apply Hcol..].
  - do 0 right. by left.
  - do 1 right. by left.
  - do 2 right. by left.
  - do 3 right. by left.
Qed.

Lemma elem_of_rows_aplicar_filtros df filtros r :
  r ∈ rows (aplicar_filtros df filtros) → r ∈ rows df.
Proof.
  rewrite aplicar_filtros_select. unfold select. cbn [rows].
  intros Hr. apply list_elem_of_In, filter_In in Hr as [Hr _].
  by apply list_elem_of_In.
Qed.

Lemma has_column_aplicar_filtros df filtros col :
  has_column (aplicar_filtros df filtros) col = has_column df col.
Proof. unfold has_column. by rewrite (columns_aplicar_filtros df filtros). Qed.

Lemma has_column_nonempty df col : has_column df col = true → columns df ≠ [].
Proof.
  unfold has_column. intros H%bool_decide_eq_true Hnil. rewrite Hnil in H.
  by apply elem_of_nil in H.
Qed.

(** X20. The script stops at line 33 exactly when the load failed, with
    its error message, or the sheet loaded and has no row, with no message
    at all: a loaded frame always has columns. *)
Theorem load_data_empty div parse today excel df evs :
  load_data div parse today excel = (df, evs) →
  (is_empty df = true
   ↔ (∃ e, evs = [ErroCarregar e])
     ∨ (evs = [] ∧ ∃ base, excel = Ok base ∧ rows base = []))
  ∧ ((∃ e, evs = [ErroCarregar e]) → df = empty_frame).
Proof.
  unfold load_data. destruct (load_body div parse today excel) as [out|e] eqn:Hb.
  - intros [= <- <-].
    destruct excel as [base|e]; [|discriminate].
    destruct (load_body_columns _ _ _ _ _ Hb) as [_ Hcols].
    destruct (load_body_rows _ _ _ _ _ Hb) as [Hlen _].
    assert (columns out ≠ []) as Hne.
    { apply (has_column_nonempty out c_dias). rewrite Hcols.
      apply orb_true_iff. right. by apply bool_decide_eq_true; do 2 right; left. }
    rewrite (is_empty_rows _ Hne). split.
    + split.
      * intros Hr%bool_decide_eq_true. right. split; [done|].
        exists base. split; [done|]. rewrite Hr in Hlen.
        by destruct (rows base).
      * intros [[e [=]]|[_ (b & [= <-] & Hr)]].
        rewrite Hr in Hlen. apply bool_decide_eq_true.
        by destruct (rows out).
    + by intros [e [=]].
  - intros [= <- <-]. split; [|done]. split; [eauto|done].
Qed.

Lemma load_data_empty_witness :
  is_empty (load_data div_amostra parse_amostra hoje_amostra (Raise IOError)).1 = true.
Proof.
  destruct (load_data_empty div_amostra parse_amostra hoje_amostra (Raise IOError)
              empty_frame [ErroCarregar IOError] eq_refl) as [[_ H] _].
  apply H. left. by exists IOError.
Defined.

Lemma load_rates_numeric div parse today base df filtros r :
  load_data div parse today (Ok base) = (df, []) →
  r ∈ rows (aplicar_filtros df filtros) →
  ∃ x, cell_at c_taxa_conv r = Flt x ∧ F64.is_nan x = false.
Proof.
  intros Hload%load_data_Ok Hr%elem_of_rows_aplicar_filtros.
  destruct (load_body_elem_of _ _ _ _ _ _ Hload Hr) as (r0 & xc & xq & d & _ & _ & ->).
  rewrite derived_row_taxa. apply fillna0_Flt.
Qed.

(** X21. After a load that went through, whatever the filters are, the
    ranking of line 97 never raises: it has a result, and every result
    holds the first ten rows of the view (all of them when there are
    fewer), each with a conversion rate that is a number. *)
Theorem top_parceiros_after_load div parse today base df filtros :
  load_data div parse today (Ok base) = (df, []) →
  (∃ top, top_parceiros (aplicar_filtros df filtros) (Ok top))
  ∧ ∀ out, top_parceiros (aplicar_filtros df filtros) out →
      ∃ top, out = Ok top
        ∧ length (rows top) = (10 `min` length (rows (aplicar_filtros df filtros)))%nat
        ∧ ∀ r, r ∈ rows top →
            r ∈ rows (aplicar_filtros df filtros)
            ∧ ∃ x, cell_at c_taxa_conv r = Flt x ∧ F64.is_nan x = false.
Proof.
  intros Hload.
  pose proof (proj1 (load_data_Ok _ _ _ _ _) Hload) as Hbody.
  destruct (load_body_columns _ _ _ _ _ Hbody) as [_ Hcols].
  assert (has_column (aplicar_filtros df filtros) c_taxa_conv = true) as Hcol.
  { rewrite has_column_aplicar_filtros, Hcols. apply orb_true_iff. right.
    apply bool_decide_eq_true. by left. }
  assert (sortable (sort_keys (aplicar_filtros df filtros) c_taxa_conv) = true)
    as Hsort.
  { apply sortable_numeric. intros c (r & -> & Hr)%list_elem_of_fmap.
    destruct (load_rates_numeric _ _ _ _ _ _ _ Hload Hr) as (x & -> & _). done. }
  split.
  - destruct (sort_values_desc_total _ _ Hcol Hsort) as [sorted Hs].
    exists (head 10 sorted). exists (Ok sorted). by split.
  - intros out (s & Hs & ->). destruct s as [sorted|e].
    + exists (head 10 sorted). split; [done|].
      apply sort_values_desc_Ok in Hs as (_ & Hp & _).
      split.
      * unfold head. cbn [rows]. rewrite length_take.
        by rewrite (Permutation_length Hp).
      * intros r Hr. unfold head in Hr. cbn [rows] in Hr.
        apply subseteq_take in Hr. rewrite Hp in Hr.
        split; [done|]. by eapply load_rates_numeric.
    + exfalso. inversion Hs; congruence.
Qed.

Lemma top_parceiros_after_load_witness :
  ∃ df top,
    load_data div_amostra parse_amostra hoje_amostra (Ok base_data_vazia) = (df, [])
    ∧ top_parceiros (aplicar_filtros df []) (Ok top).
Proof.
  destruct load_amostra_Ok as [df Hload].
  destruct (top_parceiros_after_load _ _ _ _ _ [] Hload) as [[top Htop] _].
  exists df, top. split; [exact Hload|exact Htop].
Defined.

Lemma num_lt_total a b :
  comparavel a = true → comparavel b = true → ∃ x, num_lt a b = Ok x.
Proof.
  unfold comparavel, num_lt. intros Ha Hb.
  destruct (num_value a) eqn:Ea; [|discriminate].
  destruct (num_value b) eqn:Eb; [|discriminate].
  destruct a, b; eauto.
Qed.

Lemma risco_churn_row_total r :
  comparavel (cell_at c_nps r) = true →
  comparavel (cell_at c_dias r) = true →
  comparavel (cell_at c_taxa_conv r) = true →
  ∃ b, risco_churn_row r = Ok b.
Proof.
  intros Hn Hd Ht. unfold risco_churn_row, num_gt.
  destruct (num_lt_total (cell_at c_nps r) (Int 30) Hn eq_refl) as [x ->].
  destruct (num_lt_total (Int 60) (cell_at c_dias r) eq_refl Hd) as [y ->].
  destruct (num_lt_total (cell_at c_taxa_conv r) (Flt F64.lit_0_2) Ht eq_refl)
    as [z ->].
  cbn [bind]. eauto.
Qed.

(** X22. After a load that went through, whatever the filters are, the
    risk section refuses exactly when the sheet lacks the status or the
    satisfaction column (the other two columns of the rule are made by the
    load); and when the sheet has both and its satisfaction cells are
    numbers or missing, the rule evaluates on every row of the view. *)
Theorem classificar_after_load div parse today base df filtros :
  load_data div parse today (Ok base) = (df, []) →
  (classificar (aplicar_filtros df filtros) = Ok None
   ↔ has_column base c_status = false ∨ has_column base c_nps = false)
  ∧ (has_column base c_status = true →
     has_column base c_nps = true →
     forallb (λ r, comparavel (cell_at c_nps r)) (rows base) = true →
     ∃ f', classificar (aplicar_filtros df filtros) = Ok (Some f')).
Proof.
  intros Hload.
  pose proof (proj1 (load_data_Ok _ _ _ _ _) Hload) as Hbody.
  destruct (load_body_columns _ _ _ _ _ Hbody) as [_ Hcols].
  assert (forallb (has_column (aplicar_filtros df filtros)) risco_colunas
          = has_column base c_status && has_column base c_nps) as Hall.
  { unfold risco_colunas. cbn [forallb].
    rewrite !has_column_aplicar_filtros, !Hcols.
    rewrite (bool_decide_eq_false_2 (c_status ∈ _));
      [|rewrite !elem_of_cons, elem_of_nil; by intros [|[|[|[]]]]].
    rewrite (bool_decide_eq_false_2 (c_nps ∈ _));
      [|rewrite !elem_of_cons, elem_of_nil; by intros [|[|[|[]]]]].
    rewrite (bool_decide_eq_true_2 (c_dias ∈ _)) by (by do 2 right; left).
    rewrite (bool_decide_eq_true_2 (c_taxa_conv ∈ _)) by (by left).
    by rewrite !orb_false_r, !orb_true_r, !andb_true_r. }
  split.
  - unfold classificar. rewrite Hall.
    destruct (has_column base c_status), (has_column base c_nps); cbn [andb];
      try (split; [eauto|done]).
    split; [|by intros [|]].
    destruct (risco_churn_col _); discriminate.
  - intros Hs Hn Hnum. unfold classificar. rewrite Hall, Hs, Hn. cbn [andb].
    destruct (risco_churn_col_total (rows (aplicar_filtros df filtros)))
      as [flags ->]; [|cbn [bind]; eauto].
    intros r Hr%elem_of_rows_aplicar_filtros.
    destruct (load_body_elem_of _ _ _ _ _ _ Hbody Hr)
      as (r0 & xc & xq & d & Hr0 & _ & ->).
    apply risco_churn_row_total.
    + rewrite derived_row_other.
      * exact (forallb_elem_of _ _ _ Hnum Hr0).
      * rewrite !elem_of_cons, elem_of_nil. by intros [|[|[|[|[]]]]].
    + rewrite derived_row_dias. unfold dias_sem_contato.
      destruct d; try done. by destruct (existsb isna _).
    + rewrite derived_row_taxa. destruct (fillna0_Flt xc) as (w & -> & _).
      done.
Qed.

Lemma load_completa_Ok :
  ∃ out, load_data div_amostra parse_amostra hoje_amostra (Ok base_completa) = (out, []).
Proof.
  destruct (load_data div_amostra parse_amostra hoje_amostra (Ok base_completa))
    as [out evs] eqn:Hload.
  assert (evs = []) as ->; [|by exists out].
  apply (f_equal snd) in Hload. simpl in Hload. rewrite <- Hload.
  vm_compute. reflexivity.
Qed.

Lemma classificar_after_load_witness :
  ∃ df f',
    load_data div_amostra parse_amostra hoje_amostra (Ok base_completa) = (df, [])
    ∧ classificar (aplicar_filtros df []) = Ok (Some f').
Proof.
  destruct load_completa_Ok as [df Hload].
  destruct (classificar_after_load _ _ _ _ _ [] Hload) as [_ H].
  destruct H as [f' Hf']; [vm_compute; reflexivity..|].
  exists df, f'. split; [exact Hload|exact Hf'].
Defined.

(** ** The variable [melhor_canal] (lines 141 and 207) *)

Lemma num_values_Raise cs e : num_values cs = Raise e → e = TypeError.
Proof.
  induction cs as [|c cs IH]; simpl; [discriminate|].
  destruct (isna c); [exact IH|].
  destruct (num_value c); [|by intros [= <-]].
  destruct (num_values cs); simpl; [discriminate|].
  intros [= <-]. by apply IH.
Qed.

Lemma sort_values_desc_Raise df col e :
  sort_values_desc df col (Raise e) → e ≠ NameError.
Proof. inversion 1; discriminate. Qed.

Lemma summary_rows_Raise agg filtro ks e :
  summary_rows agg filtro ks = Raise e → e = TypeError.
Proof.
  induction ks as [|k ks IH]; simpl; [discriminate|].
  unfold summary_row, mean.
  destruct (num_values _) as [xs|e'] eqn:Hn; cbn [bind].
  - destruct (summary_rows agg filtro ks); cbn [bind]; [discriminate|].
    intros [= <-]. by apply IH.
  - intros [= <-]. by eapply num_values_Raise.
Qed.

Lemma group_summary_Raise agg filtro e :
  group_summary agg filtro = Raise e → e ≠ NameError.
Proof.
  unfold group_summary.
  destruct (negb (has_column filtro c_canal)); [by intros [= <-]|].
  destruct (negb (has_column filtro c_taxa_conv)); [by intros [= <-]|].
  destruct (negb (has_column filtro c_nome)); [by intros [= <-]|].
  destruct (summary_rows _ _ _) as [rs|e'] eqn:Hrs; cbn [bind]; [discriminate|].
  intros [= <-]. by rewrite (summary_rows_Raise _ _ _ _ Hrs).
Qed.

Lemma secao_canais_Raise agg filtro e :
  secao_canais agg filtro (Raise e) → e ≠ NameError.
Proof.
  unfold secao_canais, canal_conv_of.
  destruct (has_column filtro c_canal); [|discriminate].
  intros (cc & Hcc & Hout). destruct cc as [conv|e']; cbn [bind] in Hout.
  - unfold iloc0 in Hout. destruct (rows conv); cbn [bind] in Hout;
      [|discriminate]. by injection Hout as ->.
  - injection Hout as ->.
    destruct (group_summary agg filtro) as [g|e''] eqn:Hg.
    + by eapply sort_values_desc_Raise.
    + injection Hcc as ->. by eapply group_summary_Raise.
Qed.

Lemma secao_canais_bound agg filtro canais evs :
  secao_canais agg filtro (Ok (canais, evs)) →
  has_column filtro c_canal = bool_decide (is_Some canais).
Proof.
  unfold secao_canais. destruct (has_column filtro c_canal).
  - intros (cc & _ & Hout). destruct cc as [conv|e]; [|discriminate].
    cbn [bind] in Hout. destruct (iloc0 conv); [|discriminate].
    injection Hout as -> _. symmetry. by apply bool_decide_eq_true.
  - intros [= -> _]. symmetry. apply bool_decide_eq_false. by intros [? [=]].
Qed.

Lemma secao_risco_Raise filtro e :
  secao_risco filtro (Raise e) → e ≠ NameError.
Proof.
  destruct (classificar filtro) as [[f'|]|e'] eqn:Hc.
  - intros H. apply (secao_risco_outcome filtro f' _ Hc) in H.
    destruct (total_em_risco filtro =? 0)%nat; [discriminate|].
    destruct (List.find _ tabela_risco_colunas); [|discriminate].
    by injection H as ->.
  - unfold secao_risco. rewrite Hc. discriminate.
  - unfold secao_risco. rewrite Hc. intros [= <-]. unfold classificar in Hc.
    destruct (forallb _ risco_colunas); [|discriminate].
    destruct (risco_churn_col (rows filtro)) as [|e''] eqn:Hcol; [discriminate|].
    injection Hc as <-. by rewrite (risco_churn_col_Raise _ _ Hcol).
Qed.

Lemma secao_risco_canal filtro f' evs :
  secao_risco filtro (Ok (f', evs)) →
  has_column f' c_canal = has_column filtro c_canal.
Proof.
  destruct (classificar filtro) as [[f0|]|e'] eqn:Hc.
  - intros H. apply (secao_risco_outcome filtro f0 _ Hc) in H.
    assert (f' = f0) as ->.
    { destruct (total_em_risco filtro =? 0)%nat; [by injection H as -> _|].
      destruct (List.find _ tabela_risco_colunas); [discriminate|].
      by injection H as -> _. }
    rewrite (has_column_classificar _ _ _ Hc).
    rewrite bool_decide_eq_false_2 by done. apply orb_false_r.
  - unfold secao_risco. rewrite Hc. by intros [= <- _].
  - unfold secao_risco. rewrite Hc. discriminate.
Qed.

Lemma quantile_col_Raise q df col e :
  quantile_col q df col = Raise e → e ≠ NameError.
Proof.
  unfold quantile_col, getcol. destruct (has_column df col); cbn [bind].
  - destruct (num_values _) as [xs|e'] eqn:Hn; cbn [bind]; [discriminate|].
    intros [= <-]. by rewrite (num_values_Raise _ _ Hn).
  - by intros [= <-].
Qed.

Lemma perfil_ideal_canal q f melhor :
  has_column f c_canal = bool_decide (is_Some melhor) →
  perfil_ideal q f melhor ≠ Raise NameError
  ∧ ∀ p evs, perfil_ideal q f melhor = Ok (Some p, evs) →
      p_canal p = match melhor with
                  | Some m => cell_at c_canal m
                  | None => Str "N/D"
                  end.
Proof.
  intros Hcanal. unfold perfil_ideal.
  destruct (is_empty f); [split; discriminate|].
  destruct (quantile_col q f c_taxa_conv) as [t|e] eqn:Ht; cbn [bind].
  2:{ split; [|discriminate]. intros [= ->]. by eapply quantile_col_Raise. }
  assert (∀ e, (if has_column f c_nps
                then let* q0 := quantile_col q f c_nps in Ok (Some q0)
                else Ok None) = Raise e → e ≠ NameError) as Hnps.
  { intros e. destruct (has_column f c_nps); [|discriminate].
    destruct (quantile_col q f c_nps) eqn:Hq; cbn [bind]; [discriminate|].
    intros [= <-]. by eapply quantile_col_Raise. }
  destruct (if has_column f c_nps then _ else _) as [n|e]; cbn [bind].
  2:{ split; [|discriminate]. intros [= ->]. by eapply Hnps. }
  rewrite Hcanal. destruct melhor as [m|].
  - rewrite bool_decide_eq_true_2 by done. cbn [bind].
    split; [discriminate|]. by intros p evs [= <- _].
  - rewrite bool_decide_eq_false_2 by (by intros [? [=]]). cbn [bind].
    split; [discriminate|]. by intros p evs [= <- _].
Qed.

(** X23. Sections 2 to 4 never stop on an unbound [melhor_canal]: section 4
    reads the variable under the same test on the columns that made
    section 2 assign it, and the column the risk section adds in between
    is not the channel. A profile shows the channel of the best row when
    the channel column exists, and "N/D" when it does not. *)
Theorem secoes_2_a_4_melhor_canal quantile75 agg_mean filtro out :
  secoes_2_a_4 quantile75 agg_mean filtro out →
  out ≠ Raise NameError
  ∧ ∀ canais perfil, out = Ok (canais, Some perfil) →
      match canais with
      | Some c => has_column filtro c_canal = true
                  ∧ p_canal perfil = cell_at c_canal (melhor_canal c)
      | None => has_column filtro c_canal = false
                ∧ p_canal perfil = Str "N/D"
      end.
Proof.
  intros (r2 & H2 & H). destruct r2 as [[canais evs2]|e].
  2:{ subst out. split; [|discriminate].
      intros [= ->]. by eapply secao_canais_Raise. }
  destruct H as (r3 & H3 & H). destruct r3 as [[f' evs3]|e].
  2:{ subst out. split; [|discriminate].
      intros [= ->]. by eapply secao_risco_Raise. }
  pose proof (secao_canais_bound _ _ _ _ H2) as Hb.
  pose proof (secao_risco_canal _ _ _ H3) as Hc.
  destruct (perfil_ideal_canal quantile75 f' (melhor_canal <$> canais)) as [Hne Hp].
  { rewrite Hc, Hb. destruct canais as [c|]; [|done].
    rewrite (bool_decide_eq_true_2 (is_Some (Some c))) by (by eexists).
    symmetry. apply bool_decide_eq_true. by eexists. }
  subst out.
  destruct (perfil_ideal quantile75 f' (melhor_canal <$> canais))
    as [[p evs]|e] eqn:Hperfil; cbn [bind].
  - split; [discriminate|]. intros canais' perfil [= <- Hfst].
    cbn [fst] in Hfst. subst p.
    specialize (Hp perfil evs eq_refl).
    destruct canais as [c|]; cbn in Hp.
    + split; [|exact Hp]. rewrite Hb. by apply bool_decide_eq_true.
    + split; [|exact Hp]. rewrite Hb. apply bool_decide_eq_false. by intros [? [=]].
  - split; [|discriminate]. intros [= ->]. by apply Hne.
Qed.

Lemma secoes_2_a_4_melhor_canal_witness :
  ∃ perfil,
    secoes_2_a_4 quantil_topo media_simples painel_minimo (Ok (None, Some perfil))
    ∧ p_canal perfil = Str "N/D".
Proof.
  assert (secoes_2_a_4 quantil_topo media_simples painel_minimo
            (Ok (None, Some (mkPerfil (razao 1 2) None
                               "Ativos nos últimos 30 dias" (Str "N/D")))))
    as Hrun.
  { exists (Ok (None, [CanalIndisponivel])). split; [reflexivity|].
    exists (Ok (painel_minimo, [DadosIncompletos])). split; [reflexivity|].
    vm_compute. reflexivity. }
  eexists. split; [exact Hrun|].
  destruct (secoes_2_a_4_melhor_canal _ _ _ _ Hrun) as [_ H].
  exact (proj2 (H None _ eq_refl)).
Defined.

(** ** The metrics after a load (lines 85-88) *)

Lemma derived_row_qual r tc tq d dd :
  cell_at c_taxa_qual (derived_row r tc tq d dd) = tq.
Proof.
  unfold derived_row. rewrite !cell_at_insert_ne by done.
  apply cell_at_insert_eq.
Qed.

Lemma mean_nil agg : mean agg [] = Ok NaN.
Proof. done. Qed.

(** X24. After a load that went through, whatever the filters are: the
    metrics are computed as soon as the satisfaction cells of the sheet are
    numbers or missing (the two rate columns always exist and hold
    numbers); the total is the number of rows of the view; the
    satisfaction reads "N/D" exactly when the sheet has no such column; and
    on a view without rows the two mean rates are missing, not zero. *)
Theorem metricas_after_load agg div parse today base df filtros :
  load_data div parse today (Ok base) = (df, []) →
  (forallb (λ r, comparavel (cell_at c_nps r)) (rows base) = true →
   ∃ m, metricas agg (aplicar_filtros df filtros) = Ok m)
  ∧ ∀ m, metricas agg (aplicar_filtros df filtros) = Ok m →
      m_total m = length (rows (aplicar_filtros df filtros))
      ∧ (m_nps m = None ↔ has_column base c_nps = false)
      ∧ (rows (aplicar_filtros df filtros) = [] →
         m_conv m = NaN ∧ m_qual m = NaN).
Proof.
  intros Hload.
  pose proof (proj1 (load_data_Ok _ _ _ _ _) Hload) as Hbody.
  destruct (load_body_columns _ _ _ _ _ Hbody) as [_ Hcols].
  assert (has_column (aplicar_filtros df filtros) c_taxa_conv = true) as Hc.
  { rewrite has_column_aplicar_filtros, Hcols. apply orb_true_iff. right.
    apply bool_decide_eq_true. by left. }
  assert (has_column (aplicar_filtros df filtros) c_taxa_qual = true) as Hq.
  { rewrite has_column_aplicar_filtros, Hcols. apply orb_true_iff. right.
    apply bool_decide_eq_true. by right; left. }
  assert (has_column (aplicar_filtros df filtros) c_nps = has_column base c_nps)
    as Hn.
  { rewrite has_column_aplicar_filtros, Hcols.
    rewrite bool_decide_eq_false_2; [apply orb_false_r|].
    rewrite !elem_of_cons, elem_of_nil. by intros [|[|[|[]]]]. }
  unfold metricas, getcol. rewrite Hc, Hq, Hn. cbn [bind]. split.
  - intros Hnum.
    destruct (mean_total agg (cell_at c_taxa_conv <$> rows (aplicar_filtros df filtros)))
      as (mc & -> & _).
    { intros c (r & -> & Hr%elem_of_rows_aplicar_filtros)%list_elem_of_fmap.
      destruct (load_body_elem_of _ _ _ _ _ _ Hbody Hr)
        as (r0 & xc & xq & d & _ & _ & ->).
      rewrite derived_row_taxa.
      by destruct (fillna0_Flt xc) as (w & -> & _). }
    destruct (mean_total agg (cell_at c_taxa_qual <$> rows (aplicar_filtros df filtros)))
      as (mq & -> & _).
    { intros c (r & -> & Hr%elem_of_rows_aplicar_filtros)%list_elem_of_fmap.
      destruct (load_body_elem_of _ _ _ _ _ _ Hbody Hr)
        as (r0 & xc & xq & d & _ & _ & ->).
      rewrite derived_row_qual.
      by destruct (fillna0_Flt xq) as (w & -> & _). }
    cbn [bind]. destruct (has_column base c_nps); cbn [bind]; [|eauto].
    destruct (mean_total agg (cell_at c_nps <$> rows (aplicar_filtros df filtros)))
      as (mn & -> & _); [|cbn [bind]; eauto].
    intros c (r & -> & Hr%elem_of_rows_aplicar_filtros)%list_elem_of_fmap.
    destruct (load_body_elem_of _ _ _ _ _ _ Hbody Hr)
      as (r0 & xc & xq & d & Hr0 & _ & ->).
    rewrite derived_row_other.
    + exact (forallb_elem_of _ _ _ Hnum Hr0).
    + rewrite !elem_of_cons, elem_of_nil. by intros [|[|[|[|[]]]]].
  - intros m Hm.
    apply bind_Ok in Hm as (mc & Hmc & Hm). apply bind_Ok in Hm as (mq & Hmq & Hm).
    apply bind_Ok in Hm as (mn & Hmn & Hm). injection Hm as <-. cbn.
    split; [done|]. split.
    + destruct (has_column base c_nps); [|by injection Hmn as <-].
      cbn [bind] in Hmn. apply bind_Ok in Hmn as (v & _ & Hmn).
      injection Hmn as <-. split; discriminate.
    + intros Hnil. rewrite Hnil in Hmc, Hmq. cbn [fmap list_fmap] in Hmc, Hmq.
      rewrite mean_nil in Hmc, Hmq. injection Hmc as <-. by injection Hmq as <-.
Qed.

Lemma metricas_after_load_witness :
  ∃ df m,
    load_data div_amostra parse_amostra hoje_amostra (Ok base_completa) = (df, [])
    ∧ metricas media_simples (aplicar_filtros df []) = Ok m.
Proof.
  destruct load_completa_Ok as [df Hload].
  destruct (metricas_after_load media_simples _ _ _ _ _ [] Hload) as [H _].
  destruct H as [m Hm]; [vm_compute; reflexivity|].
  exists df, m. split; [exact Hload|exact Hm].
Defined.
